(** * rawfeedhub-upload: the ingestion-and-load pipeline

    A shallow embedding of the two upload services of the repository,

    - [RM]: RAWFEED-HUB-RAW-MATERIAL-UPLOAD (core/db.py, core/data_processing.py,
      core/clean_data.py, app/main.py), and
    - [FP]: RAWFEED-HUB-FP-UPLOAD (app/models/fp_anaysis_model.py,
      app/services/data_processing.py, app/services/data_cleansing.py),

    over a small model of what they run on: pandas frames as lists of rows,
    the PostgreSQL store as tables of rows with the constraints the SQLAlchemy
    models declare, the session as a committed and a working copy of the
    store, and Python's exceptions as an outcome type threaded through a
    state monad.

    Conventions of the model.
    - A frame carries every column the code selects (the normalizers add the
      missing ones), so the [KeyError] paths of [data[[...]]] are not taken.
    - Numbers are rationals: [analysis_value] and the numeric cells are
      floats in the source, idealised here to their exact decimal value.
    - [uuid4()] draws the next identifier of a counter: identifiers are fresh.
    - [created_at] is filled by the server clock and never written by the
      code; the column is left out of the tables.
    - Logging is not modelled. *)

From Stdlib Require Import String Ascii List ZArith QArith Qround Qabs Bool Lia Lqa.
Import ListNotations.
Local Open Scope string_scope.
Local Open Scope list_scope.
Local Close Scope Q_scope.

(** ** Values, rows and frames *)

(** A scalar as pandas and the database driver see it.  [VNull] stands for
    [None], [NaN] and [NaT] alike: [dropna], [isna] and [fillna] do not tell
    them apart. *)
Inductive value : Type :=
| VNull
| VStr (s : string)
| VNum (q : Q)
| VDate (d : Z)
| VUuid (n : nat).

Definition is_null (v : value) : bool :=
  match v with VNull => true | _ => false end.

(** Python's [==] on scalars (two nulls compare equal, as [drop_duplicates]
    has it; the store's own comparison, [same_key] below, excludes nulls). *)
Definition value_eqb (a b : value) : bool :=
  match a, b with
  | VNull, VNull => true
  | VStr s, VStr t => String.eqb s t
  | VNum p, VNum q => Qeq_bool p q
  | VDate d, VDate e => Z.eqb d e
  | VUuid m, VUuid n => Nat.eqb m n
  | _, _ => false
  end.

Fixpoint list_eqb {A : Type} (eqb : A -> A -> bool) (l l' : list A) : bool :=
  match l, l' with
  | [], [] => true
  | x :: t, y :: u => eqb x y && list_eqb eqb t u
  | _, _ => false
  end.

(** A row: a Python dict (keyword arguments, [vars(obj)], a frame row, a
    stored record), column name to value. *)
Definition row : Type := list (string * value).
Definition frame : Type := list row.

Definition mem (c : string) (cs : list string) : bool :=
  existsb (String.eqb c) cs.

Fixpoint get (c : string) (r : row) : value :=
  match r with
  | [] => VNull
  | (k, v) :: t => if String.eqb c k then v else get c t
  end.

Definition has_key (c : string) (r : row) : bool :=
  mem c (map fst r).

Definition row_eqb (r r' : row) : bool :=
  list_eqb (fun a b => String.eqb (fst a) (fst b) && value_eqb (snd a) (snd b)) r r'.

(** [d[c] = v] on a dict: the binding is replaced in place, or appended. *)
Fixpoint put (c : string) (v : value) (r : row) : row :=
  match r with
  | [] => [(c, v)]
  | (k, w) :: t => if String.eqb c k then (k, v) :: t else (k, w) :: put c v t
  end.

(** [kwargs.pop(c, None)]. *)
Definition pop (c : string) (r : row) : row :=
  filter (fun kv => negb (String.eqb c (fst kv))) r.

(** [df[[c1, ..., cn]]], row by row. *)
Definition select (cs : list string) (r : row) : row :=
  map (fun c => (c, get c r)) cs.

(** [df.drop_duplicates()]: the first occurrence of each row is kept, in
    source order. *)
Fixpoint drop_duplicates (df : frame) : frame :=
  match df with
  | [] => []
  | r :: t => r :: filter (fun x => negb (row_eqb r x)) (drop_duplicates t)
  end.

(** [df.dropna(subset=cs)]. *)
Definition dropna (cs : list string) (df : frame) : frame :=
  filter (fun r => forallb (fun c => negb (is_null (get c r))) cs) df.

(** [df.melt(id_vars, var_name='analysis_parameter',
    value_name='analysis_value')] over the value columns [cs]: one block of
    rows per value column, each block in source-row order. *)
Definition melt (id_vars cs : list string) (df : frame) : frame :=
  flat_map
    (fun c =>
       map (fun r => select id_vars r
                       ++ [("analysis_parameter", VStr c);
                           ("analysis_value", get c r)]) df)
    cs.

(** A Python dict built by a comprehension over the rows of a query: a later
    row with the same key overwrites an earlier one. *)
Definition pydict : Type := list (value * value).

Fixpoint dict_get (k : value) (d : pydict) : option value :=
  match d with
  | [] => None
  | (k', v) :: t =>
      match dict_get k t with
      | Some w => Some w
      | None => if value_eqb k k' then Some v else None
      end
  end.

Definition dict_in (k : value) (d : pydict) : bool :=
  match dict_get k d with Some _ => true | None => false end.

(** ** What the code takes from outside

    Library functions and repository data that are not under the source
    tree: pandas' numeric and date parsers, Python's [str()] on a scalar
    that is not text, the calendar date of a timestamp, and the plant-code
    table
    [app.master_data.master_plants]. *)
Record externals : Type := {
  parse_float : string -> option Q;
  parse_datetime : value -> option Z;
  py_repr : value -> string;
  dt_date : Z -> Z;
  master_plants : list (string * string)
}.

(** [str(v)]. *)
Definition py_str (X : externals) (v : value) : string :=
  match v with
  | VStr s => s
  | _ => py_repr X v
  end.

(** A cell read as a float, or [None] when it does not convert. *)
Definition numeric_cell (X : externals) (v : value) : option value :=
  match v with
  | VNum q => Some (VNum q)
  | VNull => Some VNull
  | VStr s => option_map VNum (parse_float X s)
  | _ => None
  end.

(** A cell read as a timestamp, or [None] when it does not convert. *)
Definition datetime_cell (X : externals) (v : value) : option value :=
  match v with
  | VNull => Some VNull
  | _ => option_map VDate (parse_datetime X v)
  end.

(** [pd.to_numeric(col, errors='coerce')] and [pd.to_datetime(col,
    errors='coerce')] on one cell: what does not convert becomes NaN. *)
Definition to_numeric_coerce (X : externals) (v : value) : value :=
  match numeric_cell X v with Some n => n | None => VNull end.

Definition to_datetime_coerce (X : externals) (v : value) : value :=
  match datetime_cell X v with Some d => d | None => VNull end.

(** Rounding to the nearest integer, halves to even (numpy's [rint]). *)
Definition rint (q : Q) : Z :=
  let f := Qfloor q in
  match Qcompare (Qminus q (inject_Z f)) (1 # 2) with
  | Lt => f
  | Gt => (f + 1)%Z
  | Eq => if Z.even f then f else (f + 1)%Z
  end.

(** [Series.round(2)] on one number. *)
Definition round2 (q : Q) : Q :=
  Qmake (rint (Qmult q (inject_Z 100))) 100.

(** ** Strings *)

Definition endswith (suffix s : string) : bool :=
  (String.length suffix <=? String.length s)%nat
  && String.eqb
       (substring (String.length s - String.length suffix)
                  (String.length suffix) s)
       suffix.

Definition lower_ascii (a : ascii) : ascii :=
  let n := nat_of_ascii a in
  if ((65 <=? n) && (n <=? 90))%nat then ascii_of_nat (n + 32) else a.

Fixpoint lower (s : string) : string :=
  match s with
  | EmptyString => EmptyString
  | String a t => String (lower_ascii a) (lower t)
  end.

Definition is_space (a : ascii) : bool :=
  let n := nat_of_ascii a in
  ((n =? 32) || ((9 <=? n) && (n <=? 13)))%nat.

Fixpoint lstrip (s : string) : string :=
  match s with
  | EmptyString => EmptyString
  | String a t => if is_space a then lstrip t else s
  end.

Fixpoint string_rev (acc s : string) : string :=
  match s with
  | EmptyString => acc
  | String a t => string_rev (String a acc) t
  end.

Definition strip (s : string) : string :=
  string_rev "" (lstrip (string_rev "" (lstrip s))).

(** The part of a path after its last slash ([os.path.basename]). *)
Fixpoint basename_from (cur s : string) : string :=
  match s with
  | EmptyString => string_rev "" cur
  | String a t =>
      if Ascii.eqb a "/"%char then basename_from "" t
      else basename_from (String a cur) t
  end.

Definition basename (s : string) : string := basename_from "" s.

(** [os.path.join(folder, name)]. *)
Definition path_join (folder name : string) : string :=
  if endswith "/" folder then folder ++ name else folder ++ "/" ++ name.

(** ** The store

    A table declaration, as the SQLAlchemy models give it: [Column(...,
    primary_key=True)], [unique=True] and [UniqueConstraint], [nullable=False],
    [ForeignKey] and [ForeignKeyConstraint], [default=uuid.uuid4]. *)
Record fkey : Type := {
  fk_cols : list string;
  fk_table : string;
  fk_refcols : list string
}.

Record model : Type := {
  tablename : string;
  columns : list string;
  primary_key : list string;
  unique_constraints : list (list string);
  not_nullable : list string;
  foreign_keys : list fkey;
  uuid_defaults : list string
}.

(** The tables, by name, each in insertion order (the order a query without
    [ORDER BY] returns them in). *)
Definition db : Type := list (string * list row).

Fixpoint table (t : string) (d : db) : list row :=
  match d with
  | [] => []
  | (n, rows) :: rest => if String.eqb t n then rows else table t rest
  end.

Fixpoint set_table (t : string) (rows : list row) (d : db) : db :=
  match d with
  | [] => [(t, rows)]
  | (n, old) :: rest =>
      if String.eqb t n then (n, rows) :: rest
      else (n, old) :: set_table t rows rest
  end.

Inductive exn : Type :=
| IntegrityError      (* a constraint of the store is violated *)
| ProgrammingError    (* ON CONFLICT names no unique index *)
| CompileError        (* a value for a column the table does not have *)
| AttributeError      (* a method called on None *)
| KeyError            (* a dict subscripted with a key it lacks *)
| ValueError          (* a cell that does not convert *)
| FileNotFoundError.  (* a path that does not exist *)

Inductive result (A : Type) : Type :=
| Ok (a : A)
| Err (e : exn).
Arguments Ok {A} a.
Arguments Err {A} e.

Definition key_of (cols : list string) (r : row) : list value :=
  map (fun c => get c r) cols.

Definition no_null (vs : list value) : bool :=
  forallb (fun v => negb (is_null v)) vs.

(** Two rows collide on a unique index: the key has no NULL and is equal. *)
Definition same_key (cols : list string) (r x : row) : bool :=
  no_null (key_of cols r)
  && list_eqb value_eqb (key_of cols r) (key_of cols x).

Definition unique_indexes (m : model) : list (list string) :=
  primary_key m :: unique_constraints m.

Definition same_columns (a b : list string) : bool :=
  forallb (fun c => mem c b) a && forallb (fun c => mem c a) b.

(** The [ON CONFLICT] clause of an insert.  [DoUpdate idx cols] is
    [on_conflict_do_update(index_elements=idx, set_={c: excluded[c] for c in
    cols})]: every update the code writes takes the proposed row's value. *)
Inductive on_conflict : Type :=
| DoNothing
| DoUpdate (index_elements : list string) (set_ : list string).

(** The row an insert proposes: the given values, NULL elsewhere. *)
Definition proposed (m : model) (vals : row) : row :=
  select (columns m) vals.

Definition fk_ok (d : db) (r : row) (fk : fkey) : bool :=
  if no_null (key_of (fk_cols fk) r) then
    existsb (fun y => list_eqb value_eqb (key_of (fk_cols fk) r)
                                         (key_of (fk_refcols fk) y))
            (table (fk_table fk) d)
  else true.

Definition insert_row (m : model) (new : row) (d : db) : result db :=
  if forallb (fk_ok d new) (foreign_keys m) then
    Ok (set_table (tablename m) (table (tablename m) d ++ [new]) d)
  else Err IntegrityError.

(** [SET c = excluded.c] for [c] in [cols], on the stored row [x]. *)
Definition assign (cols : list string) (new x : row) : row :=
  map (fun kv => if mem (fst kv) cols then (fst kv, get (fst kv) new) else kv) x.

Definition key_changed (cols : list string) (x x' : row) : bool :=
  negb (list_eqb value_eqb (key_of cols x) (key_of cols x')).

(** Is some row of table [m'] of the schema pointing at [x] through a
    foreign key whose target columns the update changes?  (The foreign keys
    are declared without [ON UPDATE], so the store refuses.) *)
Definition referenced_elsewhere (schema : list model) (m : model) (d : db)
    (x x' : row) : bool :=
  existsb
    (fun m' =>
       existsb
         (fun fk =>
            String.eqb (fk_table fk) (tablename m)
            && key_changed (fk_refcols fk) x x'
            && existsb
                 (fun y => no_null (key_of (fk_cols fk) y)
                           && list_eqb value_eqb (key_of (fk_cols fk) y)
                                                 (key_of (fk_refcols fk) x))
                 (table (tablename m') d))
         (foreign_keys m'))
    schema.

(** The checks on a row [x] rewritten to [x']: a unique key it moves to must
    be free, a foreign key it changes must point at a row, and no row may be
    left pointing at its old key.  (A key the update does not change cannot
    collide in a store that satisfied its constraints before.) *)
Definition update_ok (schema : list model) (m : model) (d : db)
    (x x' : row) : bool :=
  forallb
    (fun U => negb (key_changed U x x'
                    && existsb (same_key U x') (table (tablename m) d)))
    (unique_indexes m)
  && forallb
       (fun fk => negb (key_changed (fk_cols fk) x x') || fk_ok d x' fk)
       (foreign_keys m)
  && negb (referenced_elsewhere schema m d x x').

(** [INSERT INTO m VALUES vals ON CONFLICT ...] against the store [d].
    NOT NULL is checked on the proposed row before conflicts are looked
    for.  [DO NOTHING] without a target skips the row when it collides on
    any unique index; [DO UPDATE] rewrites the row colliding on its target
    index (by uniqueness there is one) and fails on any other collision. *)
Definition pg_insert (schema : list model) (m : model) (vals : row)
    (oc : on_conflict) (d : db) : result db :=
  if negb (forallb (fun kv => mem (fst kv) (columns m)) vals) then
    Err CompileError
  else
    let new := proposed m vals in
    if existsb (fun c => is_null (get c new)) (not_nullable m) then
      Err IntegrityError
    else
      let rows := table (tablename m) d in
      let collides :=
        existsb (fun U => existsb (same_key U new) rows) (unique_indexes m) in
      match oc with
      | DoNothing => if collides then Ok d else insert_row m new d
      | DoUpdate idx cols =>
          if negb (existsb (same_columns idx) (unique_indexes m)) then
            Err ProgrammingError
          else if existsb (same_key idx new) rows then
            if forallb
                 (fun x => negb (same_key idx new x)
                           || update_ok schema m d x (assign cols new x))
                 rows
            then
              Ok (set_table (tablename m)
                    (map (fun x => if same_key idx new x
                                   then assign cols new x else x) rows)
                    d)
            else Err IntegrityError
          else if collides then Err IntegrityError
          else insert_row m new d
      end.

(** ** The world: session, identifiers, files *)

Record world : Type := mkWorld {
  committed : db;                    (* what the store holds *)
  working : db;                      (* the session's view: committed plus
                                        the statements since the last commit *)
  uuid_next : nat;                   (* the identifiers [uuid4()] has yet to give *)
  files : list (string * frame)      (* parquet files, by path *)
}.

Inductive outcome (A : Type) : Type :=
| Ret (a : A)
| Raise (e : exn).
Arguments Ret {A} a.
Arguments Raise {A} e.

(** A computation that reads and writes the world and may raise. *)
Definition M (A : Type) : Type := world -> outcome A * world.

Definition ret {A : Type} (a : A) : M A := fun w => (Ret a, w).

Definition raise {A : Type} (e : exn) : M A := fun w => (Raise e, w).

Definition bind {A B : Type} (c : M A) (k : A -> M B) : M B :=
  fun w =>
    match c w with
    | (Ret a, w') => k a w'
    | (Raise e, w') => (Raise e, w')
    end.

Notation "x <- c ;; k" := (bind c (fun x => k))
  (at level 61, c at next level, right associativity).
Notation "c ;;; k" := (bind c (fun _ => k))
  (at level 61, right associativity).

(** [try: body except Exception as e: handler(e)]. *)
Definition try_except {A : Type} (body : M A) (handler : exn -> M A) : M A :=
  fun w =>
    match body w with
    | (Ret a, w') => (Ret a, w')
    | (Raise e, w') => handler e w'
    end.

(** [try: body finally: final]. *)
Definition try_finally {A : Type} (body : M A) (final : M unit) : M A :=
  fun w =>
    match body w with
    | (Ret a, w') =>
        match final w' with
        | (Ret _, w'') => (Ret a, w'')
        | (Raise e, w'') => (Raise e, w'')
        end
    | (Raise e, w') =>
        match final w' with
        | (Ret _, w'') => (Raise e, w'')
        | (Raise e', w'') => (Raise e', w'')
        end
    end.

(** [for x in xs: body(x)]. *)
Fixpoint for_each {A : Type} (body : A -> M unit) (xs : list A) : M unit :=
  match xs with
  | [] => ret tt
  | x :: t => body x ;;; for_each body t
  end.

(** [[f(x) for x in xs]], with the effects of [f] in order. *)
Fixpoint comprehension {A B : Type} (f : A -> M B) (xs : list A) : M (list B) :=
  match xs with
  | [] => ret []
  | x :: t => y <- f x ;; ys <- comprehension f t ;; ret (y :: ys)
  end.

(** [d[k]]. *)
Definition subscript (d : pydict) (k : value) : M value :=
  match dict_get k d with
  | Some v => ret v
  | None => raise KeyError
  end.

Definition uuid4 : M value :=
  fun w =>
    (Ret (VUuid (uuid_next w)),
     mkWorld (committed w) (working w) (S (uuid_next w)) (files w)).

(** [session.commit()] and [session.rollback()]. *)
Definition commit : M unit :=
  fun w => (Ret tt, mkWorld (working w) (working w) (uuid_next w) (files w)).

Definition rollback : M unit :=
  fun w => (Ret tt, mkWorld (committed w) (committed w) (uuid_next w) (files w)).

(** [session.close()]: what was not committed is gone. *)
Definition close : M unit := rollback.

(** [session.query(m).all()], through the session's view. *)
Definition query_all (m : model) : M (list row) :=
  fun w => (Ret (table (tablename m) (working w)), w).

(** The columns a Python-side default fills when the statement gives no
    value for them. *)
Fixpoint fill_defaults (cs : list string) (vals : row) : M row :=
  match cs with
  | [] => ret vals
  | c :: t =>
      if has_key c vals then fill_defaults t vals
      else u <- uuid4 ;; fill_defaults t (vals ++ [(c, u)])
  end.

(** [session.execute(stmt)] for [stmt] the insert of [vals] into [m] with
    its conflict clause. *)
Definition execute (schema : list model) (m : model) (vals : row)
    (oc : on_conflict) : M unit :=
  vals' <- fill_defaults (uuid_defaults m) vals ;;
  fun w =>
    match pg_insert schema m vals' oc (working w) with
    | Ok d => (Ret tt, mkWorld (committed w) d (uuid_next w) (files w))
    | Err e => (Raise e, w)
    end.

(** [pd.read_parquet(path)]. *)
Definition read_parquet (path : string) : M frame :=
  fun w =>
    match find (fun f => String.eqb path (fst f)) (files w) with
    | Some f => (Ret (snd f), w)
    | None => (Raise FileNotFoundError, w)
    end.

(** [shutil.move(src, dst)]: the file leaves [src] and is at [dst]
    afterwards, in place of what was there. *)
Definition shutil_move (src dst : string) : M unit :=
  fun w =>
    match find (fun f => String.eqb src (fst f)) (files w) with
    | Some f =>
        (Ret tt,
         mkWorld (committed w) (working w) (uuid_next w)
           (filter (fun g => negb (String.eqb src (fst g))
                             && negb (String.eqb dst (fst g))) (files w)
            ++ [(dst, snd f)]))
    | None => (Raise FileNotFoundError, w)
    end.

Definition exists_file (path : string) (w : world) : bool :=
  existsb (fun f => String.eqb path (fst f)) (files w).

(** [c in df.columns]: the columns of a frame are those of its rows. *)
Definition in_columns (c : string) (df : frame) : bool :=
  match df with
  | [] => false
  | r :: _ => has_key c r
  end.

(** [vars(obj)] of a mapped instance: the attributes its constructor set,
    and SQLAlchemy's own bookkeeping entry. *)
Definition vars (obj : row) : row := ("_sa_instance_state", VNull) :: obj.

(** ** Column conversions

    The [errors=] argument of [pd.to_numeric], [pd.to_datetime] and
    [Series.astype]: what happens when a cell does not convert. *)
Inductive errors_mode : Type :=
| errors_raise
| errors_coerce
| errors_ignore.

Definition obind {A B : Type} (o : outcome A) (k : A -> outcome B) : outcome B :=
  match o with
  | Ret a => k a
  | Raise e => Raise e
  end.

(** [for c in cs: df = step(c, df)]. *)
Fixpoint ofold {A : Type} (step : string -> A -> outcome A) (cs : list string)
    (a : A) : outcome A :=
  match cs with
  | [] => Ret a
  | c :: t => obind (step c a) (ofold step t)
  end.

Fixpoint convert_all (f : value -> option value) (col : list value)
  : option (list value) :=
  match col with
  | [] => Some []
  | v :: t =>
      match f v, convert_all f t with
      | Some v', Some t' => Some (v' :: t')
      | _, _ => None
      end
  end.

(** What a failed conversion of a whole column amounts to. *)
Definition on_failure (errors : errors_mode) (col coerced : list value)
  : outcome (list value) :=
  match errors with
  | errors_raise => Raise ValueError
  | errors_coerce => Ret coerced
  | errors_ignore => Ret col
  end.

Definition to_numeric (X : externals) (errors : errors_mode) (col : list value)
  : outcome (list value) :=
  match convert_all (numeric_cell X) col with
  | Some c => Ret c
  | None => on_failure errors col (map (to_numeric_coerce X) col)
  end.

Definition to_datetime (X : externals) (errors : errors_mode) (col : list value)
  : outcome (list value) :=
  match convert_all (datetime_cell X) col with
  | Some c => Ret c
  | None => on_failure errors col (map (to_datetime_coerce X) col)
  end.

(** The type classes of a schema: numeric, string and date columns. *)
Inductive dtype : Type :=
| float64
| str
| datetime64.

Definition dtype_eqb (a b : dtype) : bool :=
  match a, b with
  | float64, float64 | str, str | datetime64, datetime64 => true
  | _, _ => false
  end.

(** [col.astype(dt, errors=...)]: [astype] knows [raise] and [ignore] only;
    on [ignore] a column with a cell that does not convert comes back as it
    was. *)
Definition astype (X : externals) (dt : dtype) (errors : errors_mode)
    (col : list value) : outcome (list value) :=
  match dt with
  | str => Ret (map (fun v => VStr (py_str X v)) col)
  | float64 =>
      match convert_all (numeric_cell X) col with
      | Some c => Ret c
      | None => match errors with errors_ignore => Ret col | _ => Raise ValueError end
      end
  | datetime64 =>
      match convert_all (datetime_cell X) col with
      | Some c => Ret c
      | None => match errors with errors_ignore => Ret col | _ => Raise ValueError end
      end
  end.

(** [df[c]] and [df[c] = col]. *)
Definition column (c : string) (df : frame) : list value := map (get c) df.

Definition set_column (c : string) (col : list value) (df : frame) : frame :=
  map (fun rv => put c (snd rv) (fst rv)) (combine df col).

(** [col.round(2)], [col.fillna(v)] and [col.dt.date], cell by cell. *)
Definition round_cell (v : value) : value :=
  match v with
  | VNum q => VNum (round2 q)
  | _ => v
  end.

Definition fillna_cell (fill v : value) : value :=
  if is_null v then fill else v.

Definition date_cell (X : externals) (v : value) : value :=
  match v with
  | VDate d => VDate (dt_date X d)
  | _ => v
  end.

(** ** The raw-material upload service *)
Module RM.

(** *** core/db.py *)

Definition Material : model := {|
  tablename := "materials";
  columns := ["material_id"; "material_code"; "material_description"];
  primary_key := ["material_id"];
  unique_constraints := [["material_code"]];
  not_nullable := ["material_id"; "material_code"; "material_description"];
  foreign_keys := [];
  uuid_defaults := ["material_id"] |}.

Definition Plant : model := {|
  tablename := "plants";
  columns := ["plant_id"; "plant"; "plant_name"];
  primary_key := ["plant_id"];
  unique_constraints := [["plant"]];
  not_nullable := ["plant_id"; "plant"; "plant_name"];
  foreign_keys := [];
  uuid_defaults := ["plant_id"] |}.

Definition Vendor : model := {|
  tablename := "vendors";
  columns := ["vendor_id"; "vendor_code"; "vendor_name"];
  primary_key := ["vendor_id"];
  unique_constraints := [["vendor_code"]];
  not_nullable := ["vendor_id"; "vendor_code"; "vendor_name"];
  foreign_keys := [];
  uuid_defaults := ["vendor_id"] |}.

Definition Sample : model := {|
  tablename := "samples";
  columns := ["sample_id"; "material_id"; "plant_id"; "vendor_id"; "sample_no";
              "inspection_lot"; "valuation_date"; "batch_no"; "material_doc"];
  primary_key := ["sample_id"];
  unique_constraints := [];
  not_nullable := ["sample_id"; "material_id"; "plant_id"; "vendor_id";
                   "sample_no"; "valuation_date"];
  foreign_keys :=
    [ {| fk_cols := ["material_id"]; fk_table := "materials";
         fk_refcols := ["material_id"] |};
      {| fk_cols := ["plant_id"]; fk_table := "plants";
         fk_refcols := ["plant_id"] |};
      {| fk_cols := ["vendor_id"]; fk_table := "vendors";
         fk_refcols := ["vendor_id"] |} ];
  uuid_defaults := ["sample_id"] |}.

Definition AnalysisResult : model := {|
  tablename := "analysis_results";
  columns := ["result_id"; "sample_id"; "analysis_parameter"; "analysis_value";
              "valuation_date"];
  primary_key := ["result_id"];
  unique_constraints := [];
  not_nullable := ["result_id"; "sample_id"; "analysis_parameter";
                   "valuation_date"];
  foreign_keys :=
    [ {| fk_cols := ["sample_id"]; fk_table := "samples";
         fk_refcols := ["sample_id"] |} ];
  uuid_defaults := ["result_id"] |}.

Definition MaterialSource : model := {|
  tablename := "material_sources";
  columns := ["source_id"; "sample_id"; "plant_origin"; "producer"; "country";
              "original_batch"; "valuation_date"];
  primary_key := ["source_id"];
  unique_constraints := [];
  not_nullable := ["source_id"; "sample_id"; "plant_origin"; "producer";
                   "country"; "valuation_date"];
  foreign_keys :=
    [ {| fk_cols := ["sample_id"]; fk_table := "samples";
         fk_refcols := ["sample_id"] |} ];
  uuid_defaults := ["source_id"] |}.

Definition schema : list model :=
  [Material; Plant; Vendor; Sample; AnalysisResult; MaterialSource].

(** The statement [check_and_insert] builds: the values for the columns the
    table has, and [ON CONFLICT DO NOTHING] unless [update_on_conflict], in
    which case the filter's columns are the conflict target and the other
    given columns are updated. *)
Definition statement (m : model) (filters values : row)
    (update_on_conflict : bool) : row * on_conflict :=
  let filtered_values := filter (fun kv => mem (fst kv) (columns m)) values in
  let stmt :=
    if update_on_conflict then
      DoUpdate (map fst filters)
               (filter (fun key => negb (mem key (map fst filters)))
                       (map fst filtered_values))
    else DoNothing in
  (filtered_values, stmt).

(** [check_and_insert(session, model, filters, values,
    update_on_conflict=False)]: the statement is executed and committed; an
    [IntegrityError], and any other exception, is answered by a rollback (and
    a log line) and does not leave the function. *)
Definition check_and_insert (m : model) (filters values : row)
    (update_on_conflict : bool) : M unit :=
  try_except
    (execute schema m (fst (statement m filters values update_on_conflict))
                      (snd (statement m filters values update_on_conflict)) ;;;
     commit)
    (fun e =>
       match e with
       | IntegrityError => rollback
       | _ => rollback
       end).

(** *** core/clean_data.py *)

(** The body of the loop of [enforce_data_types]: a [datetime64] column is
    parsed with [errors='coerce'], any other is cast with [astype(dtype,
    errors='ignore')]. *)
Definition enforce_column (X : externals) (column_name : string) (dt : dtype)
    (df : frame) : outcome frame :=
  if in_columns column_name df then
    if dtype_eqb dt datetime64 then
      obind (to_datetime X errors_coerce (column column_name df))
            (fun col => Ret (set_column column_name col df))
    else
      obind (astype X dt errors_ignore (column column_name df))
            (fun col => Ret (set_column column_name col df))
  else Ret df.

(** [enforce_data_types(df, schema)]: the loop over [schema.items()], in a
    [try] that logs and raises again. *)
Definition enforce_data_types (X : externals) (df : frame)
    (schema : list (string * dtype)) : outcome frame :=
  let body :=
    fold_left
      (fun (acc : outcome frame) (item : string * dtype) =>
         obind acc (enforce_column X (fst item) (snd item)))
      schema (Ret df) in
  match body with
  | Ret df' => Ret df'
  | Raise e => Raise e
  end.

(** *** core/data_processing.py *)

Definition prepare_materials (data : frame) : M (list row) :=
  let materials :=
    drop_duplicates (map (select ["material_code"; "material_description"]) data) in
  comprehension
    (fun r =>
       material_id <- uuid4 ;;
       ret [("material_id", material_id);
            ("material_code", get "material_code" r);
            ("material_description", get "material_description" r)])
    materials.

Definition prepare_plants (data : frame) : M (list row) :=
  let plants := drop_duplicates (map (select ["plant"; "plant_name"]) data) in
  comprehension
    (fun r =>
       plant_id <- uuid4 ;;
       ret [("plant_id", plant_id);
            ("plant", get "plant" r);
            ("plant_name", get "plant_name" r)])
    plants.

Definition prepare_vendors (data : frame) : M (list row) :=
  let vendors := drop_duplicates (map (select ["vendor_code"; "vendor_name"]) data) in
  comprehension
    (fun r =>
       vendor_id <- uuid4 ;;
       ret [("vendor_id", vendor_id);
            ("vendor_code", get "vendor_code" r);
            ("vendor_name", get "vendor_name" r)])
    vendors.

Definition prepare_samples (X : externals) (data : frame)
    (materials_map plants_map vendors_map : pydict) : M (list row) :=
  let samples :=
    drop_duplicates
      (map (select ["sample_no"; "material_code"; "plant"; "vendor_code";
                    "inspection_lot"; "batch_no"; "material_doc";
                    "valuation_date"]) data) in
  comprehension
    (fun r =>
       sample_id <- uuid4 ;;
       material_id <- subscript materials_map (get "material_code" r) ;;
       plant_id <- subscript plants_map (get "plant" r) ;;
       vendor_id <- subscript vendors_map (get "vendor_code" r) ;;
       ret [("sample_id", sample_id);
            ("material_id", material_id);
            ("plant_id", plant_id);
            ("vendor_id", vendor_id);
            ("sample_no", VStr (py_str X (get "sample_no" r)));
            ("inspection_lot", get "inspection_lot" r);
            ("batch_no", get "batch_no" r);
            ("material_doc", get "material_doc" r);
            ("valuation_date", get "valuation_date" r)])
    (filter
       (fun r => dict_in (get "material_code" r) materials_map
                 && dict_in (get "plant" r) plants_map
                 && dict_in (get "vendor_code" r) vendors_map)
       samples).

Definition analysis_columns : list string :=
  ["moisture"; "ash"; "protein"; "fat"; "fiber"; "p"; "ca"; "insoluble"; "nacl";
   "ffa"; "ua"; "kohps"; "brix"; "pepsin"; "pepsin0002"; "ndf"; "adf";
   "adl"; "eth"; "t_fat"; "tvn"; "nh3"; "starch"; "iv"; "pv"; "av";
   "totox"; "p_anisidine"; "xanthophyll"; "ac_insol"; "gluten"; "sulfer";
   "sulfate"].

(** The long table [data_filtered]: melted, rows without a value or a
    sample number dropped, the value re-read as a number and the rows where
    it is none dropped. *)
Definition data_filtered (X : externals) (data : frame) : frame :=
  let melted :=
    dropna ["analysis_value"; "sample_no"]
      (melt ["sample_no"; "valuation_date"] analysis_columns
         (map (select (["sample_no"; "valuation_date"] ++ analysis_columns)) data)) in
  let coerced :=
    map (fun r => put "analysis_value"
                    (to_numeric_coerce X (get "analysis_value" r)) r) melted in
  dropna ["analysis_value"] coerced.

Definition prepare_analysis_results (X : externals) (data : frame)
    (samples_map : pydict) : M (list row) :=
  comprehension
    (fun r =>
       result_id <- uuid4 ;;
       sample_id <- subscript samples_map (VStr (py_str X (get "sample_no" r))) ;;
       ret [("result_id", result_id);
            ("sample_id", sample_id);
            ("analysis_parameter", get "analysis_parameter" r);
            ("analysis_value", get "analysis_value" r);
            ("valuation_date", get "valuation_date" r)])
    (filter (fun r => dict_in (VStr (py_str X (get "sample_no" r))) samples_map)
            (data_filtered X data)).

Definition prepare_material_sources (X : externals) (data : frame)
    (samples_map : pydict) : M (list row) :=
  let provenance := ["plant_name"; "producer"; "country"; "original_batch"] in
  let material_sources :=
    dropna ["sample_no"; "valuation_date"]
      (filter
         (fun r => negb (forallb (fun c => is_null (get c r)) provenance))
         (drop_duplicates
            (map (select (["sample_no"; "valuation_date"] ++ provenance)) data))) in
  comprehension
    (fun r =>
       source_id <- uuid4 ;;
       sample_id <- subscript samples_map (VStr (py_str X (get "sample_no" r))) ;;
       ret [("source_id", source_id);
            ("sample_id", sample_id);
            ("plant_origin", get "plant_name" r);
            ("producer", get "producer" r);
            ("country", get "country" r);
            ("original_batch", get "original_batch" r);
            ("valuation_date", get "valuation_date" r)])
    (filter (fun r => dict_in (VStr (py_str X (get "sample_no" r))) samples_map)
            material_sources).

(** The sample map of [insert_to_db]: sample number to sample id, over all
    stored samples. *)
Definition samples_map_of (X : externals) (samples : list row) : pydict :=
  map (fun s => (VStr (py_str X (get "sample_no" s)), get "sample_id" s)) samples.

Definition code_map_of (code id : string) (rows : list row) : pydict :=
  map (fun r => (get code r, get id r)) rows.

Definition insert_to_db (X : externals) (data : frame) : M unit :=
  try_except
    (materials <- prepare_materials data ;;
     for_each
       (fun material =>
          check_and_insert Material
            [("material_code", get "material_code" material)] (vars material) false)
       materials ;;;
     plants <- prepare_plants data ;;
     for_each
       (fun plant =>
          check_and_insert Plant [("plant", get "plant" plant)] (vars plant) false)
       plants ;;;
     vendors <- prepare_vendors data ;;
     for_each
       (fun vendor =>
          check_and_insert Vendor
            [("vendor_code", get "vendor_code" vendor)] (vars vendor) false)
       vendors ;;;
     all_materials <- query_all Material ;;
     all_plants <- query_all Plant ;;
     all_vendors <- query_all Vendor ;;
     let materials_map := code_map_of "material_code" "material_id" all_materials in
     let plants_map := code_map_of "plant" "plant_id" all_plants in
     let vendors_map := code_map_of "vendor_code" "vendor_id" all_vendors in
     samples <- prepare_samples X data materials_map plants_map vendors_map ;;
     for_each
       (fun sample =>
          check_and_insert Sample
            [("sample_no", VStr (py_str X (get "sample_no" sample)));
             ("valuation_date", get "valuation_date" sample)]
            (vars sample) false)
       samples ;;;
     all_samples <- query_all Sample ;;
     let samples_map := samples_map_of X all_samples in
     analysis_results <- prepare_analysis_results X data samples_map ;;
     for_each
       (fun result =>
          check_and_insert AnalysisResult
            [("result_id", get "result_id" result)] (vars result) false)
       analysis_results ;;;
     material_sources <- prepare_material_sources X data samples_map ;;
     for_each
       (fun source =>
          check_and_insert MaterialSource
            [("source_id", get "source_id" source)] (vars source) false)
       material_sources ;;;
     commit)
    (fun e => rollback ;;; raise e).

Definition load_data (path_file : string) : M frame :=
  try_except (read_parquet path_file) (fun e => raise e).

(** *** app/main.py *)

Definition UPLOAD_COMPLETE_FOLDER : string := "./data/temp/upload_complete/".

Record event : Type := {
  is_directory : bool;
  src_path : string
}.

(** [RawDataWatcherHandler.on_created]. *)
Definition on_created (X : externals) (ev : event) : M unit :=
  if is_directory ev then ret tt
  else if endswith ".parquet" (src_path ev) then
    try_except
      (data <- load_data (src_path ev) ;;
       insert_to_db X data ;;;
       let file_name := basename (src_path ev) in
       let completed_path := path_join UPLOAD_COMPLETE_FOLDER file_name in
       shutil_move (src_path ev) completed_path)
      (fun e => ret tt)
  else ret tt.

End RM.

(** ** The finished-product upload service *)
Module FP.

(** *** app/master_data/master_column.py *)

Definition numeric_cols : list string :=
  ["excptcp"; "min_cp"; "diff_cp"; "diff_min"; "moisture"; "ash"; "protein"; "fat";
   "fiber"; "p"; "ca"; "insoluble"; "nacl"; "na"; "k"; "fines"; "durability";
   "t_fat"; "bulk_density"; "aw"; "starch"; "cook"; "l_star"; "a_star"; "b_star";
   "hardness"; "adf"; "adl"; "ndf"].

Definition string_cols : list string :=
  ["inspection_lot"; "sample_no"; "material_old_code"; "material_code";
   "material_description"; "truck_no"; "pallet_no"; "batch_no"; "formula_name";
   "bin_no"; "plant"; "remark"; "validation_code"].

Definition date_cols : list string := ["manufacturing_date"; "validation_date"].

(** *** app/services/data_cleansing.py *)

(** [CleanFile.clean_dataframe]. *)
Definition clean_dataframe (X : externals) (df : frame) : outcome frame :=
  obind
    (ofold
       (fun col df =>
          if in_columns col df then
            obind (to_numeric X errors_coerce (column col df))
                  (fun c => Ret (set_column col (map round_cell c) df))
          else Ret df)
       numeric_cols df)
    (fun df =>
  obind
    (ofold
       (fun col df =>
          if in_columns col df then
            obind (astype X str errors_raise
                     (map (fillna_cell (VStr "")) (column col df)))
                  (fun c => Ret (set_column col c df))
          else Ret df)
       string_cols df)
    (fun df =>
  obind
    (ofold
       (fun col df =>
          obind (to_datetime X errors_coerce (column col df))
                (fun c => Ret (set_column col (map (date_cell X) c) df)))
       date_cols df)
    (fun df =>
  obind
    (if in_columns "pallet_no" df then
       obind (astype X str errors_raise (column "pallet_no" df))
             (fun c => Ret (set_column "pallet_no" c df))
     else Ret df)
    (fun df =>
  if in_columns "load_time" df && in_columns "manufacturing_date" df then
    obind (astype X str errors_raise (column "manufacturing_date" df))
      (fun dates =>
    obind (astype X str errors_raise (column "load_time" df))
      (fun times =>
    obind (to_datetime X errors_coerce
             (map (fun dt => VStr (py_str X (fst dt) ++ " " ++ py_str X (snd dt)))
                  (combine dates times)))
      (fun c => Ret (set_column "load_time" c df))))
  else Ret df)))).

(** *** app/models/fp_anaysis_model.py *)

Definition Material : model := {|
  tablename := "materials";
  columns := ["material_id"; "material_code"; "material_description";
              "material_old_code"];
  primary_key := ["material_id"];
  unique_constraints := [["material_code"]];
  not_nullable := ["material_id"; "material_code"; "material_description"];
  foreign_keys := [];
  uuid_defaults := ["material_id"] |}.

Definition Plants : model := {|
  tablename := "plants";
  columns := ["plant_id"; "plant"; "plant_name"];
  primary_key := ["plant_id"];
  unique_constraints := [["plant"]];
  not_nullable := ["plant_id"; "plant"; "plant_name"];
  foreign_keys := [];
  uuid_defaults := ["plant_id"] |}.

Definition Formula : model := {|
  tablename := "formula";
  columns := ["formula_id"; "formula_name"];
  primary_key := ["formula_id"];
  unique_constraints := [["formula_name"]];
  not_nullable := ["formula_id"; "formula_name"];
  foreign_keys := [];
  uuid_defaults := ["formula_id"] |}.

Definition Samples : model := {|
  tablename := "samples";
  columns := ["sample_id"; "material_id"; "plant_id"; "formula_id"; "sample_no";
              "inspection_lot"; "truck_no"; "pallet_no"; "batch_no";
              "manufacturing_date"; "bin_no"; "load_time"; "validation_code";
              "remark"];
  primary_key := ["sample_id"; "manufacturing_date"];
  unique_constraints := [];
  not_nullable := ["sample_id"; "manufacturing_date"; "material_id"; "plant_id";
                   "formula_id"; "sample_no"; "load_time"];
  foreign_keys := [];
  uuid_defaults := ["sample_id"] |}.

Definition AnalysisResults : model := {|
  tablename := "analysis_results";
  columns := ["result_id"; "sample_id"; "manufacturing_date";
              "analysis_parameter"; "analysis_value"];
  primary_key := ["result_id"];
  unique_constraints := [["sample_id"; "analysis_parameter"; "manufacturing_date"]];
  not_nullable := ["result_id"; "sample_id"; "manufacturing_date";
                   "analysis_parameter"];
  foreign_keys :=
    [ {| fk_cols := ["sample_id"; "manufacturing_date"]; fk_table := "samples";
         fk_refcols := ["sample_id"; "manufacturing_date"] |} ];
  uuid_defaults := ["result_id"] |}.

Definition schema : list model :=
  [Material; Plants; Formula; Samples; AnalysisResults].

(** [{c.name: stmt.excluded[c.name] for c in stmt.excluded if c.name not in
    excluded_names}], as the list of its keys. *)
Definition update_dict (m : model) (excluded_names : list string) : list string :=
  filter (fun c => negb (mem c excluded_names)) (columns m).

(** Python's truth value of a scalar. *)
Definition truthy (v : value) : bool :=
  match v with
  | VNull => false
  | VStr s => negb (String.eqb s "")
  | VNum q => negb (Qeq_bool q (inject_Z 0))
  | _ => true
  end.

(** [session.query(m).filter_by(c=v).first()]. *)
Definition query_first_by (m : model) (c : string) (v : value) : M (option row) :=
  fun w =>
    (Ret (find (fun x => negb (is_null v) && value_eqb (get c x) v)
               (table (tablename m) (working w))), w).

(** The first lines of [Material.upsert]: an old code that a stored
    material with another material code already carries is taken out of the
    keyword arguments. *)
Definition drop_claimed_old_code (kwargs : row) : M row :=
  let m_old := get "material_old_code" kwargs in
  let m_code := get "material_code" kwargs in
  if truthy m_old then
    existing <- query_first_by Material "material_old_code" m_old ;;
    match existing with
    | Some e =>
        if negb (value_eqb (get "material_code" e) m_code)
        then ret (pop "material_old_code" kwargs)
        else ret kwargs
    | None => ret kwargs
    end
  else ret kwargs.

(** [Material.upsert]: on a conflict on [material_code] neither the id nor
    the old code is updated. *)
Definition Material_upsert (kwargs : row) : M unit :=
  kwargs <- drop_claimed_old_code kwargs ;;
  execute schema Material kwargs
    (DoUpdate ["material_code"]
       (update_dict Material ["material_id"; "material_old_code"])) ;;;
  commit.

Definition Plants_upsert (kwargs : row) : M unit :=
  execute schema Plants kwargs
    (DoUpdate ["plant"] (update_dict Plants ["plant_id"])) ;;;
  commit.

Definition Formula_upsert (kwargs : row) : M unit :=
  execute schema Formula kwargs
    (DoUpdate ["formula_name"] (update_dict Formula ["formula_id"])) ;;;
  commit.

Definition Samples_upsert (kwargs : row) : M unit :=
  execute schema Samples kwargs
    (DoUpdate ["sample_id"; "manufacturing_date"]
       (update_dict Samples ["sample_id"; "manufacturing_date"; "created_at"])) ;;;
  commit.

Definition AnalysisResults_upsert (kwargs : row) : M unit :=
  execute schema AnalysisResults kwargs
    (DoUpdate ["sample_id"; "analysis_parameter"; "manufacturing_date"]
       (update_dict AnalysisResults ["result_id"; "created_at"])) ;;;
  commit.

(** A mapped class: its table and its [upsert] class method. *)
Record orm_class : Type := {
  mapped : model;
  upsert : row -> M unit
}.

Definition MaterialC : orm_class :=
  {| mapped := Material; upsert := Material_upsert |}.
Definition PlantsC : orm_class :=
  {| mapped := Plants; upsert := Plants_upsert |}.
Definition FormulaC : orm_class :=
  {| mapped := Formula; upsert := Formula_upsert |}.
Definition SamplesC : orm_class :=
  {| mapped := Samples; upsert := Samples_upsert |}.
Definition AnalysisResultsC : orm_class :=
  {| mapped := AnalysisResults; upsert := AnalysisResults_upsert |}.

(** *** app/services/data_processing.py *)

(** [to_clean_dict(instance)]: every mapped column, [None] where the
    instance has no value. *)
Definition to_clean_dict (c : orm_class) (instance : row) : row :=
  select (columns (mapped c)) instance.

(** [check_and_insert(session, model, unique_filter, data_obj)]: the
    filter is only logged; an exception is logged and raised again. *)
Definition check_and_insert (c : orm_class) (unique_filter data_obj : row)
  : M unit :=
  try_except
    (let data := to_clean_dict c data_obj in
     upsert c data)
    (fun e => raise e).

Definition load_data (path_file : string) : M frame :=
  try_except (read_parquet path_file) (fun e => raise e).

(** [x if x.strip() != "" else None], on a cell of [material_old_code]. *)
Definition blank_to_none (x : value) : M value :=
  match x with
  | VStr s => if negb (String.eqb (strip s) "") then ret x else ret VNull
  | _ => raise AttributeError
  end.

Definition prepare_materials (data : frame) : M (list row) :=
  try_except
    (let materials_df :=
       drop_duplicates
         (map (select ["material_code"; "material_description";
                       "material_old_code"]) data) in
     materials_df <-
       comprehension
         (fun r =>
            v <- blank_to_none (get "material_old_code" r) ;;
            ret (put "material_old_code" v r))
         materials_df ;;
     comprehension
       (fun r =>
          material_id <- uuid4 ;;
          ret [("material_id", material_id);
               ("material_code", get "material_code" r);
               ("material_description", get "material_description" r);
               ("material_old_code", get "material_old_code" r)])
       materials_df)
    (fun e => raise e).

(** [data['plant'].map(master_plants)] on one cell. *)
Definition map_master_plants (X : externals) (v : value) : value :=
  match v with
  | VStr code =>
      match find (fun kv => String.eqb code (fst kv)) (master_plants X) with
      | Some kv => VStr (snd kv)
      | None => VNull
      end
  | _ => VNull
  end.

(** [prepare_plants]: the frame's [plant_name] column is rewritten first
    (in place; no later stage reads it), from the plant table where it
    knows the code. *)
Definition prepare_plants (X : externals) (data : frame) : M (list row) :=
  let data :=
    if negb (in_columns "plant_name" data) then
      map (fun r => put "plant_name"
                      (fillna_cell (VStr "") (map_master_plants X (get "plant" r))) r)
          data
    else
      map (fun r => put "plant_name"
                      (fillna_cell (get "plant_name" r)
                                   (map_master_plants X (get "plant" r))) r)
          data in
  let plants_df := drop_duplicates (map (select ["plant"; "plant_name"]) data) in
  comprehension
    (fun r =>
       plant_id <- uuid4 ;;
       ret [("plant_id", plant_id);
            ("plant", get "plant" r);
            ("plant_name", get "plant_name" r)])
    plants_df.

Definition prepare_formula (data : frame) : M (list row) :=
  if negb (in_columns "formula_name" data) then ret []
  else
    let formulas_df := drop_duplicates (map (select ["formula_name"]) data) in
    comprehension
      (fun r =>
         formula_id <- uuid4 ;;
         ret [("formula_id", formula_id);
              ("formula_name", get "formula_name" r)])
      formulas_df.

Definition prepare_samples (X : externals) (data : frame)
    (materials_map plants_map formulas_map : pydict) : M (list row) :=
  let required_cols :=
    ["sample_no"; "material_code"; "plant"; "formula_name";
     "manufacturing_date"; "load_time"] in
  let samples_df :=
    drop_duplicates
      (map (select (required_cols
                      ++ ["inspection_lot"; "truck_no"; "pallet_no"; "batch_no";
                          "bin_no"; "validation_code"; "remark"])) data) in
  comprehension
    (fun r =>
       sample_id <- uuid4 ;;
       material_id <- subscript materials_map (get "material_code" r) ;;
       plant_id <- subscript plants_map (get "plant" r) ;;
       formula_id <- subscript formulas_map (get "formula_name" r) ;;
       ret [("sample_id", sample_id);
            ("material_id", material_id);
            ("plant_id", plant_id);
            ("formula_id", formula_id);
            ("sample_no", VStr (py_str X (get "sample_no" r)));
            ("inspection_lot", get "inspection_lot" r);
            ("truck_no", get "truck_no" r);
            ("pallet_no", get "pallet_no" r);
            ("batch_no", get "batch_no" r);
            ("manufacturing_date", get "manufacturing_date" r);
            ("bin_no", get "bin_no" r);
            ("load_time", get "load_time" r);
            ("validation_code", get "validation_code" r);
            ("remark", get "remark" r)])
    (filter
       (fun r => dict_in (get "material_code" r) materials_map
                 && dict_in (get "plant" r) plants_map
                 && dict_in (get "formula_name" r) formulas_map)
       samples_df).

Definition data_filtered (X : externals) (data : frame) : frame :=
  let melted :=
    dropna ["analysis_value"; "sample_no"; "manufacturing_date"]
      (melt ["sample_no"; "manufacturing_date"] numeric_cols
         (map (select (["sample_no"; "manufacturing_date"] ++ numeric_cols)) data)) in
  let coerced :=
    map (fun r => put "analysis_value"
                    (to_numeric_coerce X (get "analysis_value" r)) r) melted in
  dropna ["analysis_value"] coerced.

Definition prepare_analysis_results (X : externals) (data : frame)
    (samples_map : pydict) : M (list row) :=
  comprehension
    (fun r =>
       result_id <- uuid4 ;;
       sample_id <- subscript samples_map (VStr (py_str X (get "sample_no" r))) ;;
       ret [("result_id", result_id);
            ("sample_id", sample_id);
            ("manufacturing_date", get "manufacturing_date" r);
            ("analysis_parameter", get "analysis_parameter" r);
            ("analysis_value", get "analysis_value" r)])
    (filter (fun r => dict_in (VStr (py_str X (get "sample_no" r))) samples_map)
            (data_filtered X data)).

Definition samples_map_of (X : externals) (samples : list row) : pydict :=
  map (fun s => (VStr (py_str X (get "sample_no" s)), get "sample_id" s)) samples.

Definition code_map_of (code id : string) (rows : list row) : pydict :=
  map (fun r => (get code r, get id r)) rows.

(** [session = next(get_db())]: a new session sees the committed store. *)
Definition get_db : M unit := rollback.

Definition update_to_db (X : externals) (data : frame) : M unit :=
  get_db ;;;
  try_finally
    (try_except
       (materials <- prepare_materials data ;;
        for_each
          (fun material =>
             check_and_insert MaterialC
               [("material_code", get "material_code" material)] material)
          materials ;;;
        plants <- prepare_plants X data ;;
        for_each
          (fun plant =>
             check_and_insert PlantsC [("plant", get "plant" plant)] plant)
          plants ;;;
        all_materials <- query_all Material ;;
        all_plants <- query_all Plants ;;
        let materials_map := code_map_of "material_code" "material_id" all_materials in
        let plants_map := code_map_of "plant" "plant_id" all_plants in
        formulas <- prepare_formula data ;;
        for_each
          (fun formula =>
             check_and_insert FormulaC
               [("formula_name", get "formula_name" formula)] formula)
          formulas ;;;
        all_formulas <- query_all Formula ;;
        let formulas_map := code_map_of "formula_name" "formula_id" all_formulas in
        samples <- prepare_samples X data materials_map plants_map formulas_map ;;
        for_each
          (fun sample =>
             check_and_insert SamplesC
               [("sample_no", VStr (py_str X (get "sample_no" sample)));
                ("manufacturing_date", get "manufacturing_date" sample)]
               sample)
          samples ;;;
        all_samples <- query_all Samples ;;
        analysis_results <-
          prepare_analysis_results X data (samples_map_of X all_samples) ;;
        for_each
          (fun result =>
             check_and_insert AnalysisResultsC
               [("sample_id", get "sample_id" result);
                ("analysis_parameter", get "analysis_parameter" result);
                ("manufacturing_date", get "manufacturing_date" result)]
               result)
          analysis_results ;;;
        commit)
       (fun e => rollback ;;; raise e))
    close.

(** [os.listdir(folder)]. *)
Definition listdir (folder : string) : M (list string) :=
  fun w =>
    (Ret (map basename
            (filter (fun p => String.eqb (path_join folder (basename p)) p)
                    (map fst (files w)))), w).

Definition process_all_files (X : externals) (folder_path complete_folder : string)
  : M unit :=
  filenames <- listdir folder_path ;;
  for_each
    (fun filename =>
       if endswith ".parquet" (lower filename) then
         let file_path := path_join folder_path filename in
         try_except
           (data <- load_data file_path ;;
            update_to_db X data ;;;
            let dest_path := path_join complete_folder filename in
            shutil_move file_path dest_path)
           (fun e => ret tt)
       else ret tt)
    filenames.

End FP.

(** ** A concrete environment, for the examples *)

Definition digit (a : ascii) : option Z :=
  let n := nat_of_ascii a in
  if ((48 <=? n) && (n <=? 57))%nat then Some (Z.of_nat (n - 48)) else None.

Fixpoint parse_fraction (s : string) (num : Z) (den : positive) : option Q :=
  match s with
  | EmptyString => Some (Qmake num den)
  | String a t =>
      match digit a with
      | Some d => parse_fraction t (num * 10 + d)%Z (den * 10)%positive
      | None => None
      end
  end.

Fixpoint parse_integer (s : string) (num : Z) (seen : bool) : option Q :=
  match s with
  | EmptyString => if seen then Some (Qmake num 1) else None
  | String a t =>
      if Ascii.eqb a "."%char then
        if seen then parse_fraction t num 1 else None
      else
        match digit a with
        | Some d => parse_integer t (num * 10 + d)%Z true
        | None => None
        end
  end.

(** Plain decimal literals, [-12.5] and the like: the part of the float
    syntax the examples use. *)
Definition parse_decimal (s : string) : option Q :=
  match s with
  | String "-"%char t => option_map Qopp (parse_integer t 0 false)
  | _ => parse_integer s 0 false
  end.

(** Dates are day numbers, a null prints as [nan], and one plant is known. *)
Definition demo : externals := {|
  parse_float := parse_decimal;
  parse_datetime := fun v => match v with VDate d => Some d | _ => None end;
  py_repr := fun _ => "nan";
  dt_date := fun d => d;
  master_plants := [("1010", "Feed mill 1")]
|}.

Definition empty_world : world := mkWorld [] [] 0 [].

(** ** Vocabulary of the statements *)

(** A computation that returns, from every world. *)
Definition succeeds {A : Type} (c : M A) : Prop :=
  forall w, exists a w', c w = (Ret a, w').

(** The number of rows of each table. *)
Definition row_counts (d : db) : list (string * nat) :=
  map (fun t => (fst t, List.length (snd t))) d.

(** The columns of [m] that a key rests on: those of its unique indexes, of
    its foreign keys, and those a foreign key of the schema points at. *)
Definition key_columns (schema : list model) (m : model) : list string :=
  concat (unique_indexes m)
  ++ flat_map fk_cols (foreign_keys m)
  ++ flat_map
       (fun m' =>
          flat_map
            (fun fk => if String.eqb (fk_table fk) (tablename m)
                       then fk_refcols fk else [])
            (foreign_keys m'))
       schema.

(** An update of [cols] on a conflict on [idx] touches a key column only
    when it is part of the conflict target, where it writes the value the
    column already has. *)
Definition keeps_keys (schema : list model) (m : model)
    (idx cols : list string) : bool :=
  forallb (fun c => negb (mem c cols) || mem c idx) (key_columns schema m).

(** The mapped classes of the finished-product service. *)
Definition fp_classes : list FP.orm_class :=
  [FP.MaterialC; FP.PlantsC; FP.FormulaC; FP.SamplesC; FP.AnalysisResultsC].

(** The write loop of a phase, [for r in rows: check_and_insert(...)], in
    each service. *)
Definition fp_phase (c : FP.orm_class) (key : row -> row) (rows : list row)
  : M unit :=
  for_each (fun r => FP.check_and_insert c (key r) r) rows.

Definition rm_phase (m : model) (key : row -> row) (rows : list row) : M unit :=
  for_each (fun r => RM.check_and_insert m (key r) (vars r) false) rows.









(** ** Concrete stores, rows and frames for the examples *)

Definition num (n : Z) (d : positive) : value := VNum (Qmake n d).

Definition store_world (d : db) : world := mkWorld d d 100 [].

Definition world_with_file (path : string) (data : frame) : world :=
  mkWorld [] [] 0 [(path, data)].

(** *** Stored rows *)

Definition fp_material (id : nat) (code desc : string) (old : value) : row :=
  [("material_id", VUuid id); ("material_code", VStr code);
   ("material_description", VStr desc); ("material_old_code", old)].

Definition fp_plant (id : nat) (code name : string) : row :=
  [("plant_id", VUuid id); ("plant", VStr code); ("plant_name", VStr name)].

Definition rm_material (id : nat) (code desc : string) : row :=
  [("material_id", VUuid id); ("material_code", VStr code);
   ("material_description", VStr desc)].

Definition rm_sample (id material plant vendor : nat) (sample_no : string)
    (date : Z) : row :=
  [("sample_id", VUuid id); ("material_id", VUuid material);
   ("plant_id", VUuid plant); ("vendor_id", VUuid vendor);
   ("sample_no", VStr sample_no); ("inspection_lot", VNull);
   ("valuation_date", VDate date); ("batch_no", VNull);
   ("material_doc", VNull)].

Definition rm_result (id sample : nat) (parameter : string) (v : value)
    (date : Z) : row :=
  [("result_id", VUuid id); ("sample_id", VUuid sample);
   ("analysis_parameter", VStr parameter); ("analysis_value", v);
   ("valuation_date", VDate date)].

(** A material whose description is missing: the store refuses it. *)
Definition fp_material_undescribed (id : nat) (code : string) : row :=
  [("material_id", VUuid id); ("material_code", VStr code);
   ("material_description", VNull); ("material_old_code", VNull)].

Definition rm_material_undescribed (id : nat) (code : string) : row :=
  [("material_id", VUuid id); ("material_code", VStr code);
   ("material_description", VNull)].

Definition by_material_code (r : row) : row :=
  [("material_code", get "material_code" r)].

(** *** Stores *)

(** Material A carries old code X; material B is not on file. *)
Definition fp_store_A : db :=
  [("materials", [fp_material 0 "A" "premix" (VStr "X")])].

(** Material A carries old code X, material B old code Y. *)
Definition fp_store_AB : db :=
  [("materials", [fp_material 0 "A" "premix" (VStr "X");
                  fp_material 1 "B" "bran" (VStr "Y")])].

Definition fp_store_plants : db :=
  [("materials", [fp_material 0 "A" "premix" VNull]);
   ("plants", [fp_plant 1 "1010" "Mill"])].

Definition rm_store_M1 : db :=
  [("materials", [rm_material 0 "M1" "maize"])].

(** *** Frames and files *)

(** A finished-product frame row and a raw-material frame row. *)
Definition fp_row (sample_no material desc date moisture : value) : row :=
  [("sample_no", sample_no); ("material_code", material);
   ("material_description", desc); ("material_old_code", VStr "");
   ("plant", VStr "1010"); ("formula_name", VStr "F1");
   ("manufacturing_date", date); ("load_time", date);
   ("moisture", moisture)].

Definition rm_row (sample_no material desc date moisture ash producer : value)
  : row :=
  [("sample_no", sample_no); ("material_code", material);
   ("material_description", desc); ("plant", VStr "P1");
   ("plant_name", VStr "Plant 1"); ("vendor_code", VStr "V1");
   ("vendor_name", VStr "Vendor 1"); ("valuation_date", date);
   ("moisture", moisture); ("ash", ash);
   ("producer", producer); ("country", VStr "TH")].

(** One sample, with its source. *)
Definition rm_frame_one_sample : frame :=
  [rm_row (VStr "S1") (VStr "M1") (VStr "maize") (VDate 1)
          (num 125 10) (num 3 1) (VStr "Acme")].

Definition fp_frame_one_sample : frame :=
  [fp_row (VStr "S1") (VStr "M1") (VStr "premix") (VDate 1) (num 125 10)].

(** Two samples of two materials; the second material has no description. *)
Definition fp_frame_second_material_undescribed : frame :=
  [fp_row (VStr "S1") (VStr "M1") (VStr "premix") (VDate 1) (num 125 10);
   fp_row (VStr "S2") (VStr "M2") VNull (VDate 1) (num 118 10)].



(** The sample number S1 on two dates, same material. *)
Definition rm_frame_same_number_two_dates : frame :=
  [rm_row (VStr "S1") (VStr "M1") (VStr "maize") (VDate 1)
          (num 125 10) VNull VNull;
   rm_row (VStr "S1") (VStr "M1") (VStr "maize") (VDate 2)
          (num 118 10) VNull VNull].

Definition fp_frame_same_number_two_dates : frame :=
  [fp_row (VStr "S1") (VStr "M1") (VStr "premix") (VDate 1) (num 125 10);
   fp_row (VStr "S1") (VStr "M1") (VStr "premix") (VDate 2) (num 118 10)].

(** The sample number S1 on two dates; the second row names a material, M9,
    that does not get on file (it has no description). *)
Definition rm_frame_second_material_unresolved : frame :=
  [rm_row (VStr "S1") (VStr "M1") (VStr "maize") (VDate 1)
          (num 125 10) VNull VNull;
   rm_row (VStr "S1") (VStr "M9") VNull (VDate 2)
          (num 118 10) VNull VNull].






Definition fp_clean_folder : string := "./data/clean_file".
Definition fp_complete_folder : string := "./data/upload_complete".
Definition fp_clean_file : string := "./data/clean_file/lab.parquet".
Definition fp_complete_file : string := "./data/upload_complete/lab.parquet".

(** ** Vocabulary of the store invariants *)

(** The session holds nothing that is not committed. *)
Definition clean (w : world) : Prop := working w = committed w.


(** The primary keys of the stored rows of [m], in table order. *)
Definition stored_ids (m : model) (d : db) : list (list value) :=
  map (key_of (primary_key m)) (table (tablename m) d).

(** No row of a table of the schema is gone from [d'], and none has
    another primary key than in [d]. *)
Definition keeps_ids (schema : list model) (d d' : db) : Prop :=
  forall m, In m schema ->
    exists extra, stored_ids m d' = stored_ids m d ++ extra.

(** A computation that keeps the condition [I] on the world and moves the
    world along the relation [P], whether it returns or raises. *)
Definition preserves {A : Type} (I : world -> Prop) (P : world -> world -> Prop)
    (c : M A) : Prop :=
  forall w, I w -> I (snd (c w)) /\ P w (snd (c w)).

(** A computation that leaves a clean session clean and moves the committed
    store along the relation [R]. *)
Definition grows {A : Type} (R : db -> db -> Prop) (c : M A) : Prop :=
  preserves clean (fun w w' => R (committed w) (committed w')) c.

(** A computation that leaves the files where they are. *)
Definition keeps_files {A : Type} (c : M A) : Prop :=
  preserves (fun _ => True) (fun w w' => files w' = files w) c.

(** A computation that does not touch the world. *)
Definition reads_only {A : Type} (c : M A) : Prop :=
  forall w, snd (c w) = w.

(** ** Vocabulary of the prepare steps *)

(** A cell that holds text. *)
Definition is_text (v : value) : bool :=
  match v with
  | VStr _ => true
  | _ => false
  end.

(** A text that is not blank. *)
Definition not_blank (v : value) : Prop :=
  exists s, v = VStr s /\ strip s <> "".

(** ** The cleaning step of the raw-material service *)
Module CleanData.

(** *** core/clean_data.py

    [load_json] reads a JSON object and answers [{}] when it cannot: the
    functions below take the object it returned, as the list of its items
    (a key is listed once). *)

(** [s.replace(c, '')] for a one-character [c]. *)
Fixpoint remove_char (c : ascii) (s : string) : string :=
  match s with
  | EmptyString => EmptyString
  | String a t =>
      if Ascii.eqb a c then remove_char c t else String a (remove_char c t)
  end.

(** Every column name of the frame goes through [f]: an assignment to
    [df.columns], or [df.rename(columns=...)]. *)
Definition map_columns (f : string -> string) (df : frame) : frame :=
  map (map (fun kv => (f (fst kv), snd kv))) df.

(** The name [rename] gives a column: the mapping's, or its own. *)
Definition renamed (column_mapping : list (string * string)) (c : string)
  : string :=
  match find (fun kv => String.eqb c (fst kv)) column_mapping with
  | Some kv => snd kv
  | None => c
  end.

(** [df.drop(columns=cs, errors='ignore')]. *)
Definition drop (cs : list string) (df : frame) : frame :=
  map (filter (fun kv => negb (mem (fst kv) cs))) df.

Definition rename_columns (df : frame) (column_mapping : list (string * string))
  : outcome frame :=
  let df := map_columns (fun c => remove_char "010"%char (strip c)) df in
  let df := map_columns (renamed column_mapping) df in
  let unwanted_columns := ["CONCATENATE"; "Operation short text"] in
  let df := drop (filter (fun col => in_columns col df) unwanted_columns) df in
  Ret df.

(** [col.str.replace(c, '', regex=False)] on one cell. *)
Definition replace_cell (c : ascii) (v : value) : value :=
  match v with
  | VStr s => VStr (remove_char c s)
  | _ => v
  end.

Definition clean_text_column (X : externals) (df : frame) (text_column : string)
  : outcome frame :=
  if in_columns text_column df then
    obind (astype X str errors_raise (column text_column df))
      (fun col =>
         let df := set_column text_column col df in
         let df :=
           set_column text_column
             (map (replace_cell "'"%char) (column text_column df)) df in
         let df :=
           set_column text_column
             (map (replace_cell (ascii_of_nat 34)) (column text_column df)) df in
         Ret df)
  else Ret df.

(** [df[column] = None]. *)
Definition add_column (column_name : string) (df : frame) : frame :=
  set_column column_name (map (fun _ => VNull) df) df.

Definition add_missing_columns (df : frame) (required_columns : list string)
  : outcome frame :=
  Ret (fold_left
         (fun df column_name =>
            if negb (in_columns column_name df) then add_column column_name df
            else df)
         required_columns df).

(** [pd.to_datetime(col, dayfirst=True, errors='coerce')]: the parser that
    reads the day first is another one than the externals' own. *)
Definition with_dayfirst (X : externals) (dayfirst : value -> option Z)
  : externals :=
  {| parse_float := parse_float X;
     parse_datetime := dayfirst;
     py_repr := py_repr X;
     dt_date := dt_date X;
     master_plants := master_plants X |}.

Definition clean_date_column (X : externals) (dayfirst : value -> option Z)
    (df : frame) (date_column : string) : outcome frame :=
  if in_columns date_column df then
    obind (to_datetime (with_dayfirst X dayfirst) errors_coerce
             (column date_column df))
          (fun col => Ret (set_column date_column col df))
  else Ret df.

(** [os.path.splitext(filename)[0]] on a base name: the name up to its
    last dot; the dots a name begins with do not count. *)
Fixpoint leading_dots (s : string) : string * string :=
  match s with
  | String a t =>
      if Ascii.eqb a "."%char then
        (String a (fst (leading_dots t)), snd (leading_dots t))
      else (EmptyString, s)
  | EmptyString => (EmptyString, s)
  end.

Fixpoint before_last_dot (s : string) : option string :=
  match s with
  | EmptyString => None
  | String a t =>
      match before_last_dot t with
      | Some u => Some (String a u)
      | None => if Ascii.eqb a "."%char then Some EmptyString else None
      end
  end.

Definition splitext_stem (filename : string) : string :=
  match before_last_dot (snd (leading_dots filename)) with
  | Some u => fst (leading_dots filename) ++ u
  | None => filename
  end.

(** [df.to_parquet(path, index=False)]: the file is written, in place of
    what was at the path. *)
Definition to_parquet (path : string) (df : frame) : M unit :=
  fun w =>
    (Ret tt,
     mkWorld (committed w) (working w) (uuid_next w)
       (filter (fun g => negb (String.eqb path (fst g))) (files w)
        ++ [(path, df)])).

Definition export_to_parquet (df : frame) (output_folder filename : string)
  : M unit :=
  try_except
    (let output_filepath :=
       path_join output_folder (splitext_stem filename ++ ".parquet") in
     to_parquet output_filepath df)
    (fun e => raise e).

(** A step on frames, run where the world is threaded. *)
Definition step {A : Type} (o : outcome A) : M A := fun w => (o, w).

Definition is_empty {A : Type} (items : list A) : bool :=
  match items with
  | [] => true
  | _ => false
  end.

(** [clean_and_process_files]: [column_mapping] and [schema] are what
    [load_json] gave for the two paths. *)
Definition clean_and_process_files (X : externals)
    (dayfirst : value -> option Z) (input_folder output_folder : string)
    (column_mapping : list (string * string)) (schema : list (string * dtype))
    (date_column : string) : M unit :=
  try_except
    (if is_empty column_mapping || is_empty schema then ret tt
     else
       let required_columns := map snd column_mapping in
       filenames <- FP.listdir input_folder ;;
       for_each
         (fun filename =>
            if endswith ".parquet" filename then
              let filepath := path_join input_folder filename in
              try_except
                (df <- read_parquet filepath ;;
                 df <- step (rename_columns df column_mapping) ;;
                 df <- step (add_missing_columns df required_columns) ;;
                 df <- step (clean_date_column X dayfirst df date_column) ;;
                 df <- step (RM.enforce_data_types X df schema) ;;
                 export_to_parquet df output_folder filename)
                (fun e => ret tt)
            else ret tt)
         filenames)
    (fun e => raise e).

End CleanData.

(** ** The buffer watcher of the raw-material service *)
Module Main.

(** *** app/main.py *)

Definition RAW_DATA_FOLDER : string := "./data/temp/raw_data/".
Definition BUFFER_DATA_FOLDER : string := "./data/temp/buffer_data/".

Fixpoint startswith (prefix s : string) : bool :=
  match prefix, s with
  | EmptyString, _ => true
  | String a p, String b t => Ascii.eqb a b && startswith p t
  | String _ _, EmptyString => false
  end.

(** The retry loop of [BufferWatcherHandler.on_created], over the passes
    [range(retries)] still to make.  A pass cleans the buffer folder and
    moves the workbook; [locked k] tells whether the operating system
    refuses the move at pass [k], the writer still holding the file: the
    [PermissionError] the loop waits and goes on after.  Any other
    exception leaves the loop; when the passes are used up the loop ends
    (and logs). *)
Fixpoint retry_loop (X : externals) (dayfirst : value -> option Z)
    (column_mapping : list (string * string)) (schema : list (string * dtype))
    (locked : nat -> bool) (src_path : string) (passes : list nat) : M unit :=
  match passes with
  | [] => ret tt
  | attempt :: rest =>
      fun w =>
        match CleanData.clean_and_process_files X dayfirst BUFFER_DATA_FOLDER
                RAW_DATA_FOLDER column_mapping schema "DATE" w with
        | (Ret _, w1) =>
            if locked attempt then
              retry_loop X dayfirst column_mapping schema locked src_path rest w1
            else
              shutil_move src_path
                (path_join RM.UPLOAD_COMPLETE_FOLDER (basename src_path)) w1
        | (Raise e, w1) => (Raise e, w1)
        end
  end.

(** [BufferWatcherHandler.on_created]. *)
Definition on_created (X : externals) (dayfirst : value -> option Z)
    (column_mapping : list (string * string)) (schema : list (string * dtype))
    (locked : nat -> bool) (ev : RM.event) : M unit :=
  if RM.is_directory ev then ret tt
  else if endswith ".xlsx" (RM.src_path ev) then
    if startswith "~$" (basename (RM.src_path ev)) then ret tt
    else
      try_except
        (let retries := 5%nat in
         retry_loop X dayfirst column_mapping schema locked (RM.src_path ev)
           (seq 0 retries))
        (fun e => ret tt)
  else ret tt.

End Main.

(** ** The cleaning step of the finished-product service *)
Module DataCleansing.

(** *** app/master_data/master_column.py *)

Definition active_columns : list string :=
  ["Inspection Lot"; "Sample no"; "Old Code";
   "Material Code"; "Material Description"; "Truck no."; "Pallet No.";
   "Batch No."; "Formula"; "Date"; "EXCPTCP"; "MIN CP"; "DIFF CP";
   "DIFF MIN"; "MOIS"; "ASH"; "PROTEIN"; "FAT"; "FIBER"; "P"; "Ca";
   "INSOL"; "NaCl"; "Na"; "K"; "Fines"; "Durability"; "T_FAT";
   "Bulk density"; "Aw"; "Starch"; "% cook"; "L*"; "a*"; "b*"; "Hardness";
   "ADF"; "ADL"; "NDF"; "ถัง"; "Load Time"; "Plant"; "Remark";
   "Validation Code"; "Valuation Date"].

Definition new_column : list string :=
  ["inspection_lot"; "sample_no"; "material_old_code";
   "material_code"; "material_description"; "truck_no"; "pallet_no";
   "batch_no"; "formula_name"; "manufacturing_date"; "excptcp"; "min_cp";
   "diff_cp";
   "diff_min"; "moisture"; "ash"; "protein"; "fat"; "fiber"; "p"; "ca";
   "insoluble"; "nacl"; "na"; "k"; "fines"; "durability"; "t_fat";
   "bulk_density"; "aw"; "starch"; "cook"; "l_star"; "a_star"; "b_star";
   "hardness";
   "adf"; "adl"; "ndf"; "bin_no"; "load_time"; "plant"; "remark";
   "validation_code"; "validation_date"].

(** *** app/services/data_cleansing.py *)

Definition raw_folder : string := "./data/raw/".
Definition output_folder : string := "./data/clean_file/".
Definition complete_folder : string := "./data/complete_file/".

(** [pd.read_excel(path_file, sheet_name=sheet_name)]: a workbook of the
    world is the frame of the sheet the caller names. *)
Definition read_excel (path_file sheet_name : string) : M frame :=
  read_parquet path_file.

(** [CleanFile.load_data]: the active columns the sheet lacks are added,
    filled with [None], and the active columns are selected, in their
    order. *)
Definition load_data (path_file sheet_name : string) : M frame :=
  df <- read_excel path_file sheet_name ;;
  let missing_cols :=
    filter (fun col => negb (in_columns col df)) active_columns in
  let df := fold_left (fun df col => CleanData.add_column col df) missing_cols df in
  ret (map (select active_columns) df).

(** [CleanFile.rename_columns]. *)
Definition rename_columns (df : frame) : frame :=
  let mapping := combine active_columns new_column in
  CleanData.map_columns (CleanData.renamed mapping) df.

(** [CleanFile.pipeline]: the cleaned frame, or [None] when a step
    raised. *)
Definition pipeline (X : externals) (path_file sheet_name : string)
  : M (option frame) :=
  try_except
    (df <- load_data path_file sheet_name ;;
     let df := rename_columns df in
     df <- CleanData.step (FP.clean_dataframe X df) ;;
     ret (Some df))
    (fun e => ret None).

End DataCleansing.

(** ** Vocabulary of the cleaning steps *)

(** A frame whose rows all have the columns of the first one, in the same
    order: what a pandas frame is by construction. *)
Definition rectangular (df : frame) : bool :=
  match df with
  | [] => true
  | r :: t => forallb (fun x => list_eqb String.eqb (map fst x) (map fst r)) t
  end.

(** Each row of [df'] comes from a row of [df] that has no column the new
    row lacks. *)
Definition rows_from (df df' : frame) : Prop :=
  forall r', In r' df' ->
    exists r, In r df /\ forall c, has_key c r = true -> has_key c r' = true.

(** The rows of the frame have the same columns, in the same order. *)
Definition same_keys (df : frame) : Prop :=
  forall r r', In r df -> In r' df -> map fst r = map fst r'.

(** The store and the counter are what they were, and no file is gone. *)
Definition only_adds_files (w w' : world) : Prop :=
  committed w' = committed w
  /\ working w' = working w
  /\ uuid_next w' = uuid_next w
  /\ forall p, exists_file p w = true -> exists_file p w' = true.

(** The file at [path], if there is one. *)
Definition file_at (path : string) (w : world) : option frame :=
  option_map snd (find (fun f => String.eqb path (fst f)) (files w)).


(** A frame of [n] rows whose rows have the columns [K], in this order,
    and hold text in the columns [T]. *)
Definition well_formed (K T : list string) (n : nat) (df : frame) : Prop :=
  List.length df = n
  /\ (forall r, In r df -> map fst r = K)
  /\ (forall c r, In c T -> In r df -> is_text (get c r) = true).

(** The character [c] occurs in the text. *)
Fixpoint contains (c : ascii) (s : string) : bool :=
  match s with
  | EmptyString => false
  | String a t => Ascii.eqb a c || contains c t
  end.

(** A text without a single or a double quote. *)
Definition unquoted (v : value) : Prop :=
  exists s, v = VStr s
            /\ contains "'"%char s = false
            /\ contains (ascii_of_nat 34) s = false.

(** * Properties *)

(** ** Values, rows and tables *)

Lemma value_eqb_refl (v : value) : value_eqb v v = true.
Proof.
  destruct v; simpl; auto.
  - apply String.eqb_refl.
  - apply Qeq_bool_iff. reflexivity.
  - apply Z.eqb_refl.
  - apply Nat.eqb_refl.
Qed.

Lemma value_eqb_sym (a b : value) : value_eqb a b = value_eqb b a.
Proof.
  destruct a, b; simpl; auto.
  - apply String.eqb_sym.
  - destruct (Qeq_bool q q0) eqn:E, (Qeq_bool q0 q) eqn:F; auto.
    + apply Qeq_bool_iff in E. symmetry in E. apply Qeq_bool_iff in E. congruence.
    + apply Qeq_bool_iff in F. symmetry in F. apply Qeq_bool_iff in F. congruence.
  - apply Z.eqb_sym.
  - apply Nat.eqb_sym.
Qed.

Lemma value_eqb_trans (a b c : value) :
  value_eqb a b = true -> value_eqb b c = true -> value_eqb a c = true.
Proof.
  destruct a, b, c; simpl; try discriminate; auto.
  - intros H1 H2. apply String.eqb_eq in H1, H2. subst. apply String.eqb_refl.
  - intros H1 H2. apply Qeq_bool_iff in H1, H2. apply Qeq_bool_iff.
    now rewrite H1.
  - intros H1 H2. apply Z.eqb_eq in H1, H2. subst. apply Z.eqb_refl.
  - intros H1 H2. apply Nat.eqb_eq in H1, H2. subst. apply Nat.eqb_refl.
Qed.

Lemma list_value_eqb_refl (l : list value) : list_eqb value_eqb l l = true.
Proof.
  induction l; simpl; auto. now rewrite value_eqb_refl.
Qed.

Lemma table_set_table (t : string) (rows : list row) (d : db) :
  table t (set_table t rows d) = rows.
Proof.
  induction d as [|[n old] rest IH]; simpl.
  - now rewrite String.eqb_refl.
  - destruct (String.eqb t n) eqn:E; simpl; rewrite E; auto.
Qed.

Lemma table_set_table_other (t u : string) (rows : list row) (d : db) :
  String.eqb u t = false -> table u (set_table t rows d) = table u d.
Proof.
  intros Hne. induction d as [|[n old] rest IH]; simpl.
  - now rewrite Hne.
  - destruct (String.eqb t n) eqn:E; simpl.
    + apply String.eqb_eq in E. subst n. now rewrite Hne.
    + destruct (String.eqb u n); auto.
Qed.

(** ** Computations that return *)

Lemma succeeds_ret {A : Type} (a : A) : succeeds (ret a).
Proof. intros w. now exists a, w. Qed.

Lemma succeeds_bind {A B : Type} (c : M A) (k : A -> M B) :
  succeeds c -> (forall a, succeeds (k a)) -> succeeds (bind c k).
Proof.
  intros Hc Hk w. unfold bind.
  destruct (Hc w) as (a & w1 & E). rewrite E. apply Hk.
Qed.

Lemma succeeds_for_each {A : Type} (f : A -> M unit) (xs : list A) :
  (forall x, succeeds (f x)) -> succeeds (for_each f xs).
Proof.
  intros Hf. induction xs as [|x t IH]; simpl.
  - apply succeeds_ret.
  - apply succeeds_bind; auto.
Qed.

Lemma succeeds_comprehension {A B : Type} (f : A -> M B) (xs : list A) :
  (forall x, In x xs -> succeeds (f x)) -> succeeds (comprehension f xs).
Proof.
  induction xs as [|x t IH]; simpl; intros Hf.
  - apply succeeds_ret.
  - apply succeeds_bind; [apply Hf; now left|].
    intros y. apply succeeds_bind; [apply IH; intros; apply Hf; now right|].
    intros ys. apply succeeds_ret.
Qed.

Lemma succeeds_try_except {A : Type} (body : M A) (h : exn -> M A) :
  succeeds body -> succeeds (try_except body h).
Proof.
  intros Hb w. unfold try_except.
  destruct (Hb w) as (a & w1 & E). rewrite E. now exists a, w1.
Qed.

Lemma succeeds_uuid4 : succeeds uuid4.
Proof. intros w. unfold uuid4. eauto. Qed.

Lemma succeeds_commit : succeeds commit.
Proof. intros w. unfold commit. eauto. Qed.

Lemma succeeds_query_all (m : model) : succeeds (query_all m).
Proof. intros w. unfold query_all. eauto. Qed.


Lemma succeeds_unit (c : M unit) (w : world) : succeeds c -> fst (c w) = Ret tt.
Proof.
  intros H. destruct (H w) as ([] & w' & E). now rewrite E.
Qed.

(** ** The raw-material service never sees a store error *)

Lemma RM_check_and_insert_cases (m : model) (filters values : row) (u : bool)
    (w : world) :
  let st := RM.statement m filters values u in
  match execute RM.schema m (fst st) (snd st) w with
  | (Ret _, w1) =>
      RM.check_and_insert m filters values u w
      = (Ret tt, mkWorld (working w1) (working w1) (uuid_next w1) (files w1))
  | (Raise _, w1) =>
      RM.check_and_insert m filters values u w
      = (Ret tt, mkWorld (committed w1) (committed w1) (uuid_next w1) (files w1))
  end.
Proof.
  simpl. unfold RM.check_and_insert, try_except, bind.
  destruct (execute RM.schema m _ _ w) as [[a|e] w1]; simpl.
  - reflexivity.
  - destruct e; reflexivity.
Qed.

Lemma succeeds_RM_check_and_insert (m : model) (filters values : row) (u : bool) :
  succeeds (RM.check_and_insert m filters values u).
Proof.
  intros w. pose proof (RM_check_and_insert_cases m filters values u w) as H.
  simpl in H. destruct (execute RM.schema m _ _ w) as [[a|e] w1]; eauto.
Qed.

(** A failed statement leaves the world as it was, but for the identifiers
    a default may have drawn. *)
Lemma fill_defaults_store (cs : list string) (vals : row) (w : world) :
  exists vals' n,
    fill_defaults cs vals w
    = (Ret vals', mkWorld (committed w) (working w) n (files w)).
Proof.
  revert vals w. induction cs as [|c t IH]; intros vals w; simpl.
  - exists vals, (uuid_next w). unfold ret. now destruct w.
  - destruct (has_key c vals); [apply IH|].
    unfold bind, uuid4. simpl.
    destruct (IH (vals ++ [(c, VUuid (uuid_next w))])
                 (mkWorld (committed w) (working w) (S (uuid_next w)) (files w)))
      as (v' & n & E).
    rewrite E. simpl. eauto.
Qed.

Lemma execute_raise_store (schema : list model) (m : model) (vals : row)
    (oc : on_conflict) (w w1 : world) (e : exn) :
  execute schema m vals oc w = (Raise e, w1) ->
  committed w1 = committed w /\ working w1 = working w /\ files w1 = files w.
Proof.
  unfold execute, bind.
  destruct (fill_defaults_store (uuid_defaults m) vals w) as (v' & n & E).
  rewrite E. simpl.
  destruct (pg_insert schema m v' oc (working w)); intros H; inversion H; subst.
  simpl. auto.
Qed.


Ltac returns :=
  repeat first
    [ apply succeeds_ret | apply succeeds_uuid4 | apply succeeds_commit
    | apply succeeds_query_all | apply succeeds_RM_check_and_insert
    | apply succeeds_try_except
    | apply succeeds_for_each; intros
    | apply succeeds_bind; [|intros] ].









(** ** Rows *)

Lemma mem_In (c : string) (cs : list string) : mem c cs = true <-> In c cs.
Proof.
  unfold mem. rewrite existsb_exists. split.
  - intros (x & Hx & E). apply String.eqb_eq in E. now subst.
  - intros H. exists c. split; auto. apply String.eqb_refl.
Qed.

Lemma get_select (cs : list string) (c : string) (r : row) :
  get c (select cs r) = if mem c cs then get c r else VNull.
Proof.
  unfold select, mem. induction cs as [|k t IH]; simpl; auto.
  destruct (String.eqb c k) eqn:E; simpl; auto.
  apply String.eqb_eq in E. now subst.
Qed.

Lemma get_filter_columns (cs : list string) (c : string) (r : row) :
  get c (filter (fun kv => mem (fst kv) cs) r)
  = if mem c cs then get c r else VNull.
Proof.
  induction r as [|[k v] t IH]; simpl.
  - now destruct (mem c cs).
  - destruct (mem k cs) eqn:Hk; simpl.
    + destruct (String.eqb c k) eqn:E; auto.
      apply String.eqb_eq in E. subst. now rewrite Hk.
    + destruct (String.eqb c k) eqn:E; auto.
      apply String.eqb_eq in E. subst. now rewrite Hk in IH |- *.
Qed.

Lemma has_key_cons (c k : string) (v : value) (t : row) :
  has_key c ((k, v) :: t) = String.eqb c k || has_key c t.
Proof. reflexivity. Qed.

Lemma get_assign (cols : list string) (new x : row) (c : string) :
  get c (assign cols new x)
  = if mem c cols && has_key c x then get c new else get c x.
Proof.
  induction x as [|[k v] t IH].
  - simpl. now rewrite andb_false_r.
  - rewrite has_key_cons. simpl.
    destruct (mem k cols) eqn:Hk; simpl;
      destruct (String.eqb c k) eqn:E; simpl; auto;
      apply String.eqb_eq in E; subst; now rewrite Hk.
Qed.

Lemma get_app_found (c : string) (r extra : row) :
  get c r <> VNull -> get c (r ++ extra) = get c r.
Proof.
  induction r as [|[k v] t IH]; simpl; intros H.
  - contradiction.
  - destruct (String.eqb c k); auto.
Qed.

Lemma same_key_pointwise (cols : list string) (r x : row) (c : string) :
  same_key cols r x = true -> In c cols ->
  get c r <> VNull /\ value_eqb (get c r) (get c x) = true.
Proof.
  unfold same_key, no_null, key_of. intros H Hin.
  apply andb_prop in H. destruct H as [Hn He].
  induction cols as [|k t IH]; simpl in *; [contradiction|].
  apply andb_prop in Hn. destruct Hn as [Hn1 Hn2].
  apply andb_prop in He. destruct He as [He1 He2].
  destruct Hin as [->|Hin]; auto.
  split; auto. intros E. rewrite E in Hn1. discriminate.
Qed.

Lemma same_key_intro (cols : list string) (r x : row) :
  (forall c, In c cols ->
             get c r <> VNull /\ value_eqb (get c r) (get c x) = true) ->
  same_key cols r x = true.
Proof.
  unfold same_key, no_null, key_of. induction cols as [|k t IH]; simpl; auto.
  intros H. destruct (H k (or_introl eq_refl)) as [Hn He].
  assert (IHt : forallb (fun v => negb (is_null v)) (map (fun c => get c r) t)
                && list_eqb value_eqb (map (fun c => get c r) t)
                                      (map (fun c => get c x) t) = true)
    by (apply IH; intros; apply H; now right).
  apply andb_prop in IHt. destruct IHt as [I1 I2].
  rewrite He, I1, I2. destruct (get k r); simpl; auto.
Qed.

(** ** Updates on conflict keep the keys *)

Lemma key_kept (schema : list model) (m : model) (idx cols U : list string)
    (new x : row) :
  keeps_keys schema m idx cols = true ->
  same_key idx new x = true ->
  (forall c, In c U -> In c (key_columns schema m)) ->
  key_changed U x (assign cols new x) = false.
Proof.
  intros Hk Hs HU. unfold key_changed. apply negb_false_iff.
  unfold key_of. induction U as [|c t IH]; simpl; auto.
  rewrite IH by (intros; apply HU; now right). rewrite andb_true_r.
  rewrite get_assign.
  destruct (mem c cols) eqn:Hc; simpl; [|apply value_eqb_refl].
  destruct (has_key c x); [|apply value_eqb_refl].
  unfold keeps_keys in Hk. rewrite forallb_forall in Hk.
  specialize (Hk c (HU c (or_introl eq_refl))). rewrite Hc in Hk. simpl in Hk.
  apply mem_In in Hk.
  destruct (same_key_pointwise idx new x c Hs Hk) as [_ He].
  now rewrite value_eqb_sym.
Qed.

Lemma update_ok_keeps_keys (schema : list model) (m : model)
    (idx cols : list string) (d : db) (new x : row) :
  keeps_keys schema m idx cols = true ->
  same_key idx new x = true ->
  update_ok schema m d x (assign cols new x) = true.
Proof.
  intros Hk Hs. unfold update_ok.
  apply andb_true_intro; split; [apply andb_true_intro; split|].
  - apply forallb_forall. intros U HU.
    rewrite (key_kept schema m idx cols U new x Hk Hs); auto.
    intros c Hc. unfold key_columns. apply in_or_app. left.
    apply in_concat. now exists U.
  - apply forallb_forall. intros fk Hfk.
    rewrite (key_kept schema m idx cols (fk_cols fk) new x Hk Hs); auto.
    intros c Hc. unfold key_columns. apply in_or_app. right.
    apply in_or_app. left. apply in_flat_map. now exists fk.
  - apply negb_true_iff. unfold referenced_elsewhere.
    apply not_true_is_false. intros H.
    apply existsb_exists in H. destruct H as (m' & Hm' & H).
    apply existsb_exists in H. destruct H as (fk & Hfk & H).
    apply andb_prop in H. destruct H as [H _].
    apply andb_prop in H. destruct H as [Ht Hc].
    rewrite (key_kept schema m idx cols (fk_refcols fk) new x Hk Hs) in Hc;
      [discriminate|].
    intros c Hin. unfold key_columns. apply in_or_app. right.
    apply in_or_app. right. apply in_flat_map. exists m'. split; auto.
    apply in_flat_map. exists fk. split; auto. now rewrite Ht.
Qed.

(** The store's answer to [ON CONFLICT (idx) DO UPDATE] when a stored row
    collides on [idx] and the update keeps the keys: the colliding rows take
    the proposed values of [cols], every other row stays. *)
Lemma pg_insert_do_update_conflict (schema : list model) (m : model)
    (vals : row) (idx cols : list string) (d : db) (x : row) :
  forallb (fun kv => mem (fst kv) (columns m)) vals = true ->
  existsb (fun c => is_null (get c (proposed m vals))) (not_nullable m) = false ->
  existsb (same_columns idx) (unique_indexes m) = true ->
  keeps_keys schema m idx cols = true ->
  In x (table (tablename m) d) ->
  same_key idx (proposed m vals) x = true ->
  pg_insert schema m vals (DoUpdate idx cols) d
  = Ok (set_table (tablename m)
          (map (fun y => if same_key idx (proposed m vals) y
                         then assign cols (proposed m vals) y else y)
               (table (tablename m) d))
          d).
Proof.
  intros Hcols Hnn Hidx Hk Hin Hs. unfold pg_insert.
  rewrite Hcols, Hnn, Hidx. simpl.
  replace (existsb (same_key idx (proposed m vals)) (table (tablename m) d))
    with true
    by (symmetry; apply existsb_exists; now exists x).
  replace (forallb _ (table (tablename m) d)) with true; auto.
  symmetry. apply forallb_forall. intros y Hy.
  destruct (same_key idx (proposed m vals) y) eqn:E; simpl; auto.
  now apply update_ok_keeps_keys with (idx := idx).
Qed.

(** The store's answer to [ON CONFLICT (idx) DO UPDATE] when no stored row
    collides on any unique index: the proposed row is appended. *)
Lemma pg_insert_do_update_fresh (schema : list model) (m : model)
    (vals : row) (idx cols : list string) (d : db) :
  forallb (fun kv => mem (fst kv) (columns m)) vals = true ->
  existsb (fun c => is_null (get c (proposed m vals))) (not_nullable m) = false ->
  existsb (same_columns idx) (unique_indexes m) = true ->
  existsb (fun U => existsb (same_key U (proposed m vals)) (table (tablename m) d))
          (unique_indexes m) = false ->
  existsb (same_key idx (proposed m vals)) (table (tablename m) d) = false ->
  forallb (fk_ok d (proposed m vals)) (foreign_keys m) = true ->
  pg_insert schema m vals (DoUpdate idx cols) d
  = Ok (set_table (tablename m) (table (tablename m) d ++ [proposed m vals]) d).
Proof.
  intros Hcols Hnn Hidx Hfree Hidxfree Hfk. unfold pg_insert. cbv zeta.
  rewrite Hcols. cbn [negb]. rewrite Hnn, Hidx. cbn [negb].
  rewrite Hidxfree, Hfree. unfold insert_row. now rewrite Hfk.
Qed.

(** The store's answer to [ON CONFLICT DO NOTHING] when a stored row
    collides on a unique index: nothing is written (or, when the proposed
    row misses a required value, the statement fails). *)
Lemma pg_insert_do_nothing_collision (schema : list model) (m : model)
    (vals : row) (d : db) (U : list string) (x : row) :
  In U (unique_indexes m) ->
  In x (table (tablename m) d) ->
  same_key U (proposed m vals) x = true ->
  pg_insert schema m vals DoNothing d = Ok d
  \/ exists e, pg_insert schema m vals DoNothing d = Err e.
Proof.
  intros HU Hx Hs. unfold pg_insert.
  destruct (negb (forallb _ vals)); [right; eauto|].
  destruct (existsb _ (not_nullable m)); [right; eauto|].
  left.
  replace (existsb _ (unique_indexes m)) with true; auto.
  symmetry. apply existsb_exists. exists U. split; auto.
  apply existsb_exists. now exists x.
Qed.

(** ** Statements and sessions *)

Lemma fill_defaults_present (cs : list string) (vals : row) (w : world) :
  forallb (fun c => has_key c vals) cs = true ->
  fill_defaults cs vals w = (Ret vals, w).
Proof.
  induction cs as [|c t IH]; simpl; auto.
  intros H. apply andb_prop in H. destruct H as [Hc Ht].
  rewrite Hc. auto.
Qed.

Lemma execute_commit_ok (schema : list model) (m : model) (vals : row)
    (oc : on_conflict) (w : world) (d' : db) :
  forallb (fun c => has_key c vals) (uuid_defaults m) = true ->
  pg_insert schema m vals oc (working w) = Ok d' ->
  (execute schema m vals oc ;;; commit) w
  = (Ret tt, mkWorld d' d' (uuid_next w) (files w)).
Proof.
  intros Hd Hp. unfold execute, bind.
  rewrite (fill_defaults_present _ _ _ Hd), Hp. reflexivity.
Qed.

Lemma execute_commit_err (schema : list model) (m : model) (vals : row)
    (oc : on_conflict) (w : world) (e : exn) :
  forallb (fun c => has_key c vals) (uuid_defaults m) = true ->
  pg_insert schema m vals oc (working w) = Err e ->
  (execute schema m vals oc ;;; commit) w = (Raise e, w).
Proof.
  intros Hd Hp. unfold execute, bind.
  rewrite (fill_defaults_present _ _ _ Hd), Hp. reflexivity.
Qed.

Lemma assign_ext (cols : list string) (new new' x : row) :
  (forall c, In c cols -> get c new = get c new') ->
  assign cols new x = assign cols new' x.
Proof.
  intros H. unfold assign. apply map_ext. intros [k v]. simpl.
  destruct (mem k cols) eqn:E; auto. apply mem_In in E. now rewrite H.
Qed.

Lemma same_key_ext (cols : list string) (new new' x : row) :
  (forall c, In c cols -> get c new = get c new') ->
  same_key cols new x = same_key cols new' x.
Proof.
  intros H. unfold same_key, key_of.
  replace (map (fun c => get c new') cols) with (map (fun c => get c new) cols);
    auto.
  apply map_ext_in. auto.
Qed.

Lemma find_witness {A : Type} (f : A -> bool) (l : list A) (x : A) :
  In x l -> f x = true -> exists e, find f l = Some e /\ In e l /\ f e = true.
Proof.
  induction l as [|y t IH]; simpl; [contradiction|].
  intros Hin Hf. destruct (f y) eqn:E.
  - exists y. auto.
  - destruct Hin as [->|Hin]; [congruence|].
    destruct (IH Hin Hf) as (e & E1 & E2 & E3). exists e. auto.
Qed.

Lemma existsb_pointwise {A : Type} (f g : A -> bool) (l : list A) :
  (forall x, f x = g x) -> existsb f l = existsb g l.
Proof.
  intros H. induction l as [|x t IH]; simpl; auto. now rewrite H, IH.
Qed.

Lemma existsb_false_forall {A : Type} (f : A -> bool) (l : list A) :
  existsb f l = false -> forall x, In x l -> f x = false.
Proof.
  intros H x Hx. destruct (f x) eqn:E; auto.
  assert (existsb f l = true) by (apply existsb_exists; eauto). congruence.
Qed.

(** ** The finished-product upserts *)

(** [Plants.upsert] on a plant code the store already has: the stored row
    takes the incoming plant name; its [plant_id] stays. *)
Lemma Plants_upsert_existing (w : world) (obj x : row) :
  let new := FP.to_clean_dict FP.PlantsC obj in
  get "plant_id" obj <> VNull ->
  get "plant_name" obj <> VNull ->
  In x (table "plants" (working w)) ->
  same_key ["plant"] new x = true ->
  let d' :=
    set_table "plants"
      (map (fun y => if same_key ["plant"] new y
                     then assign ["plant"; "plant_name"] new y else y)
           (table "plants" (working w)))
      (working w) in
  FP.check_and_insert FP.PlantsC [("plant", get "plant" obj)] obj w
  = (Ret tt, mkWorld d' d' (uuid_next w) (files w)).
Proof.
  intros new Hid Hname Hx Hs d'.
  unfold FP.check_and_insert, try_except. simpl FP.upsert.
  unfold FP.Plants_upsert.
  assert (Hp : get "plant" obj <> VNull).
  { destruct (same_key_pointwise ["plant"] new x "plant" Hs (or_introl eq_refl))
      as [H _]. exact H. }
  erewrite execute_commit_ok; [reflexivity|reflexivity|].
  rewrite (pg_insert_do_update_conflict FP.schema FP.Plants _ ["plant"]
             ["plant"; "plant_name"] (working w) x); auto.
  simpl. destruct (get "plant_id" obj), (get "plant" obj), (get "plant_name" obj);
    simpl; auto; congruence.
Qed.

Lemma drop_claimed_old_code_cases (kwargs : row) (w : world) :
  exists k',
    FP.drop_claimed_old_code kwargs w = (Ret k', w)
    /\ (k' = kwargs \/ k' = pop "material_old_code" kwargs).
Proof.
  unfold FP.drop_claimed_old_code, bind, FP.query_first_by, ret.
  destruct (FP.truthy _); [|eauto].
  destruct (find _ _); [|eauto].
  destruct (negb _); eauto.
Qed.

(** The incoming old code is dropped when a stored material with another
    code carries it and no stored row has the incoming material code. *)
Lemma drop_claimed_old_code_pops (kwargs A : row) (old : string) (w : world) :
  get "material_old_code" kwargs = VStr old -> old <> "" ->
  In A (table "materials" (working w)) ->
  get "material_old_code" A = VStr old ->
  (forall y, In y (table "materials" (working w)) ->
             value_eqb (get "material_code" y) (get "material_code" kwargs) = false) ->
  FP.drop_claimed_old_code kwargs w = (Ret (pop "material_old_code" kwargs), w).
Proof.
  intros Hold Hne HA HAold Hcode.
  unfold FP.drop_claimed_old_code, bind, FP.query_first_by, ret.
  rewrite Hold. unfold FP.truthy.
  assert (E0 : String.eqb old "" = false) by now apply String.eqb_neq.
  rewrite E0. simpl.
  destruct (find_witness
              (fun x => value_eqb (get "material_old_code" x) (VStr old))
              (table "materials" (working w)) A HA) as (e & Ef & Ein & _).
  { rewrite HAold. apply value_eqb_refl. }
  rewrite Ef.
  now rewrite (Hcode e Ein).
Qed.

(** [Material.upsert] on a material code the store already has: the stored
    row takes the incoming description; its id and its old code stay,
    whatever old code comes in. *)
Lemma Material_upsert_existing (w : world) (id code desc old : value) (x : row) :
  let B := [("material_id", id); ("material_code", code);
            ("material_description", desc); ("material_old_code", old)] in
  id <> VNull -> desc <> VNull ->
  In x (table "materials" (working w)) ->
  same_key ["material_code"] B x = true ->
  let d' :=
    set_table "materials"
      (map (fun y => if same_key ["material_code"] B y
                     then assign ["material_code"; "material_description"] B y
                     else y)
           (table "materials" (working w)))
      (working w) in
  FP.Material_upsert B w = (Ret tt, mkWorld d' d' (uuid_next w) (files w)).
Proof.
  intros B Hid Hdesc Hx Hs d'.
  assert (Hc : code <> VNull).
  { destruct (same_key_pointwise ["material_code"] B x "material_code" Hs
                (or_introl eq_refl)) as [H _]. exact H. }
  unfold FP.Material_upsert. unfold bind at 1.
  destruct (drop_claimed_old_code_cases B w) as (k' & E & Hk). rewrite E.
  assert (Hget : forall c, In c ["material_code"; "material_description"] ->
                           get c (proposed FP.Material k') = get c B).
  { intros c [<-|[<-|[]]]; destruct Hk as [->| ->]; reflexivity. }
  assert (Hsame : forall y, same_key ["material_code"] (proposed FP.Material k') y
                            = same_key ["material_code"] B y).
  { intros y. apply same_key_ext. intros c [<-|[]]. apply Hget. now left. }
  change (FP.update_dict FP.Material ["material_id"; "material_old_code"])
    with ["material_code"; "material_description"].
  erewrite execute_commit_ok; [reflexivity| |].
  - destruct Hk as [->| ->]; reflexivity.
  - rewrite (pg_insert_do_update_conflict FP.schema FP.Material k'
               ["material_code"] ["material_code"; "material_description"]
               (working w) x); auto.
    + unfold d'. simpl tablename. do 2 f_equal. apply map_ext. intros y.
      rewrite Hsame. destruct (same_key _ B y); auto.
      now apply assign_ext.
    + destruct Hk as [->| ->]; reflexivity.
    + destruct Hk as [->| ->]; simpl;
        destruct id, code, desc; simpl; auto; congruence.
    + now rewrite Hsame.
Qed.

(** [Material.upsert] of a material code the store does not have yet, with an
    old code another stored material carries: the row is inserted without
    the old code. *)
Lemma Material_upsert_new (w : world) (id desc : value) (code old : string)
    (A : row) :
  let B := [("material_id", id); ("material_code", VStr code);
            ("material_description", desc); ("material_old_code", VStr old)] in
  id <> VNull -> desc <> VNull -> old <> "" ->
  In A (table "materials" (working w)) ->
  get "material_old_code" A = VStr old ->
  existsb (same_key ["material_code"] B) (table "materials" (working w)) = false ->
  existsb (same_key ["material_id"] B) (table "materials" (working w)) = false ->
  let d' :=
    set_table "materials"
      (table "materials" (working w) ++ [put "material_old_code" VNull B])
      (working w) in
  FP.Material_upsert B w = (Ret tt, mkWorld d' d' (uuid_next w) (files w)).
Proof.
  intros B Hid Hdesc Hold HA HAold Hcode Hfresh d'.
  unfold FP.Material_upsert. unfold bind at 1.
  rewrite (drop_claimed_old_code_pops B A old w); auto.
  2:{ intros y Hy.
      pose proof (existsb_false_forall _ _ Hcode y Hy) as H.
      unfold same_key in H. simpl in H. rewrite andb_true_r in H.
      now rewrite value_eqb_sym. }
  assert (E1 : existsb (same_key ["material_code"]
                          (proposed FP.Material (pop "material_old_code" B)))
                       (table "materials" (working w)) = false).
  { etransitivity; [|exact Hcode].
    apply existsb_pointwise. intros y. apply same_key_ext.
    intros c [<-|[]]. reflexivity. }
  assert (E2 : existsb (same_key ["material_id"]
                          (proposed FP.Material (pop "material_old_code" B)))
                       (table "materials" (working w)) = false).
  { etransitivity; [|exact Hfresh].
    apply existsb_pointwise. intros y. apply same_key_ext.
    intros c [<-|[]]. reflexivity. }
  erewrite execute_commit_ok; [reflexivity|reflexivity|].
  rewrite pg_insert_do_update_fresh; auto.
  - simpl. destruct id, desc; simpl; auto; congruence.
  - change (unique_indexes FP.Material)
      with [["material_id"]; ["material_code"]].
    change (tablename FP.Material) with "materials".
    cbn [existsb]. now rewrite E1, E2.
Qed.

(** [check_and_insert] of the raw-material service on a row that collides
    with a stored one on a unique index, with the flag off: the committed
    store is what it was. *)
Lemma RM_check_and_insert_collision (m : model) (filters values : row)
    (w : world) (U : list string) (x : row) :
  let vals := fst (RM.statement m filters values false) in
  working w = committed w ->
  forallb (fun c => has_key c vals) (uuid_defaults m) = true ->
  In U (unique_indexes m) ->
  In x (table (tablename m) (committed w)) ->
  same_key U (proposed m vals) x = true ->
  committed (snd (RM.check_and_insert m filters values false w)) = committed w.
Proof.
  intros vals Hclean Hids HU Hx Hs.
  pose proof (RM_check_and_insert_cases m filters values false w) as H.
  cbv zeta in H.
  destruct (execute RM.schema m (fst (RM.statement m filters values false))
              (snd (RM.statement m filters values false)) w)
    as [[a|e] w1] eqn:E; rewrite H; simpl.
  - unfold execute, bind in E.
    fold vals in E. rewrite (fill_defaults_present _ _ _ Hids) in E.
    rewrite <- Hclean in Hx.
    destruct (pg_insert_do_nothing_collision RM.schema m vals (working w) U x
                HU Hx Hs) as [Hp|[e Hp]];
      simpl in E; rewrite Hp in E; inversion E; subst; simpl; auto.
  - apply execute_raise_store in E. tauto.
Qed.

(** C6, amended.  Material A is on file with a non-empty old code X, and a
    material B with another material code, a fresh id and the same old code
    X is upserted.  The incoming old code is dropped: when B's material code
    is not on file, B is inserted with a null old code; when it is, the
    stored row of B takes the incoming description and keeps the old code it
    has.  A's row is unchanged either way. *)
Theorem Material_upsert_old_code_conflict :
  forall (w : world) (A : row) (a_code b_code old : string) (b_id b_desc : value),
    let B := [("material_id", b_id); ("material_code", VStr b_code);
              ("material_description", b_desc);
              ("material_old_code", VStr old)] in
    let stored := table "materials" (working w) in
    In A stored ->
    get "material_old_code" A = VStr old ->
    old <> "" ->
    get "material_code" A = VStr a_code ->
    a_code <> b_code ->
    b_id <> VNull ->
    b_desc <> VNull ->
    existsb (same_key ["material_id"] B) stored = false ->
    exists w',
      FP.Material_upsert B w = (Ret tt, w')
      /\ table "materials" (committed w')
         = (if existsb (same_key ["material_code"] B) stored
            then map (fun y =>
                        if same_key ["material_code"] B y
                        then assign ["material_code"; "material_description"] B y
                        else y) stored
            else stored ++ [put "material_old_code" VNull B])
      /\ In A (table "materials" (committed w'))
      /\ (forall y,
            get "material_old_code"
                (assign ["material_code"; "material_description"] B y)
            = get "material_old_code" y).
Proof.
  intros w A a_code b_code old b_id b_desc B stored HA HAold Hold HAcode Hne
         Hid Hdesc Hfresh.
  assert (HAB : same_key ["material_code"] B A = false).
  { unfold same_key. simpl. rewrite HAcode. simpl.
    rewrite andb_true_r. apply String.eqb_neq. congruence. }
  assert (Hkeep : forall y,
            get "material_old_code"
                (assign ["material_code"; "material_description"] B y)
            = get "material_old_code" y)
    by (intros y; now rewrite get_assign).
  destruct (existsb (same_key ["material_code"] B) stored) eqn:E.
  - apply existsb_exists in E. destruct E as (x & Hx & Hs).
    eexists. split; [apply (Material_upsert_existing w b_id (VStr b_code)
                              b_desc (VStr old) x); auto|].
    simpl committed. rewrite table_set_table. repeat split; auto.
    apply in_map_iff. exists A. split; auto.
    match goal with
    | |- (if ?c then _ else _) = _ =>
        replace c with false by (symmetry; exact HAB)
    end.
    reflexivity.
  - eexists. split; [apply (Material_upsert_new w b_id b_desc b_code old A);
                     auto|].
    simpl committed. rewrite table_set_table. repeat split; auto.
    apply in_or_app. now left.
Qed.

(** A use of the theorem: B is not on file and is inserted without X. *)
Lemma Material_upsert_old_code_conflict_witness :
  exists w',
    FP.Material_upsert (fp_material 7 "B" "bran" (VStr "X")) (store_world fp_store_A)
    = (Ret tt, w')
    /\ table "materials" (committed w')
       = [fp_material 0 "A" "premix" (VStr "X"); fp_material 7 "B" "bran" VNull]
    /\ In (fp_material 0 "A" "premix" (VStr "X")) (table "materials" (committed w')).
Proof.
  destruct (Material_upsert_old_code_conflict (store_world fp_store_A)
              (fp_material 0 "A" "premix" (VStr "X")) "A" "B" "X"
              (VUuid 7) (VStr "bran"))
    as (w' & E & T & I & _).
  - simpl. now left.
  - reflexivity.
  - discriminate.
  - reflexivity.
  - discriminate.
  - discriminate.
  - discriminate.
  - reflexivity.
  - exists w'. repeat split; auto.
Defined.

(** C6 as the claim has it fails when B is on file already: upserting B
    with old code X leaves B's row with the old code Y it had, not with
    null. *)
Lemma Material_upsert_keeps_stored_old_code :
  FP.Material_upsert (fp_material 7 "B" "bran, fine" (VStr "X"))
                     (store_world fp_store_AB)
  = (Ret tt,
     store_world
       [("materials", [fp_material 0 "A" "premix" (VStr "X");
                       fp_material 1 "B" "bran, fine" (VStr "Y")])])
  /\ VStr "Y" <> VNull.
Proof. split; [reflexivity|discriminate]. Qed.

(** C7, amended.  What a write does to a row whose natural key is on file
    depends on the service.

    In the finished-product service the dimension upserts update on
    conflict: [Plants.upsert] on a plant code on file gives the stored row
    the incoming plant name and leaves its [plant_id]; [Material.upsert] on a
    material code on file gives the stored row the incoming description and
    leaves its [material_id] and, always, its old code.

    In the raw-material service [check_and_insert] is called with
    [update_on_conflict] off: a row that collides with a stored one on a
    unique index is not written, and the committed store, the old values of
    the stored row included, is what it was. *)
Theorem upsert_on_existing_natural_key :
  forall (w : world) (plant x : row) (id code desc old : value) (y : row)
         (v : world) (m : model) (filters values : row) (U : list string)
         (z : row),
    let P := FP.to_clean_dict FP.PlantsC plant in
    let B := [("material_id", id); ("material_code", code);
              ("material_description", desc); ("material_old_code", old)] in
    get "plant_id" plant <> VNull ->
    get "plant_name" plant <> VNull ->
    In x (table "plants" (working w)) ->
    same_key ["plant"] P x = true ->
    id <> VNull ->
    desc <> VNull ->
    In y (table "materials" (working w)) ->
    same_key ["material_code"] B y = true ->
    working v = committed v ->
    forallb (fun c => has_key c (fst (RM.statement m filters values false)))
            (uuid_defaults m) = true ->
    In U (unique_indexes m) ->
    In z (table (tablename m) (committed v)) ->
    same_key U (proposed m (fst (RM.statement m filters values false))) z = true ->
    (exists w',
        FP.check_and_insert FP.PlantsC [("plant", get "plant" plant)] plant w
        = (Ret tt, w')
        /\ table "plants" (committed w')
           = map (fun r => if same_key ["plant"] P r
                           then assign ["plant"; "plant_name"] P r else r)
                 (table "plants" (working w))
        /\ get "plant_id" (assign ["plant"; "plant_name"] P x) = get "plant_id" x
        /\ get "plant_name" (assign ["plant"; "plant_name"] P x)
           = (if has_key "plant_name" x then get "plant_name" plant
              else get "plant_name" x))
    /\ (exists w',
           FP.Material_upsert B w = (Ret tt, w')
           /\ table "materials" (committed w')
              = map (fun r => if same_key ["material_code"] B r
                              then assign ["material_code"; "material_description"] B r
                              else r)
                    (table "materials" (working w))
           /\ get "material_id"
                  (assign ["material_code"; "material_description"] B y)
              = get "material_id" y
           /\ get "material_old_code"
                  (assign ["material_code"; "material_description"] B y)
              = get "material_old_code" y
           /\ get "material_description"
                  (assign ["material_code"; "material_description"] B y)
              = (if has_key "material_description" y then desc
                 else get "material_description" y))
    /\ committed (snd (RM.check_and_insert m filters values false v))
       = committed v.
Proof.
  intros w plant x id code desc old y v m filters values U z P B
         Hpid Hpname Hx Hsx Hid Hdesc Hy Hsy Hclean Hids HU Hz Hsz.
  split; [|split].
  - eexists. split; [apply (Plants_upsert_existing w plant x); auto|].
    simpl committed. rewrite table_set_table. repeat split.
    + now rewrite get_assign.
    + rewrite get_assign. simpl. reflexivity.
  - eexists. split; [apply (Material_upsert_existing w id code desc old y); auto|].
    simpl committed. rewrite table_set_table. repeat split.
    + now rewrite get_assign.
    + now rewrite get_assign.
    + rewrite get_assign. simpl. reflexivity.
  - now apply (RM_check_and_insert_collision m filters values v U z).
Qed.

(** A use of the theorem: the plant 1010 and the material A are on file in
    the finished-product store, the material M1 in the raw-material store. *)
Lemma upsert_on_existing_natural_key_witness :
  (exists w',
      FP.check_and_insert FP.PlantsC [("plant", VStr "1010")]
        (fp_plant 8 "1010" "Feed mill 1") (store_world fp_store_plants)
      = (Ret tt, w')
      /\ table "plants" (committed w') = [fp_plant 1 "1010" "Feed mill 1"])
  /\ (exists w',
         FP.Material_upsert (fp_material 9 "A" "premix 2" (VStr "Z"))
                            (store_world fp_store_plants)
         = (Ret tt, w')
         /\ table "materials" (committed w') = [fp_material 0 "A" "premix 2" VNull])
  /\ committed
       (snd (RM.check_and_insert RM.Material [("material_code", VStr "M1")]
               (vars (rm_material 5 "M1" "maize, yellow")) false
               (store_world rm_store_M1)))
     = rm_store_M1.
Proof.
  destruct (upsert_on_existing_natural_key
              (store_world fp_store_plants)
              (fp_plant 8 "1010" "Feed mill 1") (fp_plant 1 "1010" "Mill")
              (VUuid 9) (VStr "A") (VStr "premix 2") (VStr "Z")
              (fp_material 0 "A" "premix" VNull)
              (store_world rm_store_M1) RM.Material
              [("material_code", VStr "M1")]
              (vars (rm_material 5 "M1" "maize, yellow"))
              ["material_code"] (rm_material 0 "M1" "maize"))
    as ((w1 & E1 & T1 & _) & (w2 & E2 & T2 & _) & R).
  - discriminate.
  - discriminate.
  - simpl. now left.
  - reflexivity.
  - discriminate.
  - discriminate.
  - simpl. now left.
  - reflexivity.
  - reflexivity.
  - reflexivity.
  - simpl. right. now left.
  - simpl. now left.
  - reflexivity.
  - split; [|split].
    + exists w1. split; [exact E1|]. rewrite T1. reflexivity.
    + exists w2. split; [exact E2|]. rewrite T2. reflexivity.
    + exact R.
Defined.

(** C7 as the claim has it fails in the raw-material service: the material
    M1 is on file, the write brings another description for it, and the
    stored row keeps the description it had. *)
Lemma RM_existing_row_keeps_old_values :
  RM.check_and_insert RM.Material [("material_code", VStr "M1")]
    (vars (rm_material 5 "M1" "maize, yellow")) false (store_world rm_store_M1)
  = (Ret tt, store_world [("materials", [rm_material 0 "M1" "maize"])])
  /\ VStr "maize" <> VStr "maize, yellow".
Proof. split; [reflexivity|discriminate]. Qed.

(** ** Phases: one commit per row *)

Lemma for_each_app {A : Type} (f : A -> M unit) (l1 l2 : list A) (w : world) :
  for_each f (l1 ++ l2) w
  = match for_each f l1 w with
    | (Ret _, w1) => for_each f l2 w1
    | (Raise e, w1) => (Raise e, w1)
    end.
Proof.
  revert w. induction l1 as [|x t IH]; intros w; simpl; auto.
  unfold bind. destruct (f x w) as [[a|e] w1]; auto.
Qed.

Lemma execute_commit_ret (schema : list model) (m : model) (vals : row)
    (oc : on_conflict) (w w' : world) (a : unit) :
  (execute schema m vals oc ;;; commit) w = (Ret a, w') ->
  committed w' = working w'.
Proof.
  unfold bind. destruct (execute schema m vals oc w) as [[u|e] w1].
  - unfold commit. intros H. inversion H. reflexivity.
  - discriminate.
Qed.

Lemma execute_commit_raise (schema : list model) (m : model) (vals : row)
    (oc : on_conflict) (w w' : world) (e : exn) :
  (execute schema m vals oc ;;; commit) w = (Raise e, w') ->
  committed w' = committed w /\ working w' = working w.
Proof.
  unfold bind. destruct (execute schema m vals oc w) as [[u|e'] w1] eqn:E.
  - unfold commit. discriminate.
  - intros H. inversion H. subst. apply execute_raise_store in E. tauto.
Qed.

Lemma FP_upsert_ret (c : FP.orm_class) (kwargs : row) (w w' : world) (a : unit) :
  In c fp_classes ->
  FP.upsert c kwargs w = (Ret a, w') -> committed w' = working w'.
Proof.
  intros Hc. simpl in Hc.
  destruct Hc as [<-|[<-|[<-|[<-|[<-|[]]]]]]; simpl FP.upsert;
    try (apply execute_commit_ret).
  unfold FP.Material_upsert. unfold bind at 1.
  destruct (drop_claimed_old_code_cases kwargs w) as (k' & E & _). rewrite E.
  apply execute_commit_ret.
Qed.

Lemma FP_upsert_raise (c : FP.orm_class) (kwargs : row) (w w' : world) (e : exn) :
  In c fp_classes ->
  FP.upsert c kwargs w = (Raise e, w') ->
  committed w' = committed w /\ working w' = working w.
Proof.
  intros Hc. simpl in Hc.
  destruct Hc as [<-|[<-|[<-|[<-|[<-|[]]]]]]; simpl FP.upsert;
    try (apply execute_commit_raise).
  unfold FP.Material_upsert. unfold bind at 1.
  destruct (drop_claimed_old_code_cases kwargs w) as (k' & E & _). rewrite E.
  apply execute_commit_raise.
Qed.

Lemma FP_check_and_insert_ret (c : FP.orm_class) (f obj : row) (w w' : world)
    (a : unit) :
  In c fp_classes ->
  FP.check_and_insert c f obj w = (Ret a, w') -> committed w' = working w'.
Proof.
  intros Hc. unfold FP.check_and_insert, try_except.
  destruct (FP.upsert c (FP.to_clean_dict c obj) w) as [[u|e] w1] eqn:E.
  - intros H. inversion H. subst. now apply FP_upsert_ret in E.
  - unfold raise. discriminate.
Qed.

Lemma FP_check_and_insert_raise (c : FP.orm_class) (f obj : row) (w w' : world)
    (e : exn) :
  In c fp_classes ->
  FP.check_and_insert c f obj w = (Raise e, w') ->
  committed w' = committed w /\ working w' = working w.
Proof.
  intros Hc. unfold FP.check_and_insert, try_except.
  destruct (FP.upsert c (FP.to_clean_dict c obj) w) as [[u|e'] w1] eqn:E.
  - discriminate.
  - unfold raise. intros H. inversion H. subst. now apply FP_upsert_raise in E.
Qed.

Lemma fp_phase_clean (c : FP.orm_class) (key : row -> row) (rows : list row)
    (w w' : world) :
  In c fp_classes ->
  working w = committed w ->
  fp_phase c key rows w = (Ret tt, w') ->
  working w' = committed w'.
Proof.
  intros Hc. unfold fp_phase. revert w.
  induction rows as [|r t IH]; intros w Hw; simpl.
  - unfold ret. intros H. inversion H. now subst.
  - unfold bind.
    destruct (FP.check_and_insert c (key r) r w) as [[u|e] w1] eqn:E;
      [|discriminate].
    apply FP_check_and_insert_ret in E; auto. apply IH. now symmetry.
Qed.

Lemma RM_check_and_insert_clean (m : model) (f values : row) (u : bool)
    (w : world) :
  working (snd (RM.check_and_insert m f values u w))
  = committed (snd (RM.check_and_insert m f values u w)).
Proof.
  pose proof (RM_check_and_insert_cases m f values u w) as H. cbv zeta in H.
  destruct (execute RM.schema m _ _ w) as [[a|e] w1]; now rewrite H.
Qed.

Lemma rm_phase_clean (m : model) (key : row -> row) (rows : list row)
    (w w' : world) :
  working w = committed w ->
  rm_phase m key rows w = (Ret tt, w') ->
  working w' = committed w'.
Proof.
  unfold rm_phase. revert w.
  induction rows as [|r t IH]; intros w Hw; simpl.
  - unfold ret. intros H. inversion H. now subst.
  - unfold bind.
    pose proof (RM_check_and_insert_clean m (key r) (vars r) false w) as Hc.
    destruct (RM.check_and_insert m (key r) (vars r) false w) as [[u|e] w1];
      [|discriminate].
    apply IH. exact Hc.
Qed.

(** C2, amended.  A phase is a loop of row writes, and every row write is
    executed and committed on its own; no transaction spans the phase.  When
    the write of a row fails, only that statement is undone: the rows of the
    phase written before it are, and stay, committed.  In the
    finished-product service the failure leaves the loop, so the rows after
    it are not written; in the raw-material service the failure is answered
    inside [check_and_insert] and the loop goes on with the rows after it. *)
Theorem phase_rows_are_committed_one_by_one :
  forall (c : FP.orm_class) (key : row -> row) (pre post : list row) (x : row)
         (w w1 : world)
         (m : model) (rkey : row -> row) (rpre rpost : list row) (rx : row)
         (v v1 : world),
    In c fp_classes ->
    working w = committed w ->
    fp_phase c key pre w = (Ret tt, w1) ->
    fst (FP.check_and_insert c (key x) x w1) <> Ret tt ->
    working v = committed v ->
    rm_phase m rkey rpre v = (Ret tt, v1) ->
    fst (execute RM.schema m
           (fst (RM.statement m (rkey rx) (vars rx) false))
           (snd (RM.statement m (rkey rx) (vars rx) false)) v1) <> Ret tt ->
    (exists e w2,
        fp_phase c key (pre ++ x :: post) w = (Raise e, w2)
        /\ committed w2 = working w1
        /\ committed w1 = working w1)
    /\ (exists v2,
           RM.check_and_insert m (rkey rx) (vars rx) false v1 = (Ret tt, v2)
           /\ committed v2 = working v1
           /\ committed v1 = working v1
           /\ rm_phase m rkey (rpre ++ rx :: rpost) v = rm_phase m rkey rpost v2).
Proof.
  intros c key pre post x w w1 m rkey rpre rpost rx v v1
         Hc Hw Hpre Hx Hv Hrpre Hrx.
  split.
  - pose proof (fp_phase_clean c key pre w w1 Hc Hw Hpre) as Hclean.
    destruct (FP.check_and_insert c (key x) x w1) as [[[]|e] w2] eqn:E;
      [now elim Hx|].
    exists e, w2. unfold fp_phase in *. rewrite for_each_app, Hpre.
    simpl. unfold bind. rewrite E.
    apply FP_check_and_insert_raise in E; auto. destruct E as [E1 E2].
    repeat split; congruence.
  - pose proof (rm_phase_clean m rkey rpre v v1 Hv Hrpre) as Hclean.
    pose proof (RM_check_and_insert_cases m (rkey rx) (vars rx) false v1) as H.
    cbv zeta in H.
    destruct (execute RM.schema m _ _ v1) as [[[]|e] v2] eqn:E;
      [now elim Hrx|].
    apply execute_raise_store in E. destruct E as (E1 & E2 & E3).
    eexists. split; [exact H|]. simpl. repeat split; try congruence.
    unfold rm_phase in *. rewrite for_each_app, Hrpre. simpl. unfold bind.
    now rewrite H.
Qed.

(** A use of the theorem: in each service the materials M1, M2 and M3 are
    written in this order and M2 has no description. *)
Lemma phase_rows_are_committed_one_by_one_witness :
  (exists e w2,
      fp_phase FP.MaterialC by_material_code
        ([fp_material 1 "M1" "premix" VNull]
           ++ fp_material_undescribed 2 "M2" :: [fp_material 3 "M3" "bran" VNull])
        empty_world
      = (Raise e, w2)
      /\ table "materials" (committed w2) = [fp_material 1 "M1" "premix" VNull])
  /\ table "materials"
       (committed
          (snd (rm_phase RM.Material by_material_code
                  ([rm_material 1 "M1" "maize"]
                     ++ rm_material_undescribed 2 "M2" :: [rm_material 3 "M3" "bran"])
                  empty_world)))
     = [rm_material 1 "M1" "maize"; rm_material 3 "M3" "bran"].
Proof.
  destruct (phase_rows_are_committed_one_by_one
              FP.MaterialC by_material_code
              [fp_material 1 "M1" "premix" VNull] [fp_material 3 "M3" "bran" VNull]
              (fp_material_undescribed 2 "M2")
              empty_world
              (snd (fp_phase FP.MaterialC by_material_code
                      [fp_material 1 "M1" "premix" VNull] empty_world))
              RM.Material by_material_code
              [rm_material 1 "M1" "maize"] [rm_material 3 "M3" "bran"]
              (rm_material_undescribed 2 "M2")
              empty_world
              (snd (rm_phase RM.Material by_material_code
                      [rm_material 1 "M1" "maize"] empty_world)))
    as ((e & w2 & E & C & _) & (v2 & _ & _ & _ & R)).
  - simpl. now left.
  - reflexivity.
  - reflexivity.
  - vm_compute. discriminate.
  - reflexivity.
  - reflexivity.
  - vm_compute. discriminate.
  - split.
    + exists e, w2. split; [exact E|]. rewrite C. reflexivity.
    + reflexivity.
Defined.

(** C2 as the claim has it fails: the materials phase of the
    finished-product load fails on its second row (a material without a
    description), and the first row of the phase is in the store
    afterwards. *)
Lemma FP_failed_phase_keeps_earlier_rows :
  fst (FP.update_to_db demo fp_frame_second_material_undescribed empty_world)
  = Raise IntegrityError
  /\ table "materials"
       (committed
          (snd (FP.update_to_db demo fp_frame_second_material_undescribed
                  empty_world)))
     = [fp_material 0 "M1" "premix" VNull].
Proof. split; reflexivity. Qed.

(** ** Where the code departs from the specification *)

(** C1 fails on the code.  The same one-sample file is loaded twice, the
    store starting empty.  The dimension tables keep one row each, but every
    fact row is written again: the conflict the store could detect is on the
    surrogate id, which [uuid4()] draws afresh on every run.  This holds in
    the raw-material service (samples, analysis results and sources doubled)
    and in the finished-product service (samples and analysis results
    doubled). *)
Theorem second_run_duplicates_fact_rows :
  let rm1 := snd (RM.insert_to_db demo rm_frame_one_sample empty_world) in
  let rm2 := snd (RM.insert_to_db demo rm_frame_one_sample rm1) in
  let fp1 := snd (FP.update_to_db demo fp_frame_one_sample empty_world) in
  let fp2 := snd (FP.update_to_db demo fp_frame_one_sample fp1) in
  row_counts (committed rm1)
  = [("materials", 1); ("plants", 1); ("vendors", 1); ("samples", 1);
     ("analysis_results", 2); ("material_sources", 1)]
  /\ row_counts (committed rm2)
     = [("materials", 1); ("plants", 1); ("vendors", 1); ("samples", 2);
        ("analysis_results", 4); ("material_sources", 2)]
  /\ row_counts (committed fp1)
     = [("materials", 1); ("plants", 1); ("formula", 1); ("samples", 1);
        ("analysis_results", 1)]
  /\ row_counts (committed fp2)
     = [("materials", 1); ("plants", 1); ("formula", 1); ("samples", 2);
        ("analysis_results", 2)].
Proof. repeat split; vm_compute; reflexivity. Qed.


(** Whatever the sample map holds, the analysis results of the two rows
    that share the sample number S1 get the same sample: the one the map
    gives for S1. *)
Lemma same_number_same_sample (samples_map : pydict) (w : world) :
  exists results w',
    RM.prepare_analysis_results demo rm_frame_same_number_two_dates samples_map w
    = (Ret results, w')
    /\ map (get "sample_id") results
       = match dict_get (VStr "S1") samples_map with
         | Some sample_id => [sample_id; sample_id]
         | None => []
         end
    /\ map (get "valuation_date") results
       = match dict_get (VStr "S1") samples_map with
         | Some _ => [VDate 1; VDate 2]
         | None => []
         end.
Proof.
  unfold RM.prepare_analysis_results.
  replace (RM.data_filtered demo rm_frame_same_number_two_dates)
    with [[("sample_no", VStr "S1"); ("valuation_date", VDate 1);
           ("analysis_parameter", VStr "moisture");
           ("analysis_value", num 125 10)];
          [("sample_no", VStr "S1"); ("valuation_date", VDate 2);
           ("analysis_parameter", VStr "moisture");
           ("analysis_value", num 118 10)]]
    by (vm_compute; reflexivity).
  unfold dict_in. cbn [filter get String.eqb Ascii.eqb Bool.eqb py_str].
  destruct (dict_get (VStr "S1") samples_map) as [sid|] eqn:E.
  - cbn [comprehension]. unfold bind, uuid4, subscript, ret.
    cbn [get String.eqb Ascii.eqb Bool.eqb py_str]. rewrite E.
    eexists. eexists. split; [reflexivity|]. split; reflexivity.
  - eexists. eexists. split; [reflexivity|]. split; reflexivity.
Qed.

(** C4 fails on the code.  The sample number S1 occurs on two dates.  The
    raw-material service stores both samples, then resolves the samples of
    the analysis results through a map keyed by the sample number alone: the
    result of date 1 is attached to the sample of date 2 (and, whatever the
    map holds, both results get the one sample the map gives for S1).  The
    finished-product service resolves the same way, and its store, whose
    foreign key is the pair of sample id and date, refuses the result of
    date 1: the load fails and no analysis result is stored. *)
Theorem analysis_results_resolved_by_sample_number_alone :
  forall (samples_map : pydict) (w : world),
    let rm := snd (RM.insert_to_db demo rm_frame_same_number_two_dates
                     empty_world) in
    let fp := FP.update_to_db demo fp_frame_same_number_two_dates empty_world in
    table "samples" (committed rm)
    = [rm_sample 3 0 1 2 "S1" 1; rm_sample 4 0 1 2 "S1" 2]
    /\ table "analysis_results" (committed rm)
       = [rm_result 5 4 "moisture" (num 125 10) 1;
          rm_result 6 4 "moisture" (num 118 10) 2]
    /\ fst fp = Raise IntegrityError
    /\ row_counts (committed (snd fp))
       = [("materials", 1); ("plants", 1); ("formula", 1); ("samples", 2)]
    /\ exists results w',
         RM.prepare_analysis_results demo rm_frame_same_number_two_dates
           samples_map w
         = (Ret results, w')
         /\ map (get "sample_id") results
            = match dict_get (VStr "S1") samples_map with
              | Some sample_id => [sample_id; sample_id]
              | None => []
              end
         /\ map (get "valuation_date") results
            = match dict_get (VStr "S1") samples_map with
              | Some _ => [VDate 1; VDate 2]
              | None => []
              end.
Proof.
  intros samples_map w.
  repeat split; try (vm_compute; reflexivity).
  apply same_number_same_sample.
Qed.

(** C5 fails on the code.  The second row names a material that is not in
    the material mapping.  The row is left out of the samples, and the first
    row is processed; but the sample number of the second row is that of a
    stored sample, so its analysis result (11.8, of date 2) is produced and
    stored, attached to the sample of the first row. *)
Theorem unresolved_row_still_yields_analysis_results :
  let rm := RM.insert_to_db demo rm_frame_second_material_unresolved empty_world in
  fst rm = Ret tt
  /\ table "materials" (committed (snd rm)) = [rm_material 0 "M1" "maize"]
  /\ table "samples" (committed (snd rm)) = [rm_sample 4 0 2 3 "S1" 1]
  /\ table "analysis_results" (committed (snd rm))
     = [rm_result 5 4 "moisture" (num 125 10) 1;
        rm_result 6 4 "moisture" (num 118 10) 2].
Proof. repeat split; vm_compute; reflexivity. Qed.

(** ** The wide-to-long reshape *)


















(** ** Normalizing the numeric columns *)

Lemma get_put_same (c : string) (v : value) (r : row) : get c (put c v r) = v.
Proof.
  induction r as [|[k w] t IH]; simpl.
  - now rewrite String.eqb_refl.
  - destruct (String.eqb c k) eqn:E; simpl; rewrite E; auto.
Qed.

Lemma get_put_other (c c' : string) (v : value) (r : row) :
  c <> c' -> get c (put c' v r) = get c r.
Proof.
  intros Hne. apply String.eqb_neq in Hne.
  induction r as [|[k w] t IH]; simpl.
  - now rewrite Hne.
  - destruct (String.eqb c' k) eqn:E; simpl.
    + apply String.eqb_eq in E. subst k. now rewrite Hne.
    + destruct (String.eqb c k); auto.
Qed.

Lemma has_key_put (c c' : string) (v : value) (r : row) :
  has_key c r = true -> has_key c (put c' v r) = true.
Proof.
  induction r as [|[k w] t IH]; [discriminate|].
  rewrite has_key_cons. simpl.
  destruct (String.eqb c' k) eqn:E; rewrite has_key_cons; auto.
  destruct (String.eqb c k); simpl; auto.
Qed.

Lemma length_set_column (c : string) (col : list value) (df : frame) :
  List.length col = List.length df ->
  List.length (set_column c col df) = List.length df.
Proof.
  intros H. unfold set_column. rewrite length_map, length_combine. lia.
Qed.

Lemma column_set_column_same (c : string) (col : list value) (df : frame) :
  List.length col = List.length df -> column c (set_column c col df) = col.
Proof.
  unfold column, set_column. revert col.
  induction df as [|r t IH]; intros [|v col]; simpl; try discriminate; auto.
  intros H. rewrite get_put_same. f_equal. apply IH. lia.
Qed.



Lemma convert_all_length (f : value -> option value) (col c : list value) :
  convert_all f col = Some c -> List.length c = List.length col.
Proof.
  revert c. induction col as [|v t IH]; simpl; intros c H.
  - inversion H. reflexivity.
  - destruct (f v); [|discriminate].
    destruct (convert_all f t) as [t'|]; [|discriminate].
    inversion H. simpl. f_equal. now apply IH.
Qed.

Lemma convert_all_numeric (X : externals) (col c : list value) :
  convert_all (numeric_cell X) col = Some c ->
  c = map (to_numeric_coerce X) col.
Proof.
  revert c. induction col as [|v t IH]; simpl; intros c H.
  - now inversion H.
  - unfold to_numeric_coerce at 1.
    destruct (numeric_cell X v); [|discriminate].
    destruct (convert_all (numeric_cell X) t) as [t'|]; [|discriminate].
    inversion H. f_equal. now apply IH.
Qed.

Lemma convert_all_datetime (X : externals) (col c : list value) :
  convert_all (datetime_cell X) col = Some c ->
  c = map (to_datetime_coerce X) col.
Proof.
  revert c. induction col as [|v t IH]; simpl; intros c H.
  - now inversion H.
  - unfold to_datetime_coerce at 1.
    destruct (datetime_cell X v); [|discriminate].
    destruct (convert_all (datetime_cell X) t) as [t'|]; [|discriminate].
    inversion H. f_equal. now apply IH.
Qed.

(** With [errors='coerce'] the parsers return, cell by cell. *)
Lemma to_numeric_coerce_ret (X : externals) (col : list value) :
  to_numeric X errors_coerce col = Ret (map (to_numeric_coerce X) col).
Proof.
  unfold to_numeric.
  destruct (convert_all (numeric_cell X) col) eqn:E; simpl; auto.
  now rewrite (convert_all_numeric X col l E).
Qed.

Lemma to_datetime_coerce_ret (X : externals) (col : list value) :
  to_datetime X errors_coerce col = Ret (map (to_datetime_coerce X) col).
Proof.
  unfold to_datetime.
  destruct (convert_all (datetime_cell X) col) eqn:E; simpl; auto.
  now rewrite (convert_all_datetime X col l E).
Qed.

(** With [errors='ignore'] [astype] returns: the converted column, or the
    column as it was. *)
Lemma astype_ignore_ret (X : externals) (dt : dtype) (col : list value) :
  exists c, astype X dt errors_ignore col = Ret c
            /\ List.length c = List.length col
            /\ (dt = float64 ->
                c = match convert_all (numeric_cell X) col with
                    | Some c' => c'
                    | None => col
                    end).
Proof.
  destruct dt; simpl.
  - destruct (convert_all (numeric_cell X) col) eqn:E; eexists; split; eauto.
    split; auto. now apply convert_all_length in E.
  - eexists. split; eauto. split; [now rewrite length_map|discriminate].
  - destruct (convert_all (datetime_cell X) col) eqn:E; eexists; split; eauto;
      (split; [|discriminate]); auto.
    now apply convert_all_length in E.
Qed.

Lemma length_column (c : string) (df : frame) :
  List.length (column c df) = List.length df.
Proof. unfold column. apply length_map. Qed.


















Lemma fold_enforce_raise (X : externals) (schema : list (string * dtype))
    (e : exn) :
  fold_left
    (fun (acc : outcome frame) (item : string * dtype) =>
       obind acc (RM.enforce_column X (fst item) (snd item)))
    schema (Raise e)
  = Raise e.
Proof. induction schema; simpl; auto. Qed.









(** * Further properties of the code *)

(** ** Store invariants along a computation *)

Section Preserves.

Variable I : world -> Prop.
Variable P : world -> world -> Prop.
Hypothesis P_refl : forall w, P w w.
Hypothesis P_trans : forall a b c, P a b -> P b c -> P a c.

Lemma preserves_reads_only {A : Type} (c : M A) :
  reads_only c -> preserves I P c.
Proof. intros H w Hw. rewrite H. split; auto. Qed.

Lemma preserves_bind {A B : Type} (c : M A) (k : A -> M B) :
  preserves I P c -> (forall a, preserves I P (k a)) -> preserves I P (bind c k).
Proof.
  intros Hc Hk w Hw. unfold bind. specialize (Hc w Hw).
  destruct (c w) as [[a|e] w1]; simpl in Hc; [|exact Hc].
  destruct Hc as [C1 R1]. destruct (Hk a w1 C1) as [C2 R2].
  split; auto. eapply P_trans; eauto.
Qed.

Lemma preserves_try_except {A : Type} (body : M A) (h : exn -> M A) :
  preserves I P body -> (forall e, preserves I P (h e)) ->
  preserves I P (try_except body h).
Proof.
  intros Hb Hh w Hw. unfold try_except. specialize (Hb w Hw).
  destruct (body w) as [[a|e] w1]; simpl in Hb; [exact Hb|].
  destruct Hb as [C1 R1]. destruct (Hh e w1 C1) as [C2 R2].
  split; auto. eapply P_trans; eauto.
Qed.

Lemma preserves_try_finally {A : Type} (body : M A) (final : M unit) :
  preserves I P body -> preserves I P final ->
  preserves I P (try_finally body final).
Proof.
  intros Hb Hf w Hw. unfold try_finally. specialize (Hb w Hw).
  destruct (body w) as [[a|e] w1]; simpl in Hb; destruct Hb as [C1 R1];
    specialize (Hf w1 C1); destruct (final w1) as [[u|e'] w2];
    simpl in Hf; destruct Hf as [C2 R2]; simpl; split; auto;
    eapply P_trans; eauto.
Qed.

Lemma preserves_for_each {A : Type} (f : A -> M unit) (xs : list A) :
  (forall x, preserves I P (f x)) -> preserves I P (for_each f xs).
Proof.
  intros Hf. induction xs as [|x t IH]; simpl.
  - apply preserves_reads_only. now intros w.
  - apply preserves_bind; auto.
Qed.

Lemma preserves_comprehension {A B : Type} (f : A -> M B) (xs : list A) :
  (forall x, preserves I P (f x)) -> preserves I P (comprehension f xs).
Proof.
  intros Hf. induction xs as [|x t IH]; simpl.
  - apply preserves_reads_only. now intros w.
  - apply preserves_bind; auto. intros y. apply preserves_bind; auto.
    intros ys. apply preserves_reads_only. now intros w.
Qed.

End Preserves.

Lemma reads_only_ret {A : Type} (a : A) : reads_only (ret a).
Proof. now intros w. Qed.

Lemma reads_only_raise {A : Type} (e : exn) : reads_only (@raise A e).
Proof. now intros w. Qed.

Lemma reads_only_query_all (m : model) : reads_only (query_all m).
Proof. now intros w. Qed.

Lemma reads_only_subscript (d : pydict) (k : value) : reads_only (subscript d k).
Proof. intros w. unfold subscript. now destruct (dict_get k d). Qed.

Lemma reads_only_read_parquet (path : string) : reads_only (read_parquet path).
Proof. intros w. unfold read_parquet. now destruct (find _ (files w)). Qed.

(** The control structure of a computation, taken apart down to the calls
    the caller has a lemma for. *)
Ltac along Hr Ht :=
  repeat first
    [ apply (preserves_reads_only _ _ Hr);
      first [ apply reads_only_ret | apply reads_only_raise
            | apply reads_only_query_all | apply reads_only_subscript
            | apply reads_only_read_parquet ]
    | apply (preserves_for_each _ _ Hr Ht); intro
    | apply (preserves_comprehension _ _ Hr Ht); intro
    | apply (preserves_try_except _ _ Ht); [|intro]
    | apply (preserves_try_finally _ _ Ht)
    | apply (preserves_bind _ _ Ht); [|intro] ].

Section GrowsAlong.

Variable R : db -> db -> Prop.
Hypothesis R_refl : forall d, R d d.
Hypothesis R_trans : forall a b c, R a b -> R b c -> R a c.

Lemma moves_refl (w : world) : R (committed w) (committed w).
Proof. apply R_refl. Qed.

Lemma moves_trans (a b c : world) :
  R (committed a) (committed b) -> R (committed b) (committed c) ->
  R (committed a) (committed c).
Proof. apply R_trans. Qed.

Lemma grows_uuid4 : grows R uuid4.
Proof. intros w Hw. unfold uuid4. simpl. split; auto. Qed.

Lemma grows_commit : grows R commit.
Proof.
  intros w Hw. unfold commit, clean in *. simpl. rewrite Hw. split; auto.
Qed.

Lemma grows_rollback : grows R rollback.
Proof. intros w Hw. unfold rollback, clean in *. simpl. split; auto. Qed.

Lemma grows_shutil_move (src dst : string) : grows R (shutil_move src dst).
Proof.
  intros w Hw. unfold shutil_move.
  destruct (find _ (files w)); simpl; split; auto.
Qed.

End GrowsAlong.



Lemma keeps_ids_refl (schema : list model) (d : db) : keeps_ids schema d d.
Proof. intros m _. exists []. now rewrite app_nil_r. Qed.

Lemma keeps_ids_trans (schema : list model) (a b c : db) :
  keeps_ids schema a b -> keeps_ids schema b c -> keeps_ids schema a c.
Proof.
  intros H1 H2 m Hm. destruct (H1 m Hm) as (e1 & E1).
  destruct (H2 m Hm) as (e2 & E2).
  exists (e1 ++ e2). now rewrite E2, E1, app_assoc.
Qed.

(** ** The raw-material service only appends *)

Lemma pg_insert_do_nothing_inv (schema : list model) (m : model) (vals : row)
    (d d' : db) :
  pg_insert schema m vals DoNothing d = Ok d' ->
  d' = d
  \/ d' = set_table (tablename m) (table (tablename m) d ++ [proposed m vals]) d.
Proof.
  unfold pg_insert. destruct (negb _); [discriminate|]. cbv zeta.
  destruct (existsb _ (not_nullable m)); [discriminate|].
  destruct (existsb _ (unique_indexes m)).
  - intros H. inversion H. auto.
  - unfold insert_row. destruct (forallb _ _); intros H; inversion H. auto.
Qed.

Lemma execute_ret_inv (schema : list model) (m : model) (vals : row)
    (oc : on_conflict) (w w1 : world) (a : unit) :
  execute schema m vals oc w = (Ret a, w1) ->
  exists vals',
    pg_insert schema m vals' oc (working w) = Ok (working w1)
    /\ committed w1 = committed w /\ files w1 = files w.
Proof.
  unfold execute, bind.
  destruct (fill_defaults_store (uuid_defaults m) vals w) as (v' & n & E).
  rewrite E. simpl.
  destruct (pg_insert schema m v' oc (working w)) eqn:P;
    intros H; inversion H; subst.
  exists v'. simpl. auto.
Qed.


(** One call of [check_and_insert] with the flag off, from a clean session:
    the committed store is what it was, or the table has one more row at
    its end. *)
Lemma RM_check_and_insert_step (m : model) (filters values : row) (w : world) :
  clean w ->
  let w' := snd (RM.check_and_insert m filters values false w) in
  clean w'
  /\ (committed w' = committed w
      \/ exists new,
           committed w'
           = set_table (tablename m)
               (table (tablename m) (committed w) ++ [new]) (committed w)).
Proof.
  intros Hw w'. subst w'. split; [apply RM_check_and_insert_clean|].
  pose proof (RM_check_and_insert_cases m filters values false w) as H.
  cbv zeta in H.
  destruct (execute RM.schema m (fst (RM.statement m filters values false))
              (snd (RM.statement m filters values false)) w)
    as [[a|e] w1] eqn:E; rewrite H; simpl.
  - apply execute_ret_inv in E. destruct E as (v' & P & _).
    change (snd (RM.statement m filters values false)) with DoNothing in P.
    apply pg_insert_do_nothing_inv in P. unfold clean in Hw. rewrite Hw in P.
    destruct P as [P|P]; rewrite P; eauto.
  - apply execute_raise_store in E. tauto.
Qed.



(** X1.  [check_and_insert] of the raw-material service, called with
    [update_on_conflict] off from a clean session, never changes, removes or
    reorders a stored row: every table afterwards begins with the rows it
    had, at most one row is added, and only to the table written to.  The
    session is clean again afterwards. *)
Theorem RM_check_and_insert_only_appends :
  forall (m : model) (filters values : row) (w : world),
    clean w ->
    let w' := snd (RM.check_and_insert m filters values false w) in
    clean w'
    /\ forall t,
         exists extra,
           table t (committed w') = table t (committed w) ++ extra
           /\ (List.length extra <= 1)%nat
           /\ (t <> tablename m -> extra = []).
Proof.
  intros m filters values w Hw w'.
  destruct (RM_check_and_insert_step m filters values w Hw) as [C [E|(new & E)]];
    fold w' in C, E; split; auto; intros t; rewrite E.
  - exists []. rewrite app_nil_r. simpl. auto.
  - destruct (String.eqb t (tablename m)) eqn:Et.
    + apply String.eqb_eq in Et. subst t. exists [new].
      rewrite table_set_table. simpl. repeat split; auto. congruence.
    + exists []. rewrite app_nil_r, table_set_table_other by exact Et.
      simpl. auto.
Qed.

(** A use of X1: the material M2 is written to a store that holds M1. *)
Lemma RM_check_and_insert_only_appends_witness :
  clean (store_world rm_store_M1)
  /\ exists extra,
       table "materials"
         (committed
            (snd (RM.check_and_insert RM.Material [("material_code", VStr "M2")]
                    (vars (rm_material 5 "M2" "bran")) false
                    (store_world rm_store_M1))))
       = table "materials" (committed (store_world rm_store_M1)) ++ extra
       /\ (List.length extra <= 1)%nat.
Proof.
  split; [reflexivity|].
  destruct (RM_check_and_insert_only_appends RM.Material
              [("material_code", VStr "M2")] (vars (rm_material 5 "M2" "bran"))
              (store_world rm_store_M1) eq_refl) as [_ H].
  destruct (H "materials") as (extra & E & L & _).
  exists extra. split; [exact E|exact L].
Defined.

Section Loads.

Variable I : world -> Prop.
Variable P : world -> world -> Prop.
Hypothesis P_refl : forall w, P w w.
Hypothesis P_trans : forall a b c, P a b -> P b c -> P a c.
Hypothesis P_uuid4 : preserves I P uuid4.
Hypothesis P_commit : preserves I P commit.
Hypothesis P_rollback : preserves I P rollback.


Hypothesis P_RM_check_and_insert :
  forall m filters values,
    preserves I P (RM.check_and_insert m filters values false).


End Loads.

Lemma keeps_files_uuid4 : keeps_files uuid4.
Proof. now intros w _. Qed.

Lemma keeps_files_commit : keeps_files commit.
Proof. now intros w _. Qed.

Lemma keeps_files_rollback : keeps_files rollback.
Proof. now intros w _. Qed.





(** ** The finished-product service keeps the stored ids *)

Lemma pg_insert_do_update_inv (schema : list model) (m : model) (vals : row)
    (idx cols : list string) (d d' : db) :
  pg_insert schema m vals (DoUpdate idx cols) d = Ok d' ->
  d' = set_table (tablename m)
         (map (fun x => if same_key idx (proposed m vals) x
                        then assign cols (proposed m vals) x else x)
              (table (tablename m) d))
         d
  \/ d' = set_table (tablename m) (table (tablename m) d ++ [proposed m vals]) d.
Proof.
  unfold pg_insert. destruct (negb (forallb _ vals)); [discriminate|]. cbv zeta.
  destruct (existsb _ (not_nullable m)); [discriminate|].
  destruct (negb (existsb (same_columns idx) _)); [discriminate|].
  destruct (existsb (same_key idx _) _).
  - destruct (forallb _ _); intros H; inversion H. auto.
  - destruct (existsb _ (unique_indexes m)); [discriminate|].
    unfold insert_row. destruct (forallb _ _); intros H; inversion H. auto.
Qed.

Lemma key_of_assign (U cols : list string) (new x : row) :
  (forall c, In c U -> mem c cols = false) ->
  key_of U (assign cols new x) = key_of U x.
Proof.
  intros H. unfold key_of. apply map_ext_in. intros c Hc.
  now rewrite get_assign, (H c Hc).
Qed.

Lemma keeps_ids_append (schema : list model) (m : model) (new : row) (d : db) :
  keeps_ids schema d
    (set_table (tablename m) (table (tablename m) d ++ [new]) d).
Proof.
  intros m' _. unfold stored_ids.
  destruct (String.eqb (tablename m') (tablename m)) eqn:E.
  - apply String.eqb_eq in E. rewrite E, table_set_table, map_app. eauto.
  - rewrite table_set_table_other by exact E. exists []. now rewrite app_nil_r.
Qed.

Lemma keeps_ids_update (schema : list model) (m : model) (f : row -> row)
    (d : db) :
  (forall m', In m' schema -> tablename m' = tablename m ->
              forall x, key_of (primary_key m') (f x) = key_of (primary_key m') x) ->
  keeps_ids schema d (set_table (tablename m) (map f (table (tablename m) d)) d).
Proof.
  intros H m' Hm'. unfold stored_ids. exists []. rewrite app_nil_r.
  destruct (String.eqb (tablename m') (tablename m)) eqn:E.
  - apply String.eqb_eq in E. rewrite E, table_set_table, map_map.
    apply map_ext. intros x. now apply H.
  - now rewrite table_set_table_other by exact E.
Qed.

Lemma execute_commit_inv (schema : list model) (m : model) (vals : row)
    (oc : on_conflict) (w w' : world) (a : unit) :
  (execute schema m vals oc ;;; commit) w = (Ret a, w') ->
  exists vals',
    pg_insert schema m vals' oc (working w) = Ok (working w')
    /\ committed w' = working w' /\ files w' = files w
    /\ (forallb (fun c => has_key c vals) (uuid_defaults m) = true ->
        vals' = vals /\ uuid_next w' = uuid_next w).
Proof.
  unfold bind, execute at 1. unfold bind.
  destruct (fill_defaults (uuid_defaults m) vals w) as [[v'|e] w0] eqn:F.
  - destruct (fill_defaults_store (uuid_defaults m) vals w) as (v2 & n & E).
    rewrite E in F. inversion F. subst v2 w0. simpl.
    destruct (pg_insert schema m v' oc (working w)) eqn:P; [|discriminate].
    unfold commit. simpl. intros H. inversion H. subst. simpl.
    exists v'. repeat split; auto;
      rewrite (fill_defaults_present _ _ _ H0) in E; inversion E; auto.
  - destruct (fill_defaults_store (uuid_defaults m) vals w) as (v2 & n & E).
    rewrite E in F. discriminate.
Qed.

Lemma FP_schema_names (m' : model) (c : FP.orm_class) :
  In m' FP.schema -> In c fp_classes ->
  tablename m' = tablename (FP.mapped c) -> m' = FP.mapped c.
Proof.
  simpl.
  intros [<-|[<-|[<-|[<-|[<-|[]]]]]] [<-|[<-|[<-|[<-|[<-|[]]]]]];
    simpl; intros E; first [reflexivity | discriminate].
Qed.

(** What an upsert that returned has done: one statement with a conflict
    target, whose update set leaves the primary key alone, was executed on
    the session's view and committed. *)
Lemma FP_upsert_inv (c : FP.orm_class) (kwargs : row) (w w' : world) (a : unit) :
  In c fp_classes ->
  FP.upsert c kwargs w = (Ret a, w') ->
  exists vals idx cols,
    pg_insert FP.schema (FP.mapped c) vals (DoUpdate idx cols) (working w)
    = Ok (working w')
    /\ committed w' = working w' /\ files w' = files w
    /\ (forall col, In col (primary_key (FP.mapped c)) -> mem col cols = false).
Proof.
  intros Hc. simpl in Hc.
  destruct Hc as [<-|[<-|[<-|[<-|[<-|[]]]]]]; simpl FP.upsert; simpl FP.mapped.
  - unfold FP.Material_upsert. unfold bind at 1.
    destruct (drop_claimed_old_code_cases kwargs w) as (k' & E & _). rewrite E.
    intros H. apply execute_commit_inv in H. destruct H as (v & H1 & H2 & H3 & _).
    exists v. do 2 eexists. repeat split; eauto.
    intros col [<-|[]]; reflexivity.
  - unfold FP.Plants_upsert.
    intros H. apply execute_commit_inv in H. destruct H as (v & H1 & H2 & H3 & _).
    exists v. do 2 eexists. repeat split; eauto.
    intros col [<-|[]]; reflexivity.
  - unfold FP.Formula_upsert.
    intros H. apply execute_commit_inv in H. destruct H as (v & H1 & H2 & H3 & _).
    exists v. do 2 eexists. repeat split; eauto.
    intros col [<-|[]]; reflexivity.
  - unfold FP.Samples_upsert.
    intros H. apply execute_commit_inv in H. destruct H as (v & H1 & H2 & H3 & _).
    exists v. do 2 eexists. repeat split; eauto.
    intros col [<-|[<-|[]]]; reflexivity.
  - unfold FP.AnalysisResults_upsert.
    intros H. apply execute_commit_inv in H. destruct H as (v & H1 & H2 & H3 & _).
    exists v. do 2 eexists. repeat split; eauto.
    intros col [<-|[]]; reflexivity.
Qed.

Lemma grows_FP_upsert (c : FP.orm_class) (kwargs : row) :
  In c fp_classes -> grows (keeps_ids FP.schema) (FP.upsert c kwargs).
Proof.
  intros Hc w Hw. unfold clean in *.
  destruct (FP.upsert c kwargs w) as [[a|e] w'] eqn:E; simpl.
  - destruct (FP_upsert_inv c kwargs w w' a Hc E)
      as (vals & idx & cols & P & C & _ & Hpk).
    split; [now symmetry|]. rewrite C, <- Hw.
    apply pg_insert_do_update_inv in P. destruct P as [P|P]; rewrite P.
    + apply keeps_ids_update. intros m' Hm' En x.
      rewrite (FP_schema_names m' c Hm' Hc En).
      destruct (same_key idx _ x); auto. now apply key_of_assign.
    + apply keeps_ids_append.
  - apply FP_upsert_raise in E; auto. destruct E as [E1 E2].
    split; [congruence|]. rewrite E1. apply keeps_ids_refl.
Qed.

Lemma execute_commit_raise_files (schema : list model) (m : model) (vals : row)
    (oc : on_conflict) (w w' : world) (e : exn) :
  (execute schema m vals oc ;;; commit) w = (Raise e, w') -> files w' = files w.
Proof.
  unfold bind. destruct (execute schema m vals oc w) as [[u|e'] w1] eqn:E.
  - unfold commit. discriminate.
  - intros H. inversion H. subst. apply execute_raise_store in E. tauto.
Qed.

Lemma keeps_files_FP_upsert (c : FP.orm_class) (kwargs : row) :
  In c fp_classes -> keeps_files (FP.upsert c kwargs).
Proof.
  intros Hc w _. split; auto.
  destruct (FP.upsert c kwargs w) as [[a|e] w'] eqn:E; simpl.
  - destruct (FP_upsert_inv c kwargs w w' a Hc E) as (v & i & k & _ & _ & F & _).
    exact F.
  - revert E. simpl in Hc.
    destruct Hc as [<-|[<-|[<-|[<-|[<-|[]]]]]]; simpl FP.upsert;
      try (apply execute_commit_raise_files).
    unfold FP.Material_upsert. unfold bind at 1.
    destruct (drop_claimed_old_code_cases kwargs w) as (k' & E' & _). rewrite E'.
    apply execute_commit_raise_files.
Qed.

(** X3.  An upsert of the finished-product models never removes a stored
    row and never changes the primary key of one: for each of the five
    mapped classes, from a clean session, the list of primary keys of every
    table afterwards begins with the list it was, whether the upsert returns
    or raises; the session is clean again afterwards. *)
Theorem FP_upsert_keeps_stored_ids :
  forall (c : FP.orm_class) (kwargs : row) (w : world),
    In c fp_classes ->
    clean w ->
    clean (snd (FP.upsert c kwargs w))
    /\ keeps_ids FP.schema (committed w) (committed (snd (FP.upsert c kwargs w))).
Proof.
  intros c kwargs w Hc Hw. now apply grows_FP_upsert.
Qed.

(** A use of X3: the plant 1010 is on file and is upserted under another
    id and name; the stored id stays. *)
Lemma FP_upsert_keeps_stored_ids_witness :
  In FP.PlantsC fp_classes
  /\ clean (store_world fp_store_plants)
  /\ stored_ids FP.Plants
       (committed (snd (FP.upsert FP.PlantsC (fp_plant 8 "1010" "Feed mill 1")
                          (store_world fp_store_plants))))
     = [[VUuid 1]]
  /\ keeps_ids FP.schema fp_store_plants
       (committed (snd (FP.upsert FP.PlantsC (fp_plant 8 "1010" "Feed mill 1")
                          (store_world fp_store_plants)))).
Proof.
  split; [simpl; tauto|]. split; [reflexivity|]. split; [reflexivity|].
  apply (FP_upsert_keeps_stored_ids FP.PlantsC (fp_plant 8 "1010" "Feed mill 1")
           (store_world fp_store_plants)).
  - simpl. tauto.
  - reflexivity.
Defined.

Lemma reads_only_blank_to_none (x : value) : reads_only (FP.blank_to_none x).
Proof.
  intros w. destruct x; simpl; auto. now destruct (negb _).
Qed.

Lemma reads_only_listdir (folder : string) : reads_only (FP.listdir folder).
Proof. now intros w. Qed.

Section LoadsFP.

Variable I : world -> Prop.
Variable P : world -> world -> Prop.
Hypothesis P_refl : forall w, P w w.
Hypothesis P_trans : forall a b c, P a b -> P b c -> P a c.
Hypothesis P_uuid4 : preserves I P uuid4.
Hypothesis P_commit : preserves I P commit.
Hypothesis P_rollback : preserves I P rollback.

Lemma preserves_FP_prepare (X : externals) (data : frame) (mm pm fm : pydict) :
  preserves I P (FP.prepare_materials data)
  /\ preserves I P (FP.prepare_plants X data)
  /\ preserves I P (FP.prepare_formula data)
  /\ preserves I P (FP.prepare_samples X data mm pm fm)
  /\ preserves I P (FP.prepare_analysis_results X data mm).
Proof.
  unfold FP.prepare_materials, FP.prepare_plants, FP.prepare_formula,
    FP.prepare_samples, FP.prepare_analysis_results.
  repeat apply conj;
    try (destruct (negb (in_columns "formula_name" data)));
    repeat first
      [ apply P_uuid4
      | apply (preserves_reads_only _ _ P_refl), reads_only_blank_to_none
      | progress (along P_refl P_trans) ].
Qed.

Hypothesis P_FP_check_and_insert :
  forall c unique_filter obj,
    In c fp_classes -> preserves I P (FP.check_and_insert c unique_filter obj).

Lemma preserves_FP_update_to_db (X : externals) (data : frame) :
  preserves I P (FP.update_to_db X data).
Proof.
  pose proof (fun mm pm fm => preserves_FP_prepare X data mm pm fm) as Q.
  unfold FP.update_to_db.
  apply (preserves_bind _ _ P_trans); [apply P_rollback|intro].
  apply (preserves_try_finally _ _ P_trans); [|apply P_rollback].
  apply (preserves_try_except _ _ P_trans);
    [|intro; repeat first [ apply P_rollback | progress (along P_refl P_trans) ]].
  repeat first
    [ apply P_FP_check_and_insert; simpl; tauto
    | apply P_commit
    | apply (Q [] [] [])
    | match goal with
      | |- preserves _ _ (FP.prepare_samples _ _ ?a ?b ?c) => apply (Q a b c)
      | |- preserves _ _ (FP.prepare_analysis_results _ _ ?a) => apply (Q a [] [])
      end
    | apply (preserves_reads_only _ _ P_refl); apply reads_only_query_all
    | apply (preserves_for_each _ _ P_refl P_trans); intro
    | apply (preserves_bind _ _ P_trans); [|intro] ].
Qed.

End LoadsFP.

Section FilesFP.

Variable I : world -> Prop.
Variable P : world -> world -> Prop.
Hypothesis P_refl : forall w, P w w.
Hypothesis P_trans : forall a b c, P a b -> P b c -> P a c.
Hypothesis P_update_to_db :
  forall X data, preserves I P (FP.update_to_db X data).
Hypothesis P_shutil_move : forall src dst, preserves I P (shutil_move src dst).


End FilesFP.

Lemma grows_FP_check_and_insert (c : FP.orm_class) (unique_filter obj : row) :
  In c fp_classes ->
  grows (keeps_ids FP.schema) (FP.check_and_insert c unique_filter obj).
Proof.
  intros Hc. unfold FP.check_and_insert.
  apply preserves_try_except.
  - intros a b d. apply keeps_ids_trans.
  - now apply grows_FP_upsert.
  - intros e. apply preserves_reads_only; [|apply reads_only_raise].
    intros w. apply keeps_ids_refl.
Qed.

Lemma keeps_files_FP_check_and_insert (c : FP.orm_class)
    (unique_filter obj : row) :
  In c fp_classes -> keeps_files (FP.check_and_insert c unique_filter obj).
Proof.
  intros Hc. unfold FP.check_and_insert.
  apply preserves_try_except.
  - intros a b d H1 H2. congruence.
  - now apply keeps_files_FP_upsert.
  - intros e. apply preserves_reads_only; [reflexivity|apply reads_only_raise].
Qed.

Lemma grows_FP_update_to_db (X : externals) (data : frame) :
  grows (keeps_ids FP.schema) (FP.update_to_db X data).
Proof.
  apply preserves_FP_update_to_db.
  - intros w. apply keeps_ids_refl.
  - intros a b c. apply keeps_ids_trans.
  - apply grows_uuid4, keeps_ids_refl.
  - apply grows_commit, keeps_ids_refl.
  - apply grows_rollback, keeps_ids_refl.
  - intros. now apply grows_FP_check_and_insert.
Qed.

Lemma keeps_files_FP_update_to_db (X : externals) (data : frame) :
  keeps_files (FP.update_to_db X data).
Proof.
  apply preserves_FP_update_to_db.
  - reflexivity.
  - intros a b c H1 H2. congruence.
  - apply keeps_files_uuid4.
  - apply keeps_files_commit.
  - apply keeps_files_rollback.
  - intros. now apply keeps_files_FP_check_and_insert.
Qed.

(** [update_to_db] opens a session of its own: what the caller's session
    had not committed plays no part. *)
Lemma FP_update_to_db_new_session (X : externals) (data : frame) (w : world) :
  FP.update_to_db X data w = FP.update_to_db X data (snd (rollback w)).
Proof. reflexivity. Qed.

Lemma FP_update_to_db_from_any (X : externals) (data : frame) (w : world) :
  clean (snd (FP.update_to_db X data w))
  /\ keeps_ids FP.schema (committed w) (committed (snd (FP.update_to_db X data w))).
Proof.
  rewrite FP_update_to_db_new_session.
  now apply (grows_FP_update_to_db X data (snd (rollback w))).
Qed.

(** X4.  A load of the finished-product service, from any session and
    whether it returns or raises, never removes a stored row and never
    changes the primary key of one: the list of primary keys of every table
    afterwards begins with the list it was.  The session it leaves is clean:
    what a failed load had not committed is gone, what it had committed
    stays. *)
Theorem FP_update_to_db_keeps_stored_ids :
  forall (X : externals) (data : frame) (w : world),
    clean (snd (FP.update_to_db X data w))
    /\ keeps_ids FP.schema (committed w)
         (committed (snd (FP.update_to_db X data w))).
Proof. intros X data w. apply FP_update_to_db_from_any. Qed.

Lemma succeeds_swallowed (body : M unit) :
  succeeds (try_except body (fun _ => ret tt)).
Proof.
  intros w. unfold try_except. destruct (body w) as [[a|e] w1]; unfold ret; eauto.
Qed.



(** ** Where the files go *)


(** X7.  [process_all_files] of the finished-product service on a folder
    that holds one parquet file: the file is moved to the complete folder
    exactly when its load returned; when the load raised, at whatever row,
    the file is where it was. *)
Theorem FP_process_all_files_moves_loaded_file :
  forall (X : externals) (folder_path complete_folder name : string)
         (data : frame) (w : world),
    files w = [(path_join folder_path name, data)] ->
    basename (path_join folder_path name) = name ->
    endswith ".parquet" (lower name) = true ->
    files (snd (FP.process_all_files X folder_path complete_folder w))
    = match fst (FP.update_to_db X data w) with
      | Ret _ => [(path_join complete_folder name, data)]
      | Raise _ => [(path_join folder_path name, data)]
      end.
Proof.
  intros X folder_path complete_folder name data w Hfiles Hbase Hends.
  unfold FP.process_all_files, FP.listdir, bind.
  rewrite Hfiles. cbn [map filter fst]. rewrite Hbase, String.eqb_refl.
  cbn [map for_each]. rewrite Hbase, Hends.
  unfold FP.load_data, try_except, bind, read_parquet. rewrite Hfiles.
  cbn [find fst snd]. rewrite String.eqb_refl. cbn [snd].
  destruct (keeps_files_FP_update_to_db X data w Logic.I) as [_ Hkeep].
  destruct (FP.update_to_db X data w) as [[u|e] w1]; simpl in *.
  - unfold shutil_move. rewrite Hkeep, Hfiles. cbn [find fst snd].
    rewrite String.eqb_refl. cbn. rewrite String.eqb_refl. reflexivity.
  - now rewrite Hkeep.
Qed.

(** A use of X7: the one-sample file in the clean-file folder, an empty
    store. *)
Lemma FP_process_all_files_moves_loaded_file_witness :
  files (world_with_file fp_clean_file fp_frame_one_sample)
  = [(path_join fp_clean_folder "lab.parquet", fp_frame_one_sample)]
  /\ basename (path_join fp_clean_folder "lab.parquet") = "lab.parquet"
  /\ endswith ".parquet" (lower "lab.parquet") = true
  /\ files (snd (FP.process_all_files demo fp_clean_folder fp_complete_folder
                   (world_with_file fp_clean_file fp_frame_one_sample)))
     = [(fp_complete_file, fp_frame_one_sample)].
Proof.
  split; [reflexivity|]. split; [reflexivity|]. split; [reflexivity|].
  rewrite (FP_process_all_files_moves_loaded_file demo fp_clean_folder
             fp_complete_folder "lab.parquet" fp_frame_one_sample
             (world_with_file fp_clean_file fp_frame_one_sample)
             eq_refl eq_refl eq_refl).
  reflexivity.
Defined.

(** ** What a finished-product write can raise *)

Lemma select_keys (cs : list string) (r : row) :
  forallb (fun kv => mem (fst kv) cs) (select cs r) = true.
Proof.
  unfold select. apply forallb_forall. intros kv H.
  apply in_map_iff in H. destruct H as (c & <- & Hc). simpl.
  now apply mem_In.
Qed.

Lemma pop_keys (cs : list string) (c : string) (r : row) :
  forallb (fun kv => mem (fst kv) cs) r = true ->
  forallb (fun kv => mem (fst kv) cs) (pop c r) = true.
Proof.
  rewrite !forallb_forall. intros H kv Hkv. apply H.
  unfold pop in Hkv. apply filter_In in Hkv. tauto.
Qed.

Lemma pg_insert_error_kind (schema : list model) (m : model) (vals : row)
    (idx cols : list string) (d : db) (e : exn) :
  forallb (fun kv => mem (fst kv) (columns m)) vals = true ->
  existsb (same_columns idx) (unique_indexes m) = true ->
  pg_insert schema m vals (DoUpdate idx cols) d = Err e ->
  e = IntegrityError.
Proof.
  intros Hc Hi. unfold pg_insert. rewrite Hc, Hi. cbn [negb]. cbv zeta.
  clear Hc Hi.
  destruct (existsb _ (not_nullable m)); [congruence|].
  destruct (existsb (same_key idx _) _).
  - destruct (forallb _ _); congruence.
  - destruct (existsb _ (unique_indexes m)); [congruence|].
    unfold insert_row. destruct (forallb _ _); congruence.
Qed.

Lemma execute_commit_raise_kind (schema : list model) (m : model) (vals : row)
    (idx cols : list string) (w w' : world) (e : exn) :
  forallb (fun c => has_key c vals) (uuid_defaults m) = true ->
  forallb (fun kv => mem (fst kv) (columns m)) vals = true ->
  existsb (same_columns idx) (unique_indexes m) = true ->
  (execute schema m vals (DoUpdate idx cols) ;;; commit) w = (Raise e, w') ->
  e = IntegrityError /\ w' = w.
Proof.
  intros Hd Hc Hi.
  destruct (pg_insert schema m vals (DoUpdate idx cols) (working w)) eqn:P.
  - rewrite (execute_commit_ok _ _ _ _ _ _ Hd P). discriminate.
  - rewrite (execute_commit_err _ _ _ _ _ _ Hd P). intros H. inversion H. subst.
    split; auto. eapply pg_insert_error_kind; eauto.
Qed.

Lemma FP_check_and_insert_raise_inv :
  forall (c : FP.orm_class) (unique_filter obj : row) (w w' : world) (e : exn),
    In c fp_classes ->
    FP.check_and_insert c unique_filter obj w = (Raise e, w') ->
    e = IntegrityError /\ w' = w.
Proof.
  intros c unique_filter obj w w' e Hc.
  unfold FP.check_and_insert, try_except.
  destruct (FP.upsert c (FP.to_clean_dict c obj) w) as [[u|e0] w0] eqn:E;
    [discriminate|].
  unfold raise. intros H. inversion H. subst e0 w0. clear H.
  revert E. simpl in Hc.
  destruct Hc as [<-|[<-|[<-|[<-|[<-|[]]]]]]; simpl FP.upsert.
  - unfold FP.Material_upsert. unfold bind at 1.
    destruct (drop_claimed_old_code_cases (FP.to_clean_dict FP.MaterialC obj) w)
      as (k' & E & Hk).
    rewrite E. apply execute_commit_raise_kind.
    + destruct Hk as [->| ->]; reflexivity.
    + destruct Hk as [->| ->]; [|apply pop_keys]; apply select_keys.
    + reflexivity.
  - apply execute_commit_raise_kind;
      [reflexivity|apply select_keys|reflexivity].
  - apply execute_commit_raise_kind;
      [reflexivity|apply select_keys|reflexivity].
  - apply execute_commit_raise_kind;
      [reflexivity|apply select_keys|reflexivity].
  - apply execute_commit_raise_kind;
      [reflexivity|apply select_keys|reflexivity].
Qed.



(** ** Writing a row again *)

Lemma set_table_twice (t : string) (r r' : list row) (d : db) :
  set_table t r (set_table t r' d) = set_table t r d.
Proof.
  induction d as [|[n old] rest IH]; simpl.
  - now rewrite String.eqb_refl.
  - destruct (String.eqb t n) eqn:E; simpl; rewrite E; auto. now rewrite IH.
Qed.

Lemma forallb_pointwise {A : Type} (f g : A -> bool) (l : list A) :
  (forall x, In x l -> f x = g x) -> forallb f l = forallb g l.
Proof.
  induction l as [|x t IH]; simpl; auto. intros H.
  rewrite (H x) by now left. rewrite IH; auto.
Qed.

Lemma update_ok_same (schema : list model) (m : model) (d : db) (x : row) :
  update_ok schema m d x x = true.
Proof.
  assert (K : forall U, key_changed U x x = false).
  { intros U. unfold key_changed. now rewrite list_value_eqb_refl. }
  unfold update_ok. apply andb_true_intro; split; [apply andb_true_intro; split|].
  - apply forallb_forall. intros U _. now rewrite K.
  - apply forallb_forall. intros fk _. now rewrite K.
  - apply negb_true_iff. unfold referenced_elsewhere.
    apply not_true_is_false. intros H.
    apply existsb_exists in H. destruct H as (m' & _ & H).
    apply existsb_exists in H. destruct H as (fk & _ & H).
    rewrite K, andb_false_r in H. discriminate.
Qed.

Lemma assign_again (cols : list string) (new x : row) :
  assign cols new (assign cols new x) = assign cols new x.
Proof.
  unfold assign. rewrite map_map. apply map_ext. intros [k v]. simpl.
  destruct (mem k cols) eqn:E; simpl; now rewrite E.
Qed.

Lemma assign_proposed (cols cs : list string) (vals : row) :
  assign cols (select cs vals) (select cs vals) = select cs vals.
Proof.
  unfold assign. unfold select at 2 3. rewrite map_map.
  apply map_ext_in. intros c Hc. simpl.
  destruct (mem c cols); auto.
  rewrite get_select. apply mem_In in Hc. now rewrite Hc.
Qed.

Lemma same_key_assign (idx cols : list string) (new x : row) :
  same_key idx new x = true -> same_key idx new (assign cols new x) = true.
Proof.
  intros H. apply same_key_intro. intros c Hc.
  destruct (same_key_pointwise idx new x c H Hc) as [Hn He].
  split; auto. rewrite get_assign.
  destruct (mem c cols && has_key c x); auto. apply value_eqb_refl.
Qed.

Lemma same_key_self (idx : list string) (new : row) :
  (forall c, In c idx -> get c new <> VNull) -> same_key idx new new = true.
Proof.
  intros H. apply same_key_intro. intros c Hc. split; auto.
  apply value_eqb_refl.
Qed.

(** The checks a statement went through when the store accepted it. *)
Lemma pg_insert_ok_checks (schema : list model) (m : model) (vals : row)
    (oc : on_conflict) (d d' : db) :
  pg_insert schema m vals oc d = Ok d' ->
  forallb (fun kv => mem (fst kv) (columns m)) vals = true
  /\ existsb (fun c => is_null (get c (proposed m vals))) (not_nullable m) = false.
Proof.
  unfold pg_insert.
  destruct (forallb _ vals); simpl; [|discriminate].
  destruct (existsb _ (not_nullable m)); [discriminate|]. auto.
Qed.

(** The store's answer when a statement it accepted comes again, the
    values of the conflict target and of the update set the same: the
    statement passes the same checks or fails them, and when it passes the
    store stays as the first statement left it. *)
Lemma pg_insert_do_update_again (schema : list model) (m : model)
    (vals vals' : row) (idx cols : list string) (d d' : db) :
  forallb (fun c => mem c (not_nullable m)) idx = true ->
  (forall c, In c (idx ++ cols) ->
             get c (proposed m vals') = get c (proposed m vals)) ->
  pg_insert schema m vals (DoUpdate idx cols) d = Ok d' ->
  pg_insert schema m vals' (DoUpdate idx cols) d'
  = if negb (forallb (fun kv => mem (fst kv) (columns m)) vals')
    then Err CompileError
    else if existsb (fun c => is_null (get c (proposed m vals'))) (not_nullable m)
         then Err IntegrityError
         else Ok d'.
Proof.
  intros Hidx Hag H.
  set (new := proposed m vals) in *. set (new' := proposed m vals') in *.
  assert (Hs : forall y, same_key idx new' y = same_key idx new y).
  { intros y. apply same_key_ext. intros c Hc. apply Hag, in_or_app. now left. }
  assert (Ha : forall y, assign cols new' y = assign cols new y).
  { intros y. apply assign_ext. intros c Hc. apply Hag, in_or_app. now right. }
  set (f := fun x : row => if same_key idx new x then assign cols new x else x).
  assert (F1 : forall x, same_key idx new (f x) = same_key idx new x).
  { intros x. unfold f. destruct (same_key idx new x) eqn:E; auto.
    now apply same_key_assign. }
  assert (F3 : forall x, same_key idx new (f x) = true ->
                         assign cols new (f x) = f x).
  { intros x. rewrite F1. unfold f. intros E. rewrite E. apply assign_again. }
  assert (F2 : forall x,
             (if same_key idx new' (f x) then assign cols new' (f x) else f x)
             = f x).
  { intros x. rewrite Hs, Ha. destruct (same_key idx new (f x)) eqn:E; auto. }
  pose proof (pg_insert_ok_checks _ _ _ _ _ _ H) as [Hc1 Hn1].
  fold new in Hn1.
  assert (Hnew : same_key idx new new = true).
  { apply same_key_self. intros c Hc E.
    rewrite forallb_forall in Hidx. specialize (Hidx c Hc). apply mem_In in Hidx.
    pose proof (existsb_false_forall _ _ Hn1 c Hidx) as Hz. simpl in Hz.
    rewrite E in Hz. discriminate. }
  unfold pg_insert in H. rewrite Hc1 in H. cbn [negb] in H. cbv zeta in H.
  fold new in H. rewrite Hn1 in H.
  destruct (existsb (same_columns idx) (unique_indexes m)) eqn:Hi;
    cbn [negb] in H; [|discriminate].
  clear Hc1 Hn1.
  unfold pg_insert. destruct (negb (forallb _ vals')); [reflexivity|].
  cbv zeta. fold new'.
  destruct (existsb (fun c => is_null (get c new')) (not_nullable m));
    [reflexivity|].
  rewrite Hi. cbn [negb].
  destruct (existsb (same_key idx new) (table (tablename m) d)) eqn:Hk.
  - destruct (forallb _ (table (tablename m) d)); inversion H. clear H.
    fold f. rewrite table_set_table.
    replace (existsb (same_key idx new') (map f (table (tablename m) d)))
      with true.
    2:{ symmetry. apply existsb_exists in Hk. destruct Hk as (x & Hx & Ex).
        apply existsb_exists. exists (f x). split; [now apply in_map|].
        now rewrite Hs, F1. }
    replace (forallb _ (map f (table (tablename m) d))) with true.
    2:{ symmetry. apply forallb_forall. intros y Hy.
        apply in_map_iff in Hy. destruct Hy as (x & <- & Hx).
        rewrite Hs, Ha. destruct (same_key idx new (f x)) eqn:E; auto.
        simpl. rewrite (F3 x E). apply update_ok_same. }
    rewrite map_map, set_table_twice. do 2 f_equal.
    apply map_ext. exact F2.
  - destruct (existsb (fun U => existsb (same_key U new) (table (tablename m) d))
                     (unique_indexes m)); [discriminate|].
    unfold insert_row in H.
    destruct (forallb (fk_ok d new) (foreign_keys m)); inversion H.
    clear H. rewrite table_set_table.
    assert (Hold : forall x, In x (table (tablename m) d) ->
                             same_key idx new x = false)
      by (apply existsb_false_forall; exact Hk).
    replace (existsb (same_key idx new') (table (tablename m) d ++ [new]))
      with true.
    2:{ symmetry. rewrite existsb_app. simpl. rewrite Hs, Hnew.
        now rewrite orb_true_r. }
    replace (forallb _ (table (tablename m) d ++ [new])) with true.
    2:{ symmetry. apply forallb_forall. intros y Hy. rewrite Hs, Ha.
        apply in_app_or in Hy. destruct Hy as [Hy|[<-|[]]].
        - now rewrite (Hold y Hy).
        - rewrite Hnew. simpl. unfold new at 2 3. unfold proposed.
          rewrite assign_proposed. apply update_ok_same. }
    rewrite set_table_twice. do 2 f_equal. rewrite map_app. f_equal.
    + rewrite <- (map_id (table (tablename m) d)) at 2.
      apply map_ext_in. intros x Hx. now rewrite Hs, (Hold x Hx).
    + simpl. rewrite Hs, Ha, Hnew. unfold new. unfold proposed.
      now rewrite assign_proposed.
Qed.

Lemma execute_commit_again (schema : list model) (m : model) (vals vals' : row)
    (idx cols : list string) (w w1 : world) (a : unit) :
  forallb (fun c => has_key c vals) (uuid_defaults m) = true ->
  forallb (fun c => has_key c vals') (uuid_defaults m) = true ->
  forallb (fun c => mem c (not_nullable m)) idx = true ->
  (forall c, In c (idx ++ cols) ->
             get c (proposed m vals') = get c (proposed m vals)) ->
  (execute schema m vals (DoUpdate idx cols) ;;; commit) w = (Ret a, w1) ->
  (execute schema m vals' (DoUpdate idx cols) ;;; commit) w1
  = if negb (forallb (fun kv => mem (fst kv) (columns m)) vals')
    then (Raise CompileError, w1)
    else if existsb (fun c => is_null (get c (proposed m vals'))) (not_nullable m)
         then (Raise IntegrityError, w1)
         else (Ret tt, w1).
Proof.
  intros Hd Hd' Hidx Hag H.
  apply execute_commit_inv in H. destruct H as (v & P & C & _ & Hv).
  destruct (Hv Hd) as [-> _]. clear Hv.
  pose proof (pg_insert_do_update_again _ _ _ _ _ _ _ _ Hidx Hag P) as Q.
  destruct (negb (forallb (fun kv => mem (fst kv) (columns m)) vals')).
  - apply execute_commit_err; auto.
  - destruct (existsb (fun c => is_null (get c (proposed m vals')))
                      (not_nullable m)).
    + apply execute_commit_err; auto.
    + rewrite (execute_commit_ok _ _ _ _ _ _ Hd' Q).
      destruct w1. simpl in *. now subst.
Qed.

(** The same, in the case the statement is the one the store accepted. *)
Lemma execute_commit_twice (schema : list model) (m : model) (vals : row)
    (idx cols : list string) (w w1 : world) (a : unit) :
  forallb (fun c => has_key c vals) (uuid_defaults m) = true ->
  forallb (fun c => mem c (not_nullable m)) idx = true ->
  (execute schema m vals (DoUpdate idx cols) ;;; commit) w = (Ret a, w1) ->
  (execute schema m vals (DoUpdate idx cols) ;;; commit) w1 = (Ret tt, w1).
Proof.
  intros Hd Hidx H.
  rewrite (execute_commit_again _ _ vals vals idx cols w w1 a); auto.
  apply execute_commit_inv in H. destruct H as (v & P & _ & _ & Hv).
  destruct (Hv Hd) as [-> _].
  apply pg_insert_ok_checks in P. destruct P as [P1 P2]. now rewrite P1, P2.
Qed.

Lemma get_pop (c c' : string) (r : row) :
  String.eqb c' c = false -> get c (pop c' r) = get c r.
Proof.
  intros Hne. unfold pop. induction r as [|[k v] t IH]; simpl; auto.
  destruct (String.eqb c' k) eqn:E; simpl.
  - apply String.eqb_eq in E. subst k. rewrite String.eqb_sym, Hne. exact IH.
  - now rewrite IH.
Qed.

Lemma FP_proposed_material (k kwargs : row) (c : string) :
  k = kwargs \/ k = pop "material_old_code" kwargs ->
  In c ["material_id"; "material_code"; "material_description"] ->
  get c (proposed FP.Material k) = get c (proposed FP.Material kwargs).
Proof.
  intros [->| ->] Hc; auto.
  unfold proposed. rewrite !get_select.
  destruct (mem c (columns FP.Material)); auto.
  apply get_pop. simpl in Hc. destruct Hc as [<-|[<-|[<-|[]]]]; reflexivity.
Qed.

Lemma has_key_pop (c c' : string) (r : row) :
  String.eqb c' c = false -> has_key c (pop c' r) = has_key c r.
Proof.
  intros Hne. unfold has_key, pop, mem.
  induction r as [|[k v] t IH]; simpl; auto.
  destruct (String.eqb c' k) eqn:E; simpl.
  - apply String.eqb_eq in E. subst k. rewrite String.eqb_sym, Hne. exact IH.
  - now rewrite IH.
Qed.

(** [Material.upsert] called again after it returned, with keyword
    arguments that bring the same material code and description. *)
Lemma Material_upsert_again (k k' : row) (w w1 : world) (a : unit) :
  has_key "material_id" k = true ->
  has_key "material_id" k' = true ->
  get "material_code" (proposed FP.Material k')
  = get "material_code" (proposed FP.Material k) ->
  get "material_description" (proposed FP.Material k')
  = get "material_description" (proposed FP.Material k) ->
  FP.Material_upsert k w = (Ret a, w1) ->
  snd (FP.Material_upsert k' w1) = w1
  /\ (get "material_id" (proposed FP.Material k')
      = get "material_id" (proposed FP.Material k) ->
      forallb (fun kv => mem (fst kv) (columns FP.Material)) k' = true ->
      FP.Material_upsert k' w1 = (Ret tt, w1)).
Proof.
  intros Hid Hid' Hcode Hdesc.
  unfold FP.Material_upsert. unfold bind at 1.
  destruct (drop_claimed_old_code_cases k w) as (k1 & E1 & Hk1). rewrite E1.
  intros H. unfold bind at 1. unfold bind at 2.
  destruct (drop_claimed_old_code_cases k' w1) as (k2 & E2 & Hk2). rewrite E2.
  assert (G1 : forall c, In c ["material_id"; "material_code";
                               "material_description"] ->
                         get c (proposed FP.Material k1)
                         = get c (proposed FP.Material k))
    by (intros; now apply FP_proposed_material).
  assert (G2 : forall c, In c ["material_id"; "material_code";
                               "material_description"] ->
                         get c (proposed FP.Material k2)
                         = get c (proposed FP.Material k'))
    by (intros; now apply FP_proposed_material).
  pose proof (execute_commit_inv _ _ _ _ _ _ _ H) as (v & P & _).
  assert (D1 : forallb (fun c => has_key c k1) (uuid_defaults FP.Material) = true).
  { simpl. rewrite andb_true_r.
    destruct Hk1 as [->| ->]; auto. now rewrite has_key_pop. }
  assert (D2 : forallb (fun c => has_key c k2) (uuid_defaults FP.Material) = true).
  { simpl. rewrite andb_true_r.
    destruct Hk2 as [->| ->]; auto. now rewrite has_key_pop. }
  pose proof (execute_commit_inv _ _ _ _ _ _ _ H) as (v1 & P1 & _ & _ & Hv).
  destruct (Hv D1) as [-> _]. clear Hv.
  apply pg_insert_ok_checks in P1. destruct P1 as [_ N1].
  rewrite (execute_commit_again FP.schema FP.Material k1 k2 _ _ w w1 a D1 D2);
    auto.
  2:{ intros c Hc. simpl in Hc.
      assert (Hc' : c = "material_code" \/ c = "material_description")
        by (destruct Hc as [<-|[<-|[<-|[]]]]; auto).
      destruct Hc' as [-> | ->].
      - rewrite G2, G1 by (simpl; auto). exact Hcode.
      - rewrite G2, G1 by (simpl; auto). exact Hdesc. }
  assert (N2 : existsb (fun c => is_null (get c (proposed FP.Material k2)))
                       (not_nullable FP.Material)
               = is_null (get "material_id" (proposed FP.Material k'))).
  { cbn [existsb not_nullable FP.Material] in N1 |- *.
    rewrite !G1 in N1 by (simpl; auto). rewrite !G2 by (simpl; auto).
    rewrite Hcode, Hdesc.
    apply orb_false_elim in N1. destruct N1 as [_ N1]. rewrite N1.
    now rewrite orb_false_r. }
  rewrite N2. split.
  - destruct (negb _); auto. destruct (is_null _); auto.
  - intros Hnn Hcols.
    assert (Hcols2 : forallb (fun kv => mem (fst kv) (columns FP.Material)) k2
                     = true)
      by (destruct Hk2 as [->| ->]; auto; now apply pop_keys).
    rewrite Hcols2. cbn [negb]. rewrite Hnn.
    cbn [existsb not_nullable FP.Material] in N1.
    rewrite G1 in N1 by (simpl; auto).
    apply orb_false_elim in N1. destruct N1 as [N1 _]. now rewrite N1.
Qed.

(** X9.  A write of the finished-product service is idempotent: for each
    of the five mapped classes, [check_and_insert] called again with the
    same object, on the world the first call left, gives the outcome of the
    first call and leaves that world as it is.  A row already written is
    found through the conflict target and rewritten with the values it
    has; a refused row is refused again. *)
Theorem FP_check_and_insert_idempotent :
  forall (c : FP.orm_class) (unique_filter obj : row) (w : world),
    In c fp_classes ->
    FP.check_and_insert c unique_filter obj
      (snd (FP.check_and_insert c unique_filter obj w))
    = FP.check_and_insert c unique_filter obj w.
Proof.
  intros c unique_filter obj w Hc.
  destruct (FP.check_and_insert c unique_filter obj w) as [[u|e] w1] eqn:E;
    cbn [snd].
  - destruct u. unfold FP.check_and_insert, try_except in E |- *.
    destruct (FP.upsert c (FP.to_clean_dict c obj) w) as [[u'|e'] w2] eqn:U;
      [|discriminate].
    inversion E. subst w2. clear E.
    replace (FP.upsert c (FP.to_clean_dict c obj) w1) with (Ret tt, w1); auto.
    symmetry. revert U. simpl in Hc.
    destruct Hc as [<-|[<-|[<-|[<-|[<-|[]]]]]]; simpl FP.upsert; intros U;
      try (eapply execute_commit_twice; [reflexivity|reflexivity|exact U]).
    destruct (Material_upsert_again (FP.to_clean_dict FP.MaterialC obj)
                (FP.to_clean_dict FP.MaterialC obj) w w1 u'
                eq_refl eq_refl eq_refl eq_refl U)
      as [_ H].
    apply H; [reflexivity|apply select_keys].
  - destruct (FP_check_and_insert_raise_inv c unique_filter obj w w1 e Hc E)
      as [_ ->].
    exact E.
Qed.

(** A use of X9: the plant 1010 written twice. *)
Lemma FP_check_and_insert_idempotent_witness :
  In FP.PlantsC fp_classes
  /\ FP.check_and_insert FP.PlantsC [("plant", VStr "1010")]
       (fp_plant 8 "1010" "Feed mill 1")
       (snd (FP.check_and_insert FP.PlantsC [("plant", VStr "1010")]
               (fp_plant 8 "1010" "Feed mill 1") empty_world))
     = FP.check_and_insert FP.PlantsC [("plant", VStr "1010")]
         (fp_plant 8 "1010" "Feed mill 1") empty_world.
Proof.
  split; [simpl; tauto|].
  apply (FP_check_and_insert_idempotent FP.PlantsC [("plant", VStr "1010")]
           (fp_plant 8 "1010" "Feed mill 1") empty_world).
  simpl. tauto.
Defined.

(** X10.  Materials, plants, formulas and analysis results are not
    duplicated when a file is loaded again: an object that differs from one
    already written in its surrogate id alone, written on the world the
    first write left, leaves that world exactly as it is, whether the store
    accepts the second write or refuses it.  (Samples are not in the list:
    their conflict target is the surrogate id itself.) *)
Theorem FP_rewrite_under_new_id_changes_nothing :
  forall (c : FP.orm_class) (unique_filter unique_filter' obj obj' : row)
         (w : world),
    In c [FP.MaterialC; FP.PlantsC; FP.FormulaC; FP.AnalysisResultsC] ->
    (forall col, In col (columns (FP.mapped c)) ->
                 ~ In col (primary_key (FP.mapped c)) ->
                 get col obj' = get col obj) ->
    fst (FP.check_and_insert c unique_filter obj w) = Ret tt ->
    snd (FP.check_and_insert c unique_filter' obj'
           (snd (FP.check_and_insert c unique_filter obj w)))
    = snd (FP.check_and_insert c unique_filter obj w).
Proof.
  intros c unique_filter unique_filter' obj obj' w Hc Hag.
  destruct (FP.check_and_insert c unique_filter obj w) as [[u|e] w1] eqn:E;
    cbn [fst snd]; [intros _|discriminate].
  unfold FP.check_and_insert, try_except in E |- *.
  destruct (FP.upsert c (FP.to_clean_dict c obj) w) as [[u'|e'] w2] eqn:U;
    [|discriminate].
  inversion E. subst w2. clear E.
  assert (G : snd (FP.upsert c (FP.to_clean_dict c obj') w1) = w1).
  { revert U Hag. simpl in Hc.
    destruct Hc as [<-|[<-|[<-|[<-|[]]]]]; simpl FP.upsert; simpl FP.mapped;
      intros U Hag.
    - apply (Material_upsert_again (FP.to_clean_dict FP.MaterialC obj)
               (FP.to_clean_dict FP.MaterialC obj') w w1 u' eq_refl eq_refl);
        auto; simpl; apply Hag; simpl; try tauto; intros [H|[]]; discriminate.
    - unfold FP.Plants_upsert in *.
      rewrite (execute_commit_again FP.schema FP.Plants
                 (FP.to_clean_dict FP.PlantsC obj)
                 (FP.to_clean_dict FP.PlantsC obj') _ _ w w1 u');
        [ destruct (negb _); auto; destruct (existsb _ _); auto
        | reflexivity | reflexivity | reflexivity | | exact U ].
      intros col Hcol. simpl in Hcol.
      repeat (destruct Hcol as [<-|Hcol];
              [simpl; apply Hag; simpl; [tauto|intros [H|[]]; discriminate]|]).
      contradiction.
    - unfold FP.Formula_upsert in *.
      rewrite (execute_commit_again FP.schema FP.Formula
                 (FP.to_clean_dict FP.FormulaC obj)
                 (FP.to_clean_dict FP.FormulaC obj') _ _ w w1 u');
        [ destruct (negb _); auto; destruct (existsb _ _); auto
        | reflexivity | reflexivity | reflexivity | | exact U ].
      intros col Hcol. simpl in Hcol.
      repeat (destruct Hcol as [<-|Hcol];
              [simpl; apply Hag; simpl; [tauto|intros [H|[]]; discriminate]|]).
      contradiction.
    - unfold FP.AnalysisResults_upsert in *.
      rewrite (execute_commit_again FP.schema FP.AnalysisResults
                 (FP.to_clean_dict FP.AnalysisResultsC obj)
                 (FP.to_clean_dict FP.AnalysisResultsC obj') _ _ w w1 u');
        [ destruct (negb _); auto; destruct (existsb _ _); auto
        | reflexivity | reflexivity | reflexivity | | exact U ].
      intros col Hcol. simpl in Hcol.
      repeat (destruct Hcol as [<-|Hcol];
              [simpl; apply Hag; simpl; [tauto|intros [H|[]]; discriminate]|]).
      contradiction. }
  destruct (FP.upsert c (FP.to_clean_dict c obj') w1) as [[a|e] w3];
    simpl in G |- *; exact G.
Qed.

(** A use of X10: the plant 1010 is written under the id 8, then again
    under the id 9. *)
Lemma FP_rewrite_under_new_id_changes_nothing_witness :
  In FP.PlantsC [FP.MaterialC; FP.PlantsC; FP.FormulaC; FP.AnalysisResultsC]
  /\ fst (FP.check_and_insert FP.PlantsC [("plant", VStr "1010")]
            (fp_plant 8 "1010" "Feed mill 1") empty_world) = Ret tt
  /\ table "plants"
       (committed
          (snd (FP.check_and_insert FP.PlantsC [("plant", VStr "1010")]
                  (fp_plant 9 "1010" "Feed mill 1")
                  (snd (FP.check_and_insert FP.PlantsC [("plant", VStr "1010")]
                          (fp_plant 8 "1010" "Feed mill 1") empty_world)))))
     = [fp_plant 8 "1010" "Feed mill 1"].
Proof.
  split; [simpl; tauto|]. split; [reflexivity|].
  rewrite (FP_rewrite_under_new_id_changes_nothing FP.PlantsC
             [("plant", VStr "1010")] [("plant", VStr "1010")]
             (fp_plant 8 "1010" "Feed mill 1") (fp_plant 9 "1010" "Feed mill 1")
             empty_world).
  - reflexivity.
  - simpl. tauto.
  - intros col Hin Hpk. simpl in Hin.
    destruct Hin as [<-|[<-|[<-|[]]]]; try reflexivity.
    exfalso. apply Hpk. simpl. tauto.
  - reflexivity.
Defined.

(** ** A dimension row of the raw-material service, written again *)

Lemma get_app_other (c k : string) (v : value) (r : row) :
  String.eqb c k = false -> get c (r ++ [(k, v)]) = get c r.
Proof.
  intros Hne. induction r as [|[k' v'] t IH]; simpl.
  - now rewrite Hne.
  - now rewrite IH.
Qed.

Lemma fill_defaults_gets (cs : list string) (vals : row) (w : world) :
  exists vals' n,
    fill_defaults cs vals w
    = (Ret vals', mkWorld (committed w) (working w) n (files w))
    /\ forall c, ~ In c cs -> get c vals' = get c vals.
Proof.
  revert vals w. induction cs as [|k t IH]; intros vals w; simpl.
  - exists vals, (uuid_next w). unfold ret. destruct w. auto.
  - destruct (has_key k vals).
    + destruct (IH vals w) as (v' & n & E & G). exists v', n.
      split; [exact E|]. intros c Hc. apply G. tauto.
    + unfold bind, uuid4. simpl.
      destruct (IH (vals ++ [(k, VUuid (uuid_next w))])
                   (mkWorld (committed w) (working w) (S (uuid_next w)) (files w)))
        as (v' & n & E & G).
      rewrite E. simpl. exists v', n. split; [reflexivity|].
      intros c Hc. rewrite G by tauto. apply get_app_other.
      apply String.eqb_neq. intros ->. apply Hc. now left.
Qed.

Lemma execute_ret_gets (schema : list model) (m : model) (vals : row)
    (oc : on_conflict) (w w1 : world) (a : unit) :
  execute schema m vals oc w = (Ret a, w1) ->
  exists vals',
    pg_insert schema m vals' oc (working w) = Ok (working w1)
    /\ forall c, ~ In c (uuid_defaults m) -> get c vals' = get c vals.
Proof.
  unfold execute, bind.
  destruct (fill_defaults_gets (uuid_defaults m) vals w) as (v' & n & E & G).
  rewrite E. simpl.
  destruct (pg_insert schema m v' oc (working w)) eqn:P;
    intros H; inversion H; subst.
  exists v'. simpl. auto.
Qed.

Lemma execute_present (schema : list model) (m : model) (vals : row)
    (oc : on_conflict) (w : world) :
  forallb (fun c => has_key c vals) (uuid_defaults m) = true ->
  execute schema m vals oc w
  = match pg_insert schema m vals oc (working w) with
    | Ok d => (Ret tt, mkWorld (committed w) d (uuid_next w) (files w))
    | Err e => (Raise e, w)
    end.
Proof.
  intros Hd. unfold execute, bind.
  now rewrite (fill_defaults_present _ _ _ Hd).
Qed.

Lemma get_has_key (c : string) (r : row) : get c r <> VNull -> has_key c r = true.
Proof.
  induction r as [|[k v] t IH]; simpl; [contradiction|].
  rewrite has_key_cons. destruct (String.eqb c k); auto.
Qed.

Lemma has_key_filter_columns (cs : list string) (c : string) (r : row) :
  mem c cs = true -> has_key c r = true ->
  has_key c (filter (fun kv => mem (fst kv) cs) r) = true.
Proof.
  intros Hc. induction r as [|[k v] t IH]; simpl; auto.
  rewrite has_key_cons. destruct (String.eqb c k) eqn:E.
  - apply String.eqb_eq in E. subst k. intros _. rewrite Hc.
    rewrite has_key_cons. now rewrite String.eqb_refl.
  - simpl. intros H. destruct (mem k cs); auto.
    rewrite has_key_cons, E. auto.
Qed.

(** What the statement of [check_and_insert] proposes for a column of
    the table: the attribute of the object. *)
Lemma RM_statement_get (m : model) (filters obj : row) (u : bool) (c : string) :
  mem c (columns m) = true -> String.eqb c "_sa_instance_state" = false ->
  get c (fst (RM.statement m filters (vars obj) u)) = get c obj.
Proof.
  intros Hc Hne. unfold RM.statement. cbn [fst].
  rewrite get_filter_columns, Hc. unfold vars. simpl. now rewrite Hne.
Qed.

Lemma RM_statement_keys (m : model) (filters values : row) (u : bool) :
  forallb (fun kv => mem (fst kv) (columns m))
          (fst (RM.statement m filters values u)) = true.
Proof.
  unfold RM.statement. cbn [fst]. apply forallb_forall. intros kv H.
  apply filter_In in H. tauto.
Qed.

(** The store's answer to [ON CONFLICT DO NOTHING] when a statement it
    accepted comes again under another primary key, on a table with one
    natural key [U]: nothing is written. *)
Lemma pg_insert_do_nothing_again (schema : list model) (m : model)
    (vals vals' : row) (U : list string) (d d' : db) :
  unique_indexes m = [primary_key m; U] ->
  forallb (fun c => mem c (not_nullable m)) U = true ->
  existsb (same_key (primary_key m) (proposed m vals)) (table (tablename m) d)
  = false ->
  (forall c, In c U -> get c (proposed m vals') = get c (proposed m vals)) ->
  pg_insert schema m vals DoNothing d = Ok d' ->
  pg_insert schema m vals' DoNothing d' = Ok d'
  \/ exists e, pg_insert schema m vals' DoNothing d' = Err e.
Proof.
  intros Huniq HU Hfresh Hag H.
  pose proof (pg_insert_ok_checks _ _ _ _ _ _ H) as [Hc1 Hn1].
  assert (Hs : forall y, same_key U (proposed m vals') y
                         = same_key U (proposed m vals) y)
    by (intros y; now apply same_key_ext).
  assert (Hnew : same_key U (proposed m vals) (proposed m vals) = true).
  { apply same_key_self. intros c Hc E.
    rewrite forallb_forall in HU. specialize (HU c Hc). apply mem_In in HU.
    pose proof (existsb_false_forall _ _ Hn1 c HU) as Hz. simpl in Hz.
    rewrite E in Hz. discriminate. }
  unfold pg_insert in H |- *. rewrite Hc1, Hn1 in H. cbn [negb] in H.
  cbv zeta in H. rewrite Huniq in H |- *. cbn [existsb] in H |- *.
  rewrite Hfresh in H. cbn [orb] in H. rewrite orb_false_r in H.
  clear Hc1 Hn1.
  destruct (negb (forallb _ vals')); [right; eauto|]. cbv zeta.
  destruct (existsb (fun c => is_null (get c (proposed m vals')))
                    (not_nullable m)); [right; eauto|].
  left.
  destruct (existsb (same_key U (proposed m vals)) (table (tablename m) d))
    eqn:Hk.
  - inversion H. subst d'.
    rewrite (existsb_pointwise _ _ _ Hs), Hk. now rewrite orb_true_r.
  - unfold insert_row in H.
    destruct (forallb (fk_ok d (proposed m vals)) (foreign_keys m));
      inversion H.
    rewrite table_set_table.
    replace (existsb (same_key U (proposed m vals'))
               (table (tablename m) d ++ [proposed m vals])) with true.
    + now rewrite orb_true_r.
    + symmetry. rewrite existsb_app. simpl. rewrite Hs, Hnew.
      now rewrite orb_true_r.
Qed.

(** A statement the store refused for a missing value is refused again
    when the value is still missing, on a table without foreign keys. *)
Lemma pg_insert_do_nothing_refused_again (schema : list model) (m : model)
    (vals vals' : row) (d : db) (e : exn) :
  foreign_keys m = [] ->
  forallb (fun kv => mem (fst kv) (columns m)) vals = true ->
  (forall c, In c (not_nullable m) ->
             is_null (get c (proposed m vals)) = true ->
             is_null (get c (proposed m vals')) = true) ->
  pg_insert schema m vals DoNothing d = Err e ->
  exists e', pg_insert schema m vals' DoNothing d = Err e'.
Proof.
  intros Hfk Hc Hnull. unfold pg_insert. rewrite Hc. cbn [negb]. cbv zeta.
  destruct (existsb (fun c => is_null (get c (proposed m vals)))
                    (not_nullable m)) eqn:N.
  - intros _. destruct (negb (forallb _ vals')); [eauto|].
    apply existsb_exists in N. destruct N as (c & Hin & Hz).
    replace (existsb (fun c => is_null (get c (proposed m vals')))
                     (not_nullable m)) with true; [eauto|].
    symmetry. apply existsb_exists. exists c. auto.
  - destruct (existsb _ (unique_indexes m)); [discriminate|].
    unfold insert_row. rewrite Hfk. simpl. discriminate.
Qed.

Lemma RM_dimension_again (m : model) (U : list string)
    (filters filters' obj obj' : row) (w : world) :
  unique_indexes m = [primary_key m; U] ->
  foreign_keys m = [] ->
  uuid_defaults m = primary_key m ->
  forallb (fun c => mem c (not_nullable m)) U = true ->
  forallb (fun c => mem c (columns m)
                    && negb (String.eqb c "_sa_instance_state"))
          (primary_key m ++ U ++ not_nullable m) = true ->
  forallb (fun c => negb (mem c (primary_key m))) U = true ->
  clean w ->
  no_null (key_of (primary_key m) obj) = true ->
  existsb (same_key (primary_key m) obj) (table (tablename m) (committed w))
  = false ->
  (forall col, In col (columns m) -> ~ In col (primary_key m) ->
               get col obj' = get col obj) ->
  committed
    (snd (RM.check_and_insert m filters' (vars obj') false
            (snd (RM.check_and_insert m filters (vars obj) false w))))
  = committed (snd (RM.check_and_insert m filters (vars obj) false w)).
Proof.
  intros Huniq Hfk Hdef HU Hcols Hdisj Hw Hid Hfresh Hag.
  set (vals := fst (RM.statement m filters (vars obj) false)).
  assert (Hin : forall c, In c (primary_key m ++ U ++ not_nullable m) ->
                          mem c (columns m) = true
                          /\ String.eqb c "_sa_instance_state" = false).
  { intros c Hc. rewrite forallb_forall in Hcols. specialize (Hcols c Hc).
    apply andb_prop in Hcols. destruct Hcols as [H1 H2].
    now apply negb_true_iff in H2. }
  assert (Hget : forall c, In c (primary_key m ++ U ++ not_nullable m) ->
                           get c (proposed m vals) = get c obj).
  { intros c Hc. destruct (Hin c Hc) as [H1 H2].
    unfold proposed. rewrite get_select, H1. now apply RM_statement_get. }
  assert (Hpk : forall c, In c (primary_key m) -> get c obj <> VNull).
  { intros c Hc E. unfold no_null, key_of in Hid.
    rewrite forallb_forall in Hid.
    specialize (Hid (get c obj) (in_map _ _ _ Hc)). rewrite E in Hid.
    discriminate. }
  assert (Hd : forallb (fun c => has_key c vals) (uuid_defaults m) = true).
  { rewrite Hdef. apply forallb_forall. intros c Hc.
    destruct (Hin c (in_or_app _ _ _ (or_introl Hc))) as [H1 H2].
    unfold vals, RM.statement. cbn [fst].
    apply has_key_filter_columns; auto. unfold vars. rewrite has_key_cons.
    rewrite H2. simpl. apply get_has_key. auto. }
  assert (Hfresh' : existsb (same_key (primary_key m) (proposed m vals))
                            (table (tablename m) (working w)) = false).
  { rewrite Hw. etransitivity; [|exact Hfresh].
    apply existsb_pointwise. intros y. apply same_key_ext. intros c Hc.
    apply Hget, in_or_app. now left. }
  pose proof (RM_check_and_insert_cases m filters (vars obj) false w) as H1.
  cbv zeta in H1. fold vals in H1.
  change (snd (RM.statement m filters (vars obj) false)) with DoNothing in H1.
  rewrite (execute_present _ _ _ _ _ Hd) in H1.
  set (w1 := snd (RM.check_and_insert m filters (vars obj) false w)) in *.
  pose proof (RM_check_and_insert_cases m filters' (vars obj') false w1) as H2.
  cbv zeta in H2.
  change (snd (RM.statement m filters' (vars obj') false)) with DoNothing in H2.
  destruct (execute RM.schema m (fst (RM.statement m filters' (vars obj') false))
              DoNothing w1) as [[a|e] w2] eqn:E2; rewrite H2; cbn [snd committed].
  2:{ apply execute_raise_store in E2. tauto. }
  apply execute_ret_gets in E2. destruct E2 as (v2 & P2 & G2).
  assert (Hget2 : forall c, In c (U ++ not_nullable m) ->
                            ~ In c (primary_key m) ->
                            get c (proposed m v2) = get c obj).
  { intros c Hc Hn.
    destruct (Hin c (in_or_app _ _ _ (or_intror Hc))) as [M1 M2].
    unfold proposed. rewrite get_select, M1, G2 by (now rewrite Hdef).
    rewrite RM_statement_get by auto. apply Hag; auto. now apply mem_In. }
  assert (HUpk : forall c, In c U -> ~ In c (primary_key m)).
  { intros c Hc Hn. rewrite forallb_forall in Hdisj. specialize (Hdisj c Hc).
    apply mem_In in Hn. rewrite Hn in Hdisj. discriminate. }
  destruct (pg_insert RM.schema m vals DoNothing (working w)) as [d1|e1] eqn:P1.
  - assert (W1 : working w1 = d1 /\ committed w1 = d1)
      by (unfold w1; rewrite H1; auto).
    destruct W1 as [W1 C1]. rewrite W1 in P2. rewrite C1.
    destruct (pg_insert_do_nothing_again RM.schema m vals v2 U (working w) d1
                Huniq HU Hfresh') as [Q|(e' & Q)]; auto.
    + intros c Hc. rewrite Hget2, Hget; auto.
      * apply in_or_app. right. apply in_or_app. now left.
      * apply in_or_app. now left.
    + congruence.
    + congruence.
  - assert (W1 : working w1 = working w /\ committed w1 = working w).
    { unfold w1. rewrite H1. cbn. unfold clean in Hw. rewrite Hw. auto. }
    destruct W1 as [W1 C1]. rewrite W1 in P2. rewrite C1.
    destruct (pg_insert_do_nothing_refused_again RM.schema m vals v2 (working w)
                e1 Hfk) as (e' & Q); auto.
    + apply RM_statement_keys.
    + intros c Hc Hz.
      assert (Hc' : In c (primary_key m ++ U ++ not_nullable m))
        by (apply in_or_app; right; apply in_or_app; now right).
      rewrite (Hget c Hc') in Hz.
      assert (Hn : ~ In c (primary_key m)).
      { intros Hn. apply (Hpk c Hn). now destruct (get c obj). }
      rewrite Hget2; auto. apply in_or_app. now right.
    + congruence.
Qed.

(** X11.  Materials, plants and vendors are not duplicated when the
    raw-material service loads a file again.  An object with an id of its
    own is written from a clean session; then an object that differs from it
    in its id alone is written.  The second write leaves the committed store
    as the first one left it: the row is on file under its natural key, or
    the store refused it and refuses it again. *)
Theorem RM_dimension_rewrite_changes_nothing :
  forall (m : model) (filters filters' obj obj' : row) (w : world),
    In m [RM.Material; RM.Plant; RM.Vendor] ->
    clean w ->
    no_null (key_of (primary_key m) obj) = true ->
    existsb (same_key (primary_key m) obj) (table (tablename m) (committed w))
    = false ->
    (forall col, In col (columns m) -> ~ In col (primary_key m) ->
                 get col obj' = get col obj) ->
    committed
      (snd (RM.check_and_insert m filters' (vars obj') false
              (snd (RM.check_and_insert m filters (vars obj) false w))))
    = committed (snd (RM.check_and_insert m filters (vars obj) false w)).
Proof.
  intros m filters filters' obj obj' w Hm. simpl in Hm.
  destruct Hm as [<-|[<-|[<-|[]]]].
  - now apply (RM_dimension_again RM.Material ["material_code"]).
  - now apply (RM_dimension_again RM.Plant ["plant"]).
  - now apply (RM_dimension_again RM.Vendor ["vendor_code"]).
Qed.

(** A use of X11: the material M1 is written under the id 5, then again
    under the id 6 with the same description. *)
Lemma RM_dimension_rewrite_changes_nothing_witness :
  In RM.Material [RM.Material; RM.Plant; RM.Vendor]
  /\ clean empty_world
  /\ table "materials"
       (committed
          (snd (RM.check_and_insert RM.Material [("material_code", VStr "M1")]
                  (vars (rm_material 6 "M1" "maize")) false
                  (snd (RM.check_and_insert RM.Material
                          [("material_code", VStr "M1")]
                          (vars (rm_material 5 "M1" "maize")) false
                          empty_world)))))
     = [rm_material 5 "M1" "maize"].
Proof.
  split; [simpl; tauto|]. split; [reflexivity|].
  rewrite (RM_dimension_rewrite_changes_nothing RM.Material
             [("material_code", VStr "M1")] [("material_code", VStr "M1")]
             (rm_material 5 "M1" "maize") (rm_material 6 "M1" "maize")
             empty_world).
  - reflexivity.
  - simpl. tauto.
  - reflexivity.
  - reflexivity.
  - reflexivity.
  - intros col Hin Hpk. simpl in Hin.
    destruct Hin as [<-|[<-|[<-|[]]]]; try reflexivity.
    exfalso. apply Hpk. simpl. tauto.
Defined.

(** ** The update flag of the raw-material [check_and_insert] *)

Lemma pg_insert_do_update_needs_index (schema : list model) (m : model)
    (vals : row) (idx cols : list string) (d d' : db) :
  pg_insert schema m vals (DoUpdate idx cols) d = Ok d' ->
  existsb (same_columns idx) (unique_indexes m) = true.
Proof.
  unfold pg_insert. destruct (negb (forallb _ vals)); [discriminate|]. cbv zeta.
  destruct (existsb _ (not_nullable m)); [discriminate|].
  destruct (existsb (same_columns idx) (unique_indexes m)); auto. discriminate.
Qed.

(** X12.  [check_and_insert] of the raw-material service with
    [update_on_conflict] on takes the keys of the filter as the conflict
    target.  When the table has no unique index on exactly these columns,
    the store refuses every such statement, the error is swallowed, and
    nothing is ever written: the committed store is what it was.  This is
    the case of the filter [insert_to_db] passes for samples (sample number
    and valuation date). *)
Theorem RM_update_on_conflict_needs_unique_index :
  forall (m : model) (filters values : row) (w : world),
    existsb (same_columns (map fst filters)) (unique_indexes m) = false ->
    fst (RM.check_and_insert m filters values true w) = Ret tt
    /\ committed (snd (RM.check_and_insert m filters values true w))
       = committed w.
Proof.
  intros m filters values w Hidx.
  pose proof (RM_check_and_insert_cases m filters values true w) as H.
  cbv zeta in H.
  destruct (execute RM.schema m (fst (RM.statement m filters values true))
              (snd (RM.statement m filters values true)) w)
    as [[a|e] w1] eqn:E; rewrite H; cbn [fst snd committed].
  - apply execute_ret_inv in E. destruct E as (v & P & _).
    unfold RM.statement in P. cbn [snd] in P.
    apply pg_insert_do_update_needs_index in P. congruence.
  - apply execute_raise_store in E. tauto.
Qed.

(** A use of X12: a sample under the filter of [insert_to_db], the update
    flag on, an empty store. *)
Lemma RM_update_on_conflict_needs_unique_index_witness :
  existsb (same_columns (map fst [("sample_no", VStr "S1");
                                  ("valuation_date", VDate 1)]))
          (unique_indexes RM.Sample) = false
  /\ committed
       (snd (RM.check_and_insert RM.Sample
               [("sample_no", VStr "S1"); ("valuation_date", VDate 1)]
               (vars (rm_sample 4 0 2 3 "S1" 1)) true empty_world))
     = [].
Proof.
  split; [reflexivity|].
  apply (RM_update_on_conflict_needs_unique_index RM.Sample
           [("sample_no", VStr "S1"); ("valuation_date", VDate 1)]
           (vars (rm_sample 4 0 2 3 "S1" 1)) empty_world).
  reflexivity.
Defined.

(** ** What the prepare steps hand to the store *)

Lemma comprehension_inv {A B : Type} (f : A -> M B) (xs : list A)
    (w w' : world) (ys : list B) :
  comprehension f xs w = (Ret ys, w') ->
  forall y, In y ys ->
    exists x w0 w1, In x xs /\ f x w0 = (Ret y, w1).
Proof.
  revert w ys. induction xs as [|x t IH]; intros w ys; simpl.
  - unfold ret. intros H. inversion H. contradiction.
  - unfold bind. destruct (f x w) as [[y0|e] w1] eqn:E; [|discriminate].
    destruct (comprehension f t w1) as [[ys0|e] w2] eqn:C; [|discriminate].
    unfold ret. intros H. inversion H. subst ys w2. intros y [<-|Hy].
    + exists x, w, w1. auto.
    + destruct (IH w1 ys0 C y Hy) as (x' & w0 & w3 & Hx & Ex).
      exists x', w0, w3. auto.
Qed.

Lemma dict_get_In (k v : value) (d : pydict) :
  dict_get k d = Some v -> In v (map snd d).
Proof.
  induction d as [|[k' v'] t IH]; simpl; [discriminate|].
  destruct (dict_get k t) as [u|].
  - intros H. inversion H. subst. right. now apply IH.
  - destruct (value_eqb k k'); [|discriminate].
    intros H. inversion H. now left.
Qed.

Lemma subscript_inv (d : pydict) (k v : value) (w w' : world) :
  subscript d k w = (Ret v, w') -> In v (map snd d) /\ w' = w.
Proof.
  unfold subscript. destruct (dict_get k d) as [u|] eqn:E.
  - unfold ret. intros H. inversion H. subst. split; auto.
    eapply dict_get_In; eauto.
  - unfold raise. discriminate.
Qed.








(** ** Duplicates *)

Lemma drop_duplicates_In (df : frame) (r : row) :
  In r (drop_duplicates df) -> In r df.
Proof.
  induction df as [|a t IH]; simpl; auto.
  intros [H|H]; auto. apply filter_In in H. right. apply IH. tauto.
Qed.

Lemma row_eqb_refl (r : row) : row_eqb r r = true.
Proof.
  unfold row_eqb. induction r as [|[k v] t IH]; simpl; auto.
  now rewrite String.eqb_refl, value_eqb_refl.
Qed.

Lemma row_eqb_trans (a b c : row) :
  row_eqb a b = true -> row_eqb b c = true -> row_eqb a c = true.
Proof.
  unfold row_eqb. revert b c.
  induction a as [|[k v] t IH]; intros [|[k' v'] t'] [|[k'' v''] t''];
    simpl; auto; try discriminate.
  intros H1 H2.
  apply andb_prop in H1. destruct H1 as [H1 T1].
  apply andb_prop in H1. destruct H1 as [K1 V1].
  apply andb_prop in H2. destruct H2 as [H2 T2].
  apply andb_prop in H2. destruct H2 as [K2 V2].
  apply String.eqb_eq in K1, K2. subst.
  rewrite String.eqb_refl, (value_eqb_trans _ _ _ V1 V2). simpl.
  eapply IH; eauto.
Qed.

Lemma row_eqb_get (c : string) (r r' : row) :
  row_eqb r r' = true -> value_eqb (get c r) (get c r') = true.
Proof.
  unfold row_eqb. revert r'.
  induction r as [|[k v] t IH]; intros [|[k' v'] t']; simpl; auto;
    try discriminate.
  intros H. apply andb_prop in H. destruct H as [H T].
  apply andb_prop in H. destruct H as [K V].
  apply String.eqb_eq in K. subst k'.
  destruct (String.eqb c k); auto.
Qed.

(** Every row of a frame has a row equal to it among the rows
    [drop_duplicates] keeps. *)
Lemma drop_duplicates_complete (df : frame) (r : row) :
  In r df -> exists r', In r' (drop_duplicates df) /\ row_eqb r' r = true.
Proof.
  induction df as [|a t IH]; simpl; [contradiction|].
  intros [<-|H].
  - exists a. split; auto. apply row_eqb_refl.
  - destruct (IH H) as (r' & Hin & He).
    destruct (row_eqb a r') eqn:E.
    + exists a. split; auto. eapply row_eqb_trans; eauto.
    + exists r'. split; auto. right. apply filter_In. split; auto.
      now rewrite E.
Qed.

Lemma value_eqb_is_text (a b : value) :
  value_eqb a b = true -> is_text a = is_text b.
Proof. destruct a, b; simpl; auto; discriminate. Qed.

(** ** The prepare steps of the finished-product service *)

Lemma blank_to_none_cases (x : value) (w : world) :
  if is_text x then
    exists v, FP.blank_to_none x w = (Ret v, w) /\ (v = VNull \/ not_blank v)
  else FP.blank_to_none x w = (Raise AttributeError, w).
Proof.
  destruct x; simpl; auto.
  destruct (String.eqb (strip s) "") eqn:E; simpl.
  - exists VNull. auto.
  - exists (VStr s). split; auto. right. exists s. split; auto.
    now apply String.eqb_neq.
Qed.

(** A comprehension over a body that raises on one of the elements, and
    leaves the world alone on those before it, raises. *)
Lemma comprehension_raises {A B : Type} (f : A -> M B) (xs : list A) (e : exn)
    (w : world) :
  (forall x v, f x v = (Raise e, v) \/ exists y, f x v = (Ret y, v)) ->
  (exists x, In x xs /\ forall v, f x v = (Raise e, v)) ->
  comprehension f xs w = (Raise e, w).
Proof.
  intros Hf. induction xs as [|a t IH]; intros (x & Hin & Hx).
  - contradiction.
  - simpl. unfold bind. destruct (Hf a w) as [E|(y & E)]; rewrite E; auto.
    destruct Hin as [->|Hin].
    + rewrite Hx in E. discriminate.
    + rewrite IH; eauto.
Qed.

Lemma FP_prepare_materials_cases :
  forall (data : frame) (w : world),
    if forallb (fun r => is_text (get "material_old_code" r)) data then
      exists materials w',
        FP.prepare_materials data w = (Ret materials, w')
        /\ forall m, In m materials ->
             get "material_old_code" m = VNull
             \/ not_blank (get "material_old_code" m)
    else FP.prepare_materials data w = (Raise AttributeError, w).
Proof.
  intros data w. unfold FP.prepare_materials, try_except.
  set (df := drop_duplicates
               (map (select ["material_code"; "material_description";
                             "material_old_code"]) data)).
  set (f := fun r : row =>
              v <- FP.blank_to_none (get "material_old_code" r) ;;
              ret (put "material_old_code" v r)).
  assert (Hf : forall r v,
             if is_text (get "material_old_code" r) then
               exists x, f r v = (Ret (put "material_old_code" x r), v)
                         /\ (x = VNull \/ not_blank x)
             else f r v = (Raise AttributeError, v)).
  { intros r v. unfold f, bind.
    pose proof (blank_to_none_cases (get "material_old_code" r) v) as H.
    destruct (is_text (get "material_old_code" r)).
    - destruct H as (x & E & Hx). rewrite E. exists x. auto.
    - now rewrite H. }
  destruct (forallb (fun r => is_text (get "material_old_code" r)) data) eqn:A.
  - assert (Hdf : forall r, In r df -> is_text (get "material_old_code" r) = true).
    { intros r Hr. apply drop_duplicates_In in Hr.
      apply in_map_iff in Hr. destruct Hr as (r0 & <- & Hr0).
      rewrite forallb_forall in A. rewrite get_select. simpl. now apply A. }
    assert (S1 : forall v, exists ys v',
                 comprehension f df v = (Ret ys, v')
                 /\ forall y, In y ys ->
                      get "material_old_code" y = VNull
                      \/ not_blank (get "material_old_code" y)).
    { clearbody df. clear A. induction df as [|r t IH]; intros v; simpl.
      - exists [], v. split; auto. contradiction.
      - unfold bind. pose proof (Hf r v) as H.
        rewrite Hdf in H by now left. destruct H as (x & E & Hx). rewrite E.
        destruct (IH (fun r Hr => Hdf r (or_intror Hr)) v) as (ys & v' & C & Hy).
        rewrite C. exists (put "material_old_code" x r :: ys), v'.
        split; auto. intros y [<-|Hin]; auto.
        now rewrite get_put_same. }
    destruct (S1 w) as (ys & v' & C & Hy). unfold bind at 1. fold f. rewrite C.
    set (g := fun r : row =>
                material_id <- uuid4 ;;
                ret [("material_id", material_id);
                     ("material_code", get "material_code" r);
                     ("material_description", get "material_description" r);
                     ("material_old_code", get "material_old_code" r)]).
    assert (Hg : succeeds (comprehension g ys)).
    { apply succeeds_comprehension. intros. unfold g. returns. }
    destruct (Hg v') as (ms & w' & G). fold g. rewrite G.
    exists ms, w'. split; auto. intros m Hm.
    destruct (comprehension_inv _ _ _ _ _ G m Hm) as (y & w0 & w1 & Hin & E).
    unfold g, bind, uuid4, ret in E. inversion E. simpl. auto.
  - unfold bind at 1. fold f.
    rewrite (comprehension_raises f df AttributeError w); auto.
    + intros r v. pose proof (Hf r v) as H.
      destruct (is_text (get "material_old_code" r)); auto.
      destruct H as (x & E & _). eauto.
    + assert (Hex : exists r, In r data
                              /\ is_text (get "material_old_code" r) = false).
      { clear -A. induction data as [|a t IH]; simpl in A; [discriminate|].
        destruct (is_text (get "material_old_code" a)) eqn:E.
        - destruct (IH A) as (r & Hr & Er). exists r. simpl. auto.
        - exists a. simpl. auto. }
      destruct Hex as (r & Hr & Er).
      destruct (drop_duplicates_complete
                  (map (select ["material_code"; "material_description";
                                "material_old_code"]) data)
                  (select ["material_code"; "material_description";
                           "material_old_code"] r))
        as (r' & Hin & He); [now apply in_map|].
      exists r'. split; auto. intros v. pose proof (Hf r' v) as H.
      rewrite (value_eqb_is_text _ _ (row_eqb_get "material_old_code" _ _ He))
        in H.
      rewrite get_select in H. simpl in H. now rewrite Er in H.
Qed.



(** ** The cleaning steps of the raw-material service *)

Lemma list_eqb_string_eq (l l' : list string) :
  list_eqb String.eqb l l' = true -> l = l'.
Proof.
  revert l'. induction l as [|a t IH]; intros [|b u]; simpl; auto;
    try discriminate.
  intros H. apply andb_prop in H. destruct H as [H1 H2].
  apply String.eqb_eq in H1. subst. f_equal. auto.
Qed.

Lemma rectangular_same_keys (df : frame) :
  rectangular df = true -> same_keys df.
Proof.
  destruct df as [|r0 t]; [intros _ r r' []|].
  simpl. intros H.
  assert (K : forall r, In r (r0 :: t) -> map fst r = map fst r0).
  { intros r [<-|Hr]; auto. rewrite forallb_forall in H.
    now apply list_eqb_string_eq, H. }
  intros r r' Hr Hr'. now rewrite (K r Hr), (K r' Hr').
Qed.

Lemma same_keys_map (T : row -> row) (K : list string -> list string)
    (df : frame) :
  (forall r, map fst (T r) = K (map fst r)) ->
  same_keys df -> same_keys (map T df).
Proof.
  intros HT H r r' Hr Hr'.
  apply in_map_iff in Hr. destruct Hr as (x & <- & Hx).
  apply in_map_iff in Hr'. destruct Hr' as (x' & <- & Hx').
  now rewrite !HT, (H x x' Hx Hx').
Qed.

Lemma has_key_put_same (c : string) (v : value) (r : row) :
  has_key c (put c v r) = true.
Proof.
  induction r as [|[k w] t IH]; simpl.
  - rewrite has_key_cons. now rewrite String.eqb_refl.
  - destruct (String.eqb c k) eqn:E; rewrite has_key_cons.
    + apply String.eqb_eq in E. subst. now rewrite String.eqb_refl.
    + now rewrite E.
Qed.

Lemma keys_put (c : string) (v : value) (r : row) :
  map fst (put c v r)
  = if mem c (map fst r) then map fst r else map fst r ++ [c].
Proof.
  unfold mem. induction r as [|[k w] t IH]; simpl; auto.
  destruct (String.eqb c k) eqn:E; simpl.
  - apply String.eqb_eq in E. now subst.
  - rewrite IH. now destruct (existsb (String.eqb c) (map fst t)).
Qed.

Lemma In_set_column (c : string) (col : list value) (df : frame) (r' : row) :
  In r' (set_column c col df) -> exists r v, In r df /\ r' = put c v r.
Proof.
  unfold set_column. intros H. apply in_map_iff in H.
  destruct H as ([r v] & <- & Hin). apply in_combine_l in Hin.
  exists r, v. auto.
Qed.

Lemma rows_from_refl (df : frame) : rows_from df df.
Proof. intros r Hr. exists r. auto. Qed.

Lemma rows_from_trans (a b c : frame) :
  rows_from a b -> rows_from b c -> rows_from a c.
Proof.
  intros H1 H2 r'' Hr''. destruct (H2 r'' Hr'') as (r' & Hr' & K2).
  destruct (H1 r' Hr') as (r & Hr & K1). exists r. auto.
Qed.

Lemma rows_from_set_column (c : string) (col : list value) (df : frame) :
  rows_from df (set_column c col df).
Proof.
  intros r' Hr'. apply In_set_column in Hr'. destruct Hr' as (r & v & Hr & ->).
  exists r. split; auto. intros k. apply has_key_put.
Qed.

Lemma rows_from_has_key (df df' : frame) (c : string) :
  rows_from df df' ->
  (forall r, In r df -> has_key c r = true) ->
  forall r', In r' df' -> has_key c r' = true.
Proof.
  intros H Hc r' Hr'. destruct (H r' Hr') as (r & Hr & K). auto.
Qed.

Lemma same_keys_in_columns (df : frame) (c : string) :
  same_keys df -> in_columns c df = true ->
  forall r, In r df -> has_key c r = true.
Proof.
  destruct df as [|r0 t]; [discriminate|]. simpl. intros H Hc r Hr.
  unfold has_key in *. now rewrite (H r r0 Hr (or_introl eq_refl)).
Qed.

Lemma add_column_map (c : string) (df : frame) :
  CleanData.add_column c df = map (put c VNull) df.
Proof.
  unfold CleanData.add_column, set_column.
  induction df as [|r t IH]; simpl; auto. now rewrite IH.
Qed.

Lemma same_keys_add_column (c : string) (df : frame) :
  same_keys df -> same_keys (CleanData.add_column c df).
Proof.
  rewrite add_column_map.
  apply (same_keys_map (put c VNull)
           (fun ks => if mem c ks then ks else ks ++ [c])).
  intros r. apply keys_put.
Qed.

Lemma keys_map_columns (f : string -> string) (r : row) :
  map fst (map (fun kv : string * value => (f (fst kv), snd kv)) r)
  = map f (map fst r).
Proof. rewrite !map_map. reflexivity. Qed.

Lemma keys_filter (p : string -> bool) (r : row) :
  map fst (filter (fun kv : string * value => p (fst kv)) r)
  = filter p (map fst r).
Proof.
  induction r as [|[k v] t IH]; simpl; auto.
  destruct (p k); simpl; now rewrite IH.
Qed.

Lemma same_keys_drop (cs : list string) (df : frame) :
  same_keys df -> same_keys (CleanData.drop cs df).
Proof.
  apply (same_keys_map _ (filter (fun k => negb (mem k cs)))).
  intros r. apply (keys_filter (fun k => negb (mem k cs))).
Qed.

Lemma same_keys_map_columns (f : string -> string) (df : frame) :
  same_keys df -> same_keys (CleanData.map_columns f df).
Proof.
  apply (same_keys_map _ (map f)). intros r. apply keys_map_columns.
Qed.

(** [rename_columns] returns, keeps the number of rows and the frame
    rectangular. *)
Lemma rename_columns_same_keys (df : frame)
    (column_mapping : list (string * string)) :
  same_keys df ->
  exists df',
    CleanData.rename_columns df column_mapping = Ret df'
    /\ List.length df' = List.length df
    /\ same_keys df'.
Proof.
  intros H. unfold CleanData.rename_columns. eexists. split; [reflexivity|].
  split.
  - unfold CleanData.drop, CleanData.map_columns. now rewrite !length_map.
  - now apply same_keys_drop, same_keys_map_columns, same_keys_map_columns.
Qed.

(** The loop of [add_missing_columns], on a rectangular frame: every
    required column is in every row afterwards. *)
Lemma add_missing_fold (required_columns : list string) (df : frame) :
  same_keys df ->
  let df' :=
    fold_left
      (fun df column_name =>
         if negb (in_columns column_name df)
         then CleanData.add_column column_name df else df)
      required_columns df in
  same_keys df'
  /\ List.length df' = List.length df
  /\ forall c, In c required_columns ->
       forall r, In r df' -> has_key c r = true.
Proof.
  revert df. induction required_columns as [|c t IH]; intros df H; simpl.
  - split; [exact H|]. split; [reflexivity|]. intros c [].
  - set (df1 := if negb (in_columns c df) then CleanData.add_column c df else df).
    assert (H1 : same_keys df1
                 /\ List.length df1 = List.length df
                 /\ forall r, In r df1 -> has_key c r = true).
    { unfold df1. destruct (in_columns c df) eqn:E; simpl.
      - split; [exact H|]. split; [reflexivity|].
        now apply same_keys_in_columns.
      - split; [now apply same_keys_add_column|]. split.
        + rewrite add_column_map. apply length_map.
        + intros r Hr. rewrite add_column_map in Hr.
          apply in_map_iff in Hr. destruct Hr as (x & <- & _).
          apply has_key_put_same. }
    destruct H1 as (K1 & L1 & C1).
    destruct (IH df1 K1) as (K2 & L2 & C2).
    split; [exact K2|]. split; [congruence|].
    intros c' [<-|Hc'] r Hr; [|now apply C2].
    clear C2 IH K2 L2. revert Hr. generalize df1 C1. clear.
    induction t as [|c2 t IH]; intros df1 C1; simpl; auto.
    apply IH. destruct (in_columns c2 df1); simpl; auto.
    intros r0 Hr0. rewrite add_column_map in Hr0.
    apply in_map_iff in Hr0. destruct Hr0 as (x & <- & Hx).
    apply has_key_put. auto.
Qed.

Lemma clean_date_column_rows (X : externals) (dayfirst : value -> option Z)
    (df : frame) (date_column : string) :
  exists df',
    CleanData.clean_date_column X dayfirst df date_column = Ret df'
    /\ List.length df' = List.length df
    /\ rows_from df df'.
Proof.
  unfold CleanData.clean_date_column.
  destruct (in_columns date_column df).
  - rewrite to_datetime_coerce_ret. simpl. eexists. split; [reflexivity|].
    split; [|apply rows_from_set_column].
    apply length_set_column. now rewrite length_map, length_column.
  - exists df. repeat split; auto. apply rows_from_refl.
Qed.

Lemma enforce_column_rows (X : externals) (col : string) (dt : dtype)
    (df : frame) :
  exists df',
    RM.enforce_column X col dt df = Ret df'
    /\ List.length df' = List.length df
    /\ rows_from df df'.
Proof.
  unfold RM.enforce_column. destruct (in_columns col df).
  - destruct (dtype_eqb dt datetime64).
    + rewrite to_datetime_coerce_ret. simpl. eexists. split; [reflexivity|].
      split; [|apply rows_from_set_column].
      apply length_set_column. now rewrite length_map, length_column.
    + destruct (astype_ignore_ret X dt (column col df)) as (cc & E & L & _).
      rewrite E. simpl. eexists. split; [reflexivity|].
      split; [|apply rows_from_set_column].
      apply length_set_column. now rewrite L, length_column.
  - exists df. repeat split; auto. apply rows_from_refl.
Qed.

Lemma enforce_data_types_rows (X : externals) (df : frame)
    (schema : list (string * dtype)) :
  exists df',
    RM.enforce_data_types X df schema = Ret df'
    /\ List.length df' = List.length df
    /\ rows_from df df'.
Proof.
  unfold RM.enforce_data_types.
  assert (H : exists df',
             fold_left
               (fun (acc : outcome frame) (item : string * dtype) =>
                  obind acc (RM.enforce_column X (fst item) (snd item)))
               schema (Ret df) = Ret df'
             /\ List.length df' = List.length df
             /\ rows_from df df').
  { revert df. induction schema as [|[c dt] t IH]; intros df; simpl.
    - exists df. repeat split; auto. apply rows_from_refl.
    - destruct (enforce_column_rows X c dt df) as (df1 & E1 & L1 & R1).
      rewrite E1. destruct (IH df1) as (df' & E & L & R).
      exists df'. repeat split; auto; [congruence|].
      eapply rows_from_trans; eauto. }
  destruct H as (df' & E & L & R). cbv zeta. rewrite E. eauto.
Qed.

(** X18.  The four steps [clean_and_process_files] runs on a file, on a
    rectangular frame: none of them raises, the number of rows stays, and
    every row of the frame they end with has every column the column mapping
    maps to, the columns the file did not bring being added (filled with
    nulls) after the renaming and kept by the two conversions. *)
Theorem cleaned_frame_has_the_required_columns :
  forall (X : externals) (dayfirst : value -> option Z) (df : frame)
         (column_mapping : list (string * string))
         (schema : list (string * dtype)) (date_column : string),
    rectangular df = true ->
    exists df1 df2 df3 df4,
      CleanData.rename_columns df column_mapping = Ret df1
      /\ CleanData.add_missing_columns df1 (map snd column_mapping) = Ret df2
      /\ CleanData.clean_date_column X dayfirst df2 date_column = Ret df3
      /\ RM.enforce_data_types X df3 schema = Ret df4
      /\ List.length df4 = List.length df
      /\ forall r c, In r df4 -> In c (map snd column_mapping) ->
                     has_key c r = true.
Proof.
  intros X dayfirst df column_mapping schema date_column Hrect.
  apply rectangular_same_keys in Hrect.
  destruct (rename_columns_same_keys df column_mapping Hrect)
    as (df1 & E1 & L1 & K1).
  destruct (add_missing_fold (map snd column_mapping) df1 K1) as (K2 & L2 & C2).
  set (df2 := fold_left
                (fun df column_name =>
                   if negb (in_columns column_name df)
                   then CleanData.add_column column_name df else df)
                (map snd column_mapping) df1) in *.
  destruct (clean_date_column_rows X dayfirst df2 date_column)
    as (df3 & E3 & L3 & R3).
  destruct (enforce_data_types_rows X df3 schema) as (df4 & E4 & L4 & R4).
  exists df1, df2, df3, df4.
  split; [exact E1|]. split; [reflexivity|]. split; [exact E3|].
  split; [exact E4|]. split; [congruence|].
  intros r c Hr Hc.
  apply (rows_from_has_key df3 df4 c R4); auto.
  apply (rows_from_has_key df2 df3 c R3); auto.
Qed.

(** A use of X18: a sheet with a date and a moisture column, and a mapping
    that also asks for a material code. *)
Lemma cleaned_frame_has_the_required_columns_witness :
  rectangular [[("DATE", VDate 3); ("MOIS", VStr "1.5")]] = true
  /\ exists df4,
       RM.enforce_data_types demo
         [[("valuation_date", VDate 3); ("moisture", VStr "1.5");
           ("material_code", VNull)]]
         [("moisture", float64)]
       = Ret df4
       /\ forall r c, In r df4 ->
            In c ["valuation_date"; "moisture"; "material_code"] ->
            has_key c r = true.
Proof.
  split; [reflexivity|].
  destruct (cleaned_frame_has_the_required_columns demo (fun _ => None)
              [[("DATE", VDate 3); ("MOIS", VStr "1.5")]]
              [("DATE", "valuation_date"); ("MOIS", "moisture");
               ("Material", "material_code")]
              [("moisture", float64)] "DATE" eq_refl)
    as (df1 & df2 & df3 & df4 & E1 & E2 & E3 & E4 & _ & H).
  inversion E1. subst df1. inversion E2. subst df2. inversion E3. subst df3.
  exists df4. split; [exact E4|exact H].
Defined.

(** ** The cleaning run and the files *)

Lemma only_adds_files_refl (w : world) : only_adds_files w w.
Proof. unfold only_adds_files. auto. Qed.

Lemma only_adds_files_trans (a b c : world) :
  only_adds_files a b -> only_adds_files b c -> only_adds_files a c.
Proof.
  unfold only_adds_files. intros (A1 & A2 & A3 & A4) (B1 & B2 & B3 & B4).
  repeat split; try congruence. auto.
Qed.

Lemma exists_file_to_parquet (path p : string) (df : frame) (w : world) :
  exists_file p w = true ->
  exists_file p (snd (CleanData.to_parquet path df w)) = true.
Proof.
  unfold exists_file, CleanData.to_parquet. simpl. intros H.
  rewrite existsb_app. simpl.
  destruct (String.eqb p path) eqn:E; [now rewrite orb_true_r|].
  rewrite orb_false_r. apply existsb_exists in H.
  destruct H as (f & Hf & Ef). apply existsb_exists. exists f. split; auto.
  apply filter_In. split; auto. apply String.eqb_eq in Ef. rewrite <- Ef.
  now rewrite String.eqb_sym, E.
Qed.


Section Cleaning.

Variable I : world -> Prop.
Variable P : world -> world -> Prop.
Hypothesis P_refl : forall w, P w w.
Hypothesis P_trans : forall a b c, P a b -> P b c -> P a c.
Variable output_folder : string.
Hypothesis P_export :
  forall df filename,
    preserves I P (CleanData.export_to_parquet df output_folder filename).

Lemma reads_only_step {A : Type} (o : outcome A) : reads_only (CleanData.step o).
Proof. now intros w. Qed.

Lemma preserves_clean_and_process_files (X : externals)
    (dayfirst : value -> option Z) (input_folder : string)
    (column_mapping : list (string * string)) (schema : list (string * dtype))
    (date_column : string) :
  preserves I P
    (CleanData.clean_and_process_files X dayfirst input_folder output_folder
       column_mapping schema date_column).
Proof.
  unfold CleanData.clean_and_process_files.
  apply (preserves_try_except _ _ P_trans);
    [|intro; apply (preserves_reads_only _ _ P_refl), reads_only_raise].
  destruct (CleanData.is_empty column_mapping || CleanData.is_empty schema);
    [apply (preserves_reads_only _ _ P_refl), reads_only_ret|].
  apply (preserves_bind _ _ P_trans);
    [apply (preserves_reads_only _ _ P_refl), reads_only_listdir|intro].
  apply (preserves_for_each _ _ P_refl P_trans). intros filename.
  destruct (endswith ".parquet" filename);
    [|apply (preserves_reads_only _ _ P_refl), reads_only_ret].
  apply (preserves_try_except _ _ P_trans);
    [|intro; apply (preserves_reads_only _ _ P_refl), reads_only_ret].
  repeat first
    [ apply P_export
    | apply (preserves_reads_only _ _ P_refl);
      first [ apply reads_only_read_parquet | apply reads_only_step ]
    | apply (preserves_bind _ _ P_trans); [|intro] ].
Qed.

End Cleaning.

Lemma succeeds_clean_and_process_files (X : externals)
    (dayfirst : value -> option Z) (input_folder output_folder : string)
    (column_mapping : list (string * string)) (schema : list (string * dtype))
    (date_column : string) :
  succeeds
    (CleanData.clean_and_process_files X dayfirst input_folder output_folder
       column_mapping schema date_column).
Proof.
  unfold CleanData.clean_and_process_files. apply succeeds_try_except.
  destruct (CleanData.is_empty column_mapping || CleanData.is_empty schema);
    [apply succeeds_ret|].
  apply succeeds_bind; [intros w; unfold FP.listdir; eauto|intros filenames].
  apply succeeds_for_each. intros filename.
  destruct (endswith ".parquet" filename);
    [apply succeeds_swallowed|apply succeeds_ret].
Qed.

Lemma only_adds_files_clean_and_process_files (X : externals)
    (dayfirst : value -> option Z) (input_folder output_folder : string)
    (column_mapping : list (string * string)) (schema : list (string * dtype))
    (date_column : string) (w : world) :
  only_adds_files w
    (snd (CleanData.clean_and_process_files X dayfirst input_folder
            output_folder column_mapping schema date_column w)).
Proof.
  apply (preserves_clean_and_process_files (fun _ => True) only_adds_files
           only_adds_files_refl only_adds_files_trans output_folder); auto.
  intros df filename v _. split; auto.
  unfold CleanData.export_to_parquet, try_except. simpl.
  unfold only_adds_files. simpl. repeat split; auto.
  intros p. apply exists_file_to_parquet.
Qed.


(** ** The buffer watcher *)

Lemma exists_file_find (p : string) (w : world) :
  exists_file p w = true ->
  exists f, find (fun g => String.eqb p (fst g)) (files w) = Some f.
Proof.
  unfold exists_file. induction (files w) as [|g t IH]; simpl; [discriminate|].
  destruct (String.eqb p (fst g)); eauto.
Qed.

Lemma shutil_move_found (src dst : string) (w : world) :
  exists_file src w = true ->
  fst (shutil_move src dst w) = Ret tt
  /\ committed (snd (shutil_move src dst w)) = committed w
  /\ exists_file dst (snd (shutil_move src dst w)) = true
  /\ (String.eqb src dst = false ->
      exists_file src (snd (shutil_move src dst w)) = false).
Proof.
  intros H. destruct (exists_file_find src w H) as (f & E).
  unfold shutil_move. rewrite E. simpl. repeat split.
  - unfold exists_file. simpl. rewrite existsb_app. simpl.
    now rewrite String.eqb_refl, orb_true_r.
  - intros Hne. unfold exists_file. simpl. rewrite existsb_app. simpl.
    rewrite Hne, orb_false_r. apply not_true_is_false. intros Hx.
    apply existsb_exists in Hx. destruct Hx as (g & Hg & Eg).
    apply filter_In in Hg. destruct Hg as [_ Hg]. rewrite Eg in Hg.
    discriminate.
Qed.

(** The retry loop, for a workbook that is there: it returns, the store is
    left alone, and the workbook is moved at the first pass the lock is off;
    when the lock is on at every pass, the workbook is where it was. *)
Lemma retry_loop_moves_or_gives_up (X : externals)
    (dayfirst : value -> option Z) (column_mapping : list (string * string))
    (schema : list (string * dtype)) (locked : nat -> bool) (src : string)
    (passes : list nat) (w : world) :
  exists_file src w = true ->
  let run := Main.retry_loop X dayfirst column_mapping schema locked src passes w in
  let dst := path_join RM.UPLOAD_COMPLETE_FOLDER (basename src) in
  fst run = Ret tt
  /\ committed (snd run) = committed w
  /\ if forallb locked passes then exists_file src (snd run) = true
     else exists_file dst (snd run) = true
          /\ (String.eqb src dst = false -> exists_file src (snd run) = false).
Proof.
  revert w. induction passes as [|k t IH]; intros w Hsrc; simpl.
  - auto.
  - pose proof (succeeds_unit _ w
                  (succeeds_clean_and_process_files X dayfirst
                     Main.BUFFER_DATA_FOLDER Main.RAW_DATA_FOLDER column_mapping
                     schema "DATE")) as Hret.
    pose proof (only_adds_files_clean_and_process_files X dayfirst
                  Main.BUFFER_DATA_FOLDER Main.RAW_DATA_FOLDER column_mapping
                  schema "DATE" w) as Hadd.
    destruct (CleanData.clean_and_process_files X dayfirst
                Main.BUFFER_DATA_FOLDER Main.RAW_DATA_FOLDER column_mapping
                schema "DATE" w) as [[u|e] w1]; simpl in Hret, Hadd;
      [|discriminate].
    destruct Hadd as (C & _ & _ & Hfiles).
    destruct (locked k); simpl.
    + destruct (IH w1 (Hfiles src Hsrc)) as (R1 & R2 & R3).
      split; [exact R1|]. split; [congruence|exact R3].
    + destruct (shutil_move_found src
                  (path_join RM.UPLOAD_COMPLETE_FOLDER (basename src)) w1
                  (Hfiles src Hsrc)) as (M1 & M2 & M3 & M4).
      split; [exact M1|]. split; [congruence|]. split; auto.
Qed.

(** X20.  [BufferWatcherHandler.on_created] never raises.  It leaves the
    world as it is for a directory, for a path that does not end in
    [.xlsx] and for an Office lock file (a base name that begins with
    [~$]).  For a workbook that is there it makes at most five passes: the
    store is left alone, and the workbook is moved to the upload-complete
    folder at the first pass at which the operating system does not refuse
    the move; when it is refused at all five, the handler gives up and the
    workbook stays in the buffer folder. *)
Theorem buffer_on_created_moves_or_gives_up :
  forall (X : externals) (dayfirst : value -> option Z)
         (column_mapping : list (string * string))
         (schema : list (string * dtype)) (locked : nat -> bool)
         (ev : RM.event) (w : world),
    let run := Main.on_created X dayfirst column_mapping schema locked ev w in
    let src := RM.src_path ev in
    let dst := path_join RM.UPLOAD_COMPLETE_FOLDER (basename src) in
    fst run = Ret tt
    /\ if negb (RM.is_directory ev) && endswith ".xlsx" src
          && negb (Main.startswith "~$" (basename src))
       then
         exists_file src w = true ->
         committed (snd run) = committed w
         /\ if forallb locked (seq 0 5)
            then exists_file src (snd run) = true
            else exists_file dst (snd run) = true
                 /\ (String.eqb src dst = false ->
                     exists_file src (snd run) = false)
       else snd run = w.
Proof.
  intros X dayfirst column_mapping schema locked ev w run src dst.
  subst run src dst. unfold Main.on_created.
  destruct (RM.is_directory ev); [split; reflexivity|].
  destruct (endswith ".xlsx" (RM.src_path ev)); [|split; reflexivity].
  destruct (Main.startswith "~$" (basename (RM.src_path ev)));
    [split; reflexivity|].
  cbn [negb andb]. unfold try_except. split.
  - destruct (Main.retry_loop _ _ _ _ _ _ _ w) as [[[]|e] w1]; reflexivity.
  - intros Hsrc.
    destruct (retry_loop_moves_or_gives_up X dayfirst column_mapping schema
                locked (RM.src_path ev) (seq 0 5) w Hsrc) as (R1 & R2 & R3).
    destruct (Main.retry_loop X dayfirst column_mapping schema locked
                (RM.src_path ev) (seq 0 5) w) as [[u|e] w1];
      simpl in R1, R2, R3 |- *; [|discriminate].
    split; [exact R2|exact R3].
Qed.

(** ** The cleaning step of the finished-product service *)

Lemma keys_select (cs : list string) (r : row) : map fst (select cs r) = cs.
Proof. unfold select. rewrite map_map. simpl. apply map_id. Qed.

Lemma In_set_column_cell (c : string) (col : list value) (df : frame)
    (r' : row) :
  In r' (set_column c col df) ->
  exists r v, In r df /\ In v col /\ r' = put c v r.
Proof.
  unfold set_column. intros H. apply in_map_iff in H.
  destruct H as ([r v] & <- & Hin).
  exists r, v. split; [eapply in_combine_l; eauto|].
  split; [eapply in_combine_r; eauto|reflexivity].
Qed.

Lemma well_formed_in_columns (K T : list string) (n : nat) (df : frame)
    (c : string) :
  well_formed K T n df -> in_columns c df = true -> mem c K = true.
Proof.
  intros (_ & HK & _). destruct df as [|r t]; [discriminate|]. simpl.
  unfold has_key. now rewrite (HK r (or_introl eq_refl)).
Qed.

(** Writing a column that is there: the columns stay, and a column is
    known to hold text afterwards when it did and is not the one written,
    or when it is the one written and text was written. *)
Lemma well_formed_set_column (K T T' : list string) (n : nat) (c : string)
    (col : list value) (df : frame) :
  well_formed K T n df ->
  List.length col = n ->
  mem c K = true ->
  (forall c', In c' T' ->
     (c' = c -> forall v, In v col -> is_text v = true)
     /\ (c' <> c -> In c' T)) ->
  well_formed K T' n (set_column c col df).
Proof.
  intros (L & HK & HT) Lc Hc HT'. split; [|split].
  - rewrite length_set_column; congruence.
  - intros r' Hr'. apply In_set_column in Hr'.
    destruct Hr' as (r & v & Hr & ->).
    rewrite keys_put, (HK r Hr). now rewrite Hc.
  - intros c' r' Hc' Hr'. apply In_set_column_cell in Hr'.
    destruct Hr' as (r & v & Hr & Hv & ->).
    destruct (HT' c' Hc') as [H1 H2].
    destruct (String.eqb c' c) eqn:E.
    + apply String.eqb_eq in E. subst c'. rewrite get_put_same. auto.
    + apply String.eqb_neq in E. rewrite get_put_other by exact E. auto.
Qed.

Lemma well_formed_weaken (K T T' : list string) (n : nat) (df : frame) :
  well_formed K T n df -> (forall c, In c T' -> In c T) ->
  well_formed K T' n df.
Proof. intros (L & HK & HT) H. repeat split; auto. Qed.

Lemma astype_str_ret (X : externals) (errors : errors_mode) (col : list value) :
  astype X str errors col = Ret (map (fun v => VStr (py_str X v)) col).
Proof. reflexivity. Qed.

Section CleanFrame.

Variable X : externals.
Variable K : list string.
Variable n : nat.

Lemma numeric_step_well_formed (T : list string) (col : string) (df : frame) :
  ~ In col T ->
  well_formed K T n df ->
  exists df',
    (if in_columns col df then
       obind (to_numeric X errors_coerce (column col df))
             (fun c => Ret (set_column col (map round_cell c) df))
     else Ret df) = Ret df'
    /\ well_formed K T n df'.
Proof.
  intros Hn H. destruct (in_columns col df) eqn:E; [|eauto].
  rewrite to_numeric_coerce_ret. simpl. eexists. split; [reflexivity|].
  apply (well_formed_set_column K T T n); auto.
  - destruct H as (L & _). now rewrite !length_map, length_column.
  - eapply well_formed_in_columns; eauto.
  - intros c' Hc'. split; auto. intros ->. contradiction.
Qed.

Lemma string_step_well_formed (T : list string) (col : string) (df : frame) :
  mem col K = true ->
  well_formed K T n df ->
  exists df',
    (if in_columns col df then
       obind (astype X str errors_raise
                (map (fillna_cell (VStr "")) (column col df)))
             (fun c => Ret (set_column col c df))
     else Ret df) = Ret df'
    /\ well_formed K (col :: T) n df'.
Proof.
  intros Hc H. destruct (in_columns col df) eqn:E.
  - rewrite astype_str_ret. simpl. eexists. split; [reflexivity|].
    apply (well_formed_set_column K T (col :: T) n); auto.
    + destruct H as (L & _). now rewrite !length_map, length_column.
    + intros c' Hc'. split.
      * intros _ v Hv. apply in_map_iff in Hv. now destruct Hv as (u & <- & _).
      * intros Hne. destruct Hc' as [<-|Hc']; auto. now elim Hne.
  - exists df. split; auto. destruct H as (L & HK & HT).
    repeat split; auto. intros c r [<-|Hc'] Hr; auto.
    destruct df as [|r0 t]; [contradiction|]. simpl in E.
    unfold has_key in E. rewrite (HK r0 (or_introl eq_refl)) in E. congruence.
Qed.

Lemma date_step_well_formed (T : list string) (col : string) (df : frame) :
  mem col K = true -> ~ In col T ->
  well_formed K T n df ->
  exists df',
    obind (to_datetime X errors_coerce (column col df))
          (fun c => Ret (set_column col (map (date_cell X) c) df)) = Ret df'
    /\ well_formed K T n df'.
Proof.
  intros Hc Hn H. rewrite to_datetime_coerce_ret. simpl.
  eexists. split; [reflexivity|].
  apply (well_formed_set_column K T T n); auto.
  - destruct H as (L & _). now rewrite !length_map, length_column.
  - intros c' Hc'. split; auto. intros ->. contradiction.
Qed.

Lemma pallet_step_well_formed (T : list string) (df : frame) :
  well_formed K T n df ->
  exists df',
    (if in_columns "pallet_no" df then
       obind (astype X str errors_raise (column "pallet_no" df))
             (fun c => Ret (set_column "pallet_no" c df))
     else Ret df) = Ret df'
    /\ well_formed K T n df'.
Proof.
  intros H. destruct (in_columns "pallet_no" df) eqn:E; [|eauto].
  rewrite astype_str_ret. simpl. eexists. split; [reflexivity|].
  apply (well_formed_set_column K T T n); auto.
  - destruct H as (L & _). now rewrite !length_map, length_column.
  - eapply well_formed_in_columns; eauto.
  - intros c' Hc'. split; auto.
    intros _ v Hv. apply in_map_iff in Hv. now destruct Hv as (u & <- & _).
Qed.

Lemma load_time_step_well_formed (T : list string) (df : frame) :
  ~ In "load_time" T ->
  well_formed K T n df ->
  exists df',
    (if in_columns "load_time" df && in_columns "manufacturing_date" df then
       obind (astype X str errors_raise (column "manufacturing_date" df))
         (fun dates =>
       obind (astype X str errors_raise (column "load_time" df))
         (fun times =>
       obind (to_datetime X errors_coerce
                (map (fun dt => VStr (py_str X (fst dt) ++ " "
                                      ++ py_str X (snd dt)))
                     (combine dates times)))
         (fun c => Ret (set_column "load_time" c df))))
     else Ret df) = Ret df'
    /\ well_formed K T n df'.
Proof.
  intros Hn H. destruct (in_columns "load_time" df) eqn:E;
    [|exists df; auto].
  destruct (in_columns "manufacturing_date" df); [|exists df; auto]. simpl.
  rewrite to_datetime_coerce_ret. simpl. eexists. split; [reflexivity|].
  apply (well_formed_set_column K T T n); auto.
  - destruct H as (L & _).
    rewrite !length_map, length_combine, !length_map, !length_column.
    rewrite L. apply Nat.min_id.
  - eapply well_formed_in_columns; eauto.
  - intros c' Hc'. split; auto. intros ->. contradiction.
Qed.

Lemma numeric_phase_well_formed (cs : list string) (df : frame) :
  well_formed K [] n df ->
  exists df',
    ofold
      (fun col df =>
         if in_columns col df then
           obind (to_numeric X errors_coerce (column col df))
                 (fun c => Ret (set_column col (map round_cell c) df))
         else Ret df)
      cs df = Ret df'
    /\ well_formed K [] n df'.
Proof.
  revert df. induction cs as [|c t IH]; intros df H; cbn [ofold]; [eauto|].
  destruct (numeric_step_well_formed [] c df) as (df1 & E1 & H1); auto.
  rewrite E1. cbn [obind]. auto.
Qed.

Lemma string_phase_well_formed (cs T : list string) (df : frame) :
  (forall c, In c cs -> mem c K = true) ->
  well_formed K T n df ->
  exists df',
    ofold
      (fun col df =>
         if in_columns col df then
           obind (astype X str errors_raise
                    (map (fillna_cell (VStr "")) (column col df)))
                 (fun c => Ret (set_column col c df))
         else Ret df)
      cs df = Ret df'
    /\ well_formed K (cs ++ T) n df'.
Proof.
  revert T df. induction cs as [|c t IH]; intros T df Hcs H; cbn [ofold]; [eauto|].
  destruct (string_step_well_formed T c df) as (df1 & E1 & H1); auto.
  { apply Hcs. now left. }
  rewrite E1. cbn [obind].
  destruct (IH (c :: T) df1) as (df2 & E2 & H2); auto.
  { intros; apply Hcs; now right. }
  exists df2. split; auto. eapply well_formed_weaken; eauto.
  intros c' [<-|Hc']; apply in_or_app; [right; now left|].
  apply in_app_or in Hc'. destruct Hc'; [now left|right; now right].
Qed.

Lemma date_phase_well_formed (cs T : list string) (df : frame) :
  (forall c, In c cs -> mem c K = true /\ ~ In c T) ->
  well_formed K T n df ->
  exists df',
    ofold
      (fun col df =>
         obind (to_datetime X errors_coerce (column col df))
               (fun c => Ret (set_column col (map (date_cell X) c) df)))
      cs df = Ret df'
    /\ well_formed K T n df'.
Proof.
  revert df. induction cs as [|c t IH]; intros df Hcs H; cbn [ofold]; [eauto|].
  destruct (Hcs c (or_introl eq_refl)) as [Hc Hn].
  destruct (date_step_well_formed T c df) as (df1 & E1 & H1); auto.
  rewrite E1. cbn [obind]. apply IH; auto. intros; apply Hcs; now right.
Qed.

(** [clean_dataframe] on a frame that has the date columns: it returns,
    the rows keep their columns and their number, and the string columns
    that are there hold text. *)
Lemma clean_dataframe_well_formed (df : frame) :
  (forall c, In c (FP.string_cols ++ FP.date_cols) -> mem c K = true) ->
  well_formed K [] n df ->
  exists df',
    FP.clean_dataframe X df = Ret df' /\ well_formed K FP.string_cols n df'.
Proof.
  intros HK H. unfold FP.clean_dataframe.
  destruct (numeric_phase_well_formed FP.numeric_cols df H) as (df1 & E1 & H1).
  rewrite E1. cbn [obind].
  destruct (string_phase_well_formed FP.string_cols [] df1) as (df2 & E2 & H2);
    auto.
  { intros c Hc. apply HK, in_or_app. now left. }
  rewrite E2. cbn [obind]. rewrite app_nil_r in H2.
  destruct (date_phase_well_formed FP.date_cols FP.string_cols df2)
    as (df3 & E3 & H3); auto.
  { intros c Hc. split; [apply HK, in_or_app; now right|].
    simpl in Hc. destruct Hc as [<-|[<-|[]]]; intros Hin; simpl in Hin;
      repeat (destruct Hin as [Hin|Hin]; [discriminate|]); contradiction. }
  rewrite E3. cbn [obind].
  destruct (pallet_step_well_formed FP.string_cols df3 H3) as (df4 & E4 & H4).
  rewrite E4. cbn [obind].
  apply load_time_step_well_formed; auto.
  intros Hin; simpl in Hin;
    repeat (destruct Hin as [Hin|Hin]; [discriminate|]); contradiction.
Qed.

End CleanFrame.

Lemma length_fold_add_column (cs : list string) (df : frame) :
  List.length (fold_left (fun df col => CleanData.add_column col df) cs df)
  = List.length df.
Proof.
  revert df. induction cs as [|c t IH]; intros df; simpl; auto.
  rewrite IH, add_column_map. apply length_map.
Qed.

Lemma renamed_active_columns :
  map (CleanData.renamed
         (combine DataCleansing.active_columns DataCleansing.new_column))
      DataCleansing.active_columns
  = DataCleansing.new_column.
Proof. vm_compute. reflexivity. Qed.

Lemma new_column_has_the_cleaned_columns (c : string) :
  In c (FP.string_cols ++ FP.date_cols) ->
  mem c DataCleansing.new_column = true.
Proof.
  assert (H : forallb (fun c => mem c DataCleansing.new_column)
                      (FP.string_cols ++ FP.date_cols) = true)
    by (vm_compute; reflexivity).
  rewrite forallb_forall in H. apply H.
Qed.

(** X21.  [CleanFile.pipeline] never raises: for a workbook that cannot be
    read it answers [None], and for one that can it answers a frame with as
    many rows as the sheet, whose rows have exactly the 45 columns of
    [new_column], in that order, whatever columns the sheet had, and whose
    string columns hold text in every row.  So the frame has
    the old-code column [prepare_materials] of the upload calls [strip()]
    on, as text: on a frame the cleaning produced that step returns. *)
Theorem pipeline_gives_the_upload_its_columns :
  forall (X : externals) (path_file sheet_name : string) (w : world),
    match file_at path_file w with
    | None => DataCleansing.pipeline X path_file sheet_name w = (Ret None, w)
    | Some df =>
        exists df',
          DataCleansing.pipeline X path_file sheet_name w = (Ret (Some df'), w)
          /\ List.length df' = List.length df
          /\ (forall r, In r df' -> map fst r = DataCleansing.new_column)
          /\ (forall r c, In r df' -> In c FP.string_cols ->
                          is_text (get c r) = true)
          /\ (forall v, exists materials v',
                 FP.prepare_materials df' v = (Ret materials, v'))
    end.
Proof.
  intros X path_file sheet_name w.
  unfold file_at, DataCleansing.pipeline, try_except, bind,
    DataCleansing.load_data, bind, DataCleansing.read_excel, read_parquet.
  destruct (find (fun f => String.eqb path_file (fst f)) (files w))
    as [f|]; cbn [option_map]; [|reflexivity].
  cbn [ret snd].
  set (df2 := fold_left (fun df col => CleanData.add_column col df)
                (filter (fun col => negb (in_columns col (snd f)))
                        DataCleansing.active_columns) (snd f)).
  set (df3 := DataCleansing.rename_columns
                (map (select DataCleansing.active_columns) df2)).
  assert (H3 : well_formed DataCleansing.new_column [] (List.length (snd f)) df3).
  { unfold df3, DataCleansing.rename_columns, CleanData.map_columns.
    split; [|split].
    - rewrite !length_map. apply length_fold_add_column.
    - intros r Hr. apply in_map_iff in Hr. destruct Hr as (r1 & <- & Hr1).
      apply in_map_iff in Hr1. destruct Hr1 as (r0 & <- & _).
      rewrite keys_map_columns, keys_select. apply renamed_active_columns.
    - intros c r []. }
  destruct (clean_dataframe_well_formed X DataCleansing.new_column
              (List.length (snd f)) df3 new_column_has_the_cleaned_columns H3)
    as (df' & E & L & HK & HT).
  unfold CleanData.step. rewrite E. exists df'.
  split; [reflexivity|]. split; [exact L|]. split; [exact HK|].
  split; [intros r c Hr Hc; now apply HT|].
  intros v. pose proof (FP_prepare_materials_cases df' v) as H.
  replace (forallb (fun r => is_text (get "material_old_code" r)) df')
    with true in H.
  - destruct H as (ms & v' & Hm & _). eauto.
  - symmetry. apply forallb_forall. intros r Hr. apply HT; auto.
    simpl. tauto.
Qed.

(** ** References of the prepared fact rows *)

Lemma fk_ok_found (d : db) (r y : row) (fk : fkey) :
  In y (table (fk_table fk) d) ->
  key_of (fk_cols fk) r = key_of (fk_refcols fk) y ->
  fk_ok d r fk = true.
Proof.
  intros Hy E. unfold fk_ok. destruct (no_null _); auto.
  apply existsb_exists. exists y. split; auto. rewrite E.
  apply list_value_eqb_refl.
Qed.

Lemma code_map_of_values (code id : string) (rows : list row) (v : value) :
  In v (map snd (RM.code_map_of code id rows)) ->
  exists y, In y rows /\ get id y = v.
Proof.
  unfold RM.code_map_of. rewrite map_map. simpl. intros H.
  apply in_map_iff in H. destruct H as (y & E & Hy). eauto.
Qed.

Lemma samples_map_of_values (X : externals) (rows : list row) (v : value) :
  In v (map snd (RM.samples_map_of X rows)) ->
  exists y, In y rows /\ get "sample_id" y = v.
Proof.
  unfold RM.samples_map_of. rewrite map_map. simpl. intros H.
  apply in_map_iff in H. destruct H as (y & E & Hy). eauto.
Qed.

(** X22.  In the raw-material load the maps are read from the stored
    tables, so a prepared fact row always points at stored rows: every
    sample [prepare_samples] builds from the maps of a store satisfies the
    three foreign keys of the samples table in that store, and every
    analysis result and material source built from its sample map satisfies
    the foreign key to the samples.  In the store its maps were read
    from, a fact row of the raw-material service has its parents. *)
Theorem RM_prepared_rows_satisfy_their_foreign_keys :
  forall (X : externals) (data : frame) (d : db) (w : world),
    let mm := RM.code_map_of "material_code" "material_id" (table "materials" d) in
    let pm := RM.code_map_of "plant" "plant_id" (table "plants" d) in
    let vm := RM.code_map_of "vendor_code" "vendor_id" (table "vendors" d) in
    let sm := RM.samples_map_of X (table "samples" d) in
    (forall s, In s (match fst (RM.prepare_samples X data mm pm vm w) with
                     | Ret samples => samples
                     | Raise _ => []
                     end) ->
               forallb (fk_ok d (proposed RM.Sample s))
                       (foreign_keys RM.Sample) = true)
    /\ (forall r, In r (match fst (RM.prepare_analysis_results X data sm w) with
                        | Ret results => results
                        | Raise _ => []
                        end) ->
                  forallb (fk_ok d (proposed RM.AnalysisResult r))
                          (foreign_keys RM.AnalysisResult) = true)
    /\ (forall s, In s (match fst (RM.prepare_material_sources X data sm w) with
                        | Ret sources => sources
                        | Raise _ => []
                        end) ->
                  forallb (fk_ok d (proposed RM.MaterialSource s))
                          (foreign_keys RM.MaterialSource) = true).
Proof.
  intros X data d w mm pm vm sm. split; [|split].
  - destruct (RM.prepare_samples X data mm pm vm w) as [[ss|e] w'] eqn:E;
      [|contradiction].
    cbn [fst]. intros s Hs. unfold RM.prepare_samples in E.
    destruct (comprehension_inv _ _ _ _ _ E s Hs) as (r & w0 & w1 & _ & H).
    unfold bind, uuid4 in H.
    destruct (subscript mm (get "material_code" r) _) as [[a|e] v1] eqn:S1;
      [|discriminate].
    destruct (subscript pm (get "plant" r) v1) as [[b|e] v2] eqn:S2;
      [|discriminate].
    destruct (subscript vm (get "vendor_code" r) v2) as [[c|e] v3] eqn:S3;
      [|discriminate].
    unfold ret in H. inversion H. subst s. clear H.
    apply subscript_inv in S1, S2, S3.
    destruct S1 as [S1 _], S2 as [S2 _], S3 as [S3 _].
    apply code_map_of_values in S1, S2, S3.
    destruct S1 as (y1 & Y1 & G1), S2 as (y2 & Y2 & G2), S3 as (y3 & Y3 & G3).
    cbn [forallb foreign_keys RM.Sample].
    rewrite (fk_ok_found d _ y1), (fk_ok_found d _ y2), (fk_ok_found d _ y3);
      auto; simpl; congruence.
  - destruct (RM.prepare_analysis_results X data sm w) as [[rs|e] w'] eqn:E;
      [|contradiction].
    cbn [fst]. intros r Hr. unfold RM.prepare_analysis_results in E.
    destruct (comprehension_inv _ _ _ _ _ E r Hr) as (x & w0 & w1 & _ & H).
    unfold bind, uuid4 in H.
    destruct (subscript sm _ _) as [[a|e] v1] eqn:S1; [|discriminate].
    unfold ret in H. inversion H. subst r. clear H.
    apply subscript_inv in S1. destruct S1 as [S1 _].
    apply samples_map_of_values in S1. destruct S1 as (y & Y & G).
    cbn [forallb foreign_keys RM.AnalysisResult].
    rewrite (fk_ok_found d _ y); auto. simpl. congruence.
  - destruct (RM.prepare_material_sources X data sm w) as [[ss|e] w'] eqn:E;
      [|contradiction].
    cbn [fst]. intros s Hs. unfold RM.prepare_material_sources in E.
    destruct (comprehension_inv _ _ _ _ _ E s Hs) as (x & w0 & w1 & _ & H).
    unfold bind, uuid4 in H.
    destruct (subscript sm _ _) as [[a|e] v1] eqn:S1; [|discriminate].
    unfold ret in H. inversion H. subst s. clear H.
    apply subscript_inv in S1. destruct S1 as [S1 _].
    apply samples_map_of_values in S1. destruct S1 as (y & Y & G).
    cbn [forallb foreign_keys RM.MaterialSource].
    rewrite (fk_ok_found d _ y); auto. simpl. congruence.
Qed.

(** ** Quotes *)

Lemma contains_remove_char (c : ascii) (s : string) :
  contains c (CleanData.remove_char c s) = false.
Proof.
  induction s as [|a t IH]; simpl; auto.
  destruct (Ascii.eqb a c) eqn:E; simpl; auto. now rewrite E.
Qed.

Lemma contains_remove_other (c c' : ascii) (s : string) :
  contains c s = false -> contains c (CleanData.remove_char c' s) = false.
Proof.
  induction s as [|a t IH]; simpl; auto. intros H.
  apply orb_false_elim in H. destruct H as [H1 H2].
  destruct (Ascii.eqb a c'); simpl; auto. now rewrite H1, IH.
Qed.

(** X23.  [clean_text_column] never raises and keeps the rows; when the
    frame has the column, every cell of it is afterwards a text in which
    neither a single nor a double quote occurs (a cell that was not text is
    the text [str()] gives for it, a null included). *)
Theorem clean_text_column_removes_the_quotes :
  forall (X : externals) (df : frame) (text_column : string),
    exists df',
      CleanData.clean_text_column X df text_column = Ret df'
      /\ List.length df' = List.length df
      /\ (in_columns text_column df = true ->
          forall v, In v (column text_column df') -> unquoted v).
Proof.
  intros X df text_column. unfold CleanData.clean_text_column.
  destruct (in_columns text_column df) eqn:E.
  2:{ exists df. repeat split; auto. discriminate. }
  rewrite astype_str_ret. cbn [obind]. cbv zeta.
  set (c1 := map (fun v => VStr (py_str X v)) (column text_column df)).
  assert (L1 : List.length c1 = List.length df)
    by (unfold c1; now rewrite length_map, length_column).
  set (df1 := set_column text_column c1 df).
  assert (D1 : List.length df1 = List.length df)
    by (unfold df1; now apply length_set_column).
  assert (C1 : column text_column df1 = c1)
    by (unfold df1; now apply column_set_column_same).
  rewrite C1.
  set (c2 := map (CleanData.replace_cell "'"%char) c1).
  assert (L2 : List.length c2 = List.length df1)
    by (unfold c2; rewrite length_map; congruence).
  set (df2 := set_column text_column c2 df1).
  assert (D2 : List.length df2 = List.length df1)
    by (unfold df2; now apply length_set_column).
  assert (C2 : column text_column df2 = c2)
    by (unfold df2; now apply column_set_column_same).
  rewrite C2.
  set (c3 := map (CleanData.replace_cell (ascii_of_nat 34)) c2).
  assert (L3 : List.length c3 = List.length df2)
    by (unfold c3; rewrite length_map; congruence).
  eexists. split; [reflexivity|]. split.
  - rewrite length_set_column; congruence.
  - intros _ v Hv. rewrite column_set_column_same in Hv by exact L3.
    unfold c3, c2, c1 in Hv. rewrite !map_map in Hv.
    apply in_map_iff in Hv. destruct Hv as (u & <- & _). simpl.
    eexists. split; [reflexivity|]. split.
    + apply contains_remove_other, contains_remove_char.
    + apply contains_remove_char.
Qed.
